(** * Simbotix Core: licensing, metering, alerts and the central API client

    A shallow embedding of the metering subset of [simbotix_core] and the
    properties its specification states about it.

    Conventions of the embedding.
    - Python [float] and [int] quantities are rationals ([Q]); comparisons
      are the exact ones.  Binary rounding of floats is not modelled.
    - A [datetime] is a count of microseconds on the naive time line; a
      date is the datetime of its midnight.
    - A DocType table is a finite map from document names to documents.
      The host framework's storage primitives ([get_all], [set_value],
      [insert], [delete]) are total operations on that map.
    - Python truthiness is written out: [0], [None] and the empty string
      are falsy. *)

From Stdlib Require Import ZArith QArith Qround Lia Lqa Ascii.
From stdpp Require Import base option list sorting gmap strings pretty.

Local Open Scope Z_scope.

(** ** Python numerics *)

Module Py.

(** [bool(x)] for a number. *)
Definition truthy (x : Q) : bool := negb (Qeq_bool x 0).

(** [bool(n)] for an integer field. *)
Definition truthyZ (n : Z) : bool := negb (n =? 0).

(** [bool(s)] for an optional string. *)
Definition truthy_str (s : option string) : bool :=
  match s with
  | None => false
  | Some t => negb (String.eqb t "")
  end.

Definition ltb (x y : Q) : bool := negb (Qle_bool y x).
Definition geb (x y : Q) : bool := Qle_bool y x.

(** [max(0, x)]: the first argument unless the second is greater. *)
Definition max0 (x : Q) : Q := if ltb 0 x then x else 0%Q.

(** Rounding to the nearest integer, ties to even. *)
Definition round_half_even (x : Q) : Z :=
  let f := Qfloor x in
  match Qcompare (x - inject_Z f) (1 # 2) with
  | Lt => f
  | Gt => f + 1
  | Eq => if Z.even f then f else f + 1
  end.

(** [round(x, ndigits)]. *)
Definition round (x : Q) (ndigits : nat) : Q :=
  let s := inject_Z (10 ^ Z.of_nat ndigits) in
  (inject_Z (round_half_even (x * s)) / s)%Q.

End Py.

(** ** Time *)

Definition hour_us : Z := 3600000000.
Definition day_us : Z := 24 * hour_us.

(** [dt.replace(minute=0, second=0, microsecond=0)] *)
Definition truncate_hour (t : Z) : Z := t - t mod hour_us.

(** The midnight that starts the day of [t]. *)
Definition date_of (t : Z) : Z := t - t mod day_us.

(** [add_days(d, n)] *)
Definition add_days (d : Z) (n : Z) : Z := d + n * day_us.

(** ** DocTypes *)

Module Settings.

Record t := {
  central_api_url : option string;
  license_key : option string;
  api_key : option string;
  api_secret : option string;
  warning_threshold : Q;
  hard_limit_threshold : Q;
  sync_interval_hours : Z;
  cache_ttl_seconds : Z;
  block_on_exceeded : bool;
  use_redis_cache : bool;
  send_alert_emails : bool;
  alert_email : option string;
  last_usage_sync : option Z
}.

Definition set_last_usage_sync (v : option Z) (s : t) : t :=
  {| central_api_url := central_api_url s; license_key := license_key s;
     api_key := api_key s; api_secret := api_secret s;
     warning_threshold := warning_threshold s;
     hard_limit_threshold := hard_limit_threshold s;
     sync_interval_hours := sync_interval_hours s;
     cache_ttl_seconds := cache_ttl_seconds s;
     block_on_exceeded := block_on_exceeded s;
     use_redis_cache := use_redis_cache s;
     send_alert_emails := send_alert_emails s;
     alert_email := alert_email s;
     last_usage_sync := v |}.

(** The defaults [get_settings] falls back to. *)
Definition defaults : t :=
  {| central_api_url := Some "https://simbotix.com/api";
     license_key := None; api_key := None; api_secret := None;
     warning_threshold := 80; hard_limit_threshold := 100;
     sync_interval_hours := 1; cache_ttl_seconds := 300;
     block_on_exceeded := false; use_redis_cache := true;
     send_alert_emails := false; alert_email := None;
     last_usage_sync := None |}.

(** [SimbotixCoreSettings.validate]: [inl msg] is [frappe.throw(msg)]. *)
Definition validate (s : t) : string + unit :=
  if Py.truthy (warning_threshold s) && Py.truthy (hard_limit_threshold s)
     && Py.geb (warning_threshold s) (hard_limit_threshold s)
  then inl "Warning threshold must be less than hard limit threshold"
  else if Py.truthyZ (sync_interval_hours s)
          && ((sync_interval_hours s <? 1) || (24 <? sync_interval_hours s))
  then inl "Sync interval must be between 1 and 24 hours"
  else if Py.truthyZ (cache_ttl_seconds s) && (cache_ttl_seconds s <? 60)
  then inl "Cache TTL must be at least 60 seconds"
  else inr tt.

(** [doc.save()] on the single settings document: the controller's
    [validate] hook runs first and a throw aborts the write. *)
Definition save (stored : t) (doc : t) : t * (string + unit) :=
  match validate doc with
  | inl msg => (stored, inl msg)
  | inr _ => (doc, inr tt)
  end.

End Settings.

Module AppLicense.

(** The cached license document; [resource_limits] holds the parsed JSON
    text, [None] when the field is empty or does not parse. *)
Record t := {
  license_key : string;
  tier : string;
  status : string;
  resource_limits : option (gmap string Q)
}.

End AppLicense.

Module UsageRecord.

Record t := {
  resource_type : string;
  quantity : Q;
  timestamp : Z;
  app_name : option string;
  aggregated : bool;
  aggregated_at : option Z;
  period_start : option Z;
  period_end : option Z;
  synced : bool;
  synced_at : option Z;
  creation : Z
}.

(** [frappe.db.set_value] with the aggregation fields. *)
Definition set_aggregated (at_ : Z) (ps pe : Z) (r : t) : t :=
  {| resource_type := resource_type r; quantity := quantity r;
     timestamp := timestamp r; app_name := app_name r;
     aggregated := true; aggregated_at := Some at_;
     period_start := Some ps; period_end := Some pe;
     synced := synced r; synced_at := synced_at r;
     creation := creation r |}.

(** [frappe.db.set_value] with the sync fields. *)
Definition set_synced (at_ : Z) (r : t) : t :=
  {| resource_type := resource_type r; quantity := quantity r;
     timestamp := timestamp r; app_name := app_name r;
     aggregated := aggregated r; aggregated_at := aggregated_at r;
     period_start := period_start r; period_end := period_end r;
     synced := true; synced_at := Some at_;
     creation := creation r |}.

End UsageRecord.

Module UsageAlertDoc.

Inductive alert_type := Warning | Exceeded | Blocked.

Global Instance alert_type_eq_dec : EqDecision alert_type.
Proof. solve_decision. Defined.

Record t := {
  resource_type : string;
  kind : alert_type;
  threshold_percent : Q;
  current_usage : Q;
  limit_value : Q;
  usage_percent : option Q;
  overage_amount : option Q;
  overage_rate : option (Q * string);
  acknowledged : bool;
  acknowledged_by : option string;
  acknowledged_at : option Z;
  notification_sent : bool;
  email_sent_to : option string;
  creation : Z
}.

(** One entry of [OVERAGE_RATES]; [per] and [unit] are the optional keys. *)
Record rate_info := {
  rate : Q;
  per : option Q;
  unit : option string
}.

(** Overage rates from the pricing guide. *)
Definition OVERAGE_RATES : gmap string rate_info :=
  list_to_map
    [ ("storage_gb", {| rate := 3 # 2; per := None; unit := Some "GB/mo" |});
      ("bandwidth_gb", {| rate := 8 # 100; per := None; unit := Some "GB" |});
      ("database_gb", {| rate := 3; per := None; unit := Some "GB/mo" |});
      ("api_calls", {| rate := 1 # 2; per := Some 10000%Q; unit := Some "10K calls" |});
      ("file_uploads_gb", {| rate := 3 # 2; per := None; unit := Some "GB/mo" |});
      ("executions", {| rate := 2; per := Some 10000%Q; unit := Some "10K executions" |});
      ("emails", {| rate := 1; per := Some 1000%Q; unit := Some "1K emails" |});
      ("ai_queries", {| rate := 15 # 1000; per := None; unit := Some "query" |});
      ("webhooks", {| rate := 0; per := None; unit := Some "N/A" |}) ].

End UsageAlertDoc.

(** ** The site: everything the functions below read or write *)

Record Site := {
  now : Z;                                  (* now_datetime() *)
  month_start : Z;                          (* first day of the current month *)
  session_user : string;                    (* frappe.session.user *)
  settings : Settings.t;                    (* get_settings() *)
  license_cache : option (gmap string Q);   (* cached license: its limits *)
  active_license : option AppLicense.t;     (* get_active_license() *)
  usage_records : gmap string UsageRecord.t;
  usage_alerts : gmap string UsageAlertDoc.t
}.

(** [today()] *)
Definition today (s : Site) : Z := date_of (now s).

Definition with_usage_records (m : gmap string UsageRecord.t) (s : Site) : Site :=
  {| now := now s; month_start := month_start s; session_user := session_user s;
     settings := settings s; license_cache := license_cache s;
     active_license := active_license s;
     usage_records := m; usage_alerts := usage_alerts s |}.

Definition with_usage_alerts (m : gmap string UsageAlertDoc.t) (s : Site) : Site :=
  {| now := now s; month_start := month_start s; session_user := session_user s;
     settings := settings s; license_cache := license_cache s;
     active_license := active_license s;
     usage_records := usage_records s; usage_alerts := m |}.

Definition with_settings (c : Settings.t) (s : Site) : Site :=
  {| now := now s; month_start := month_start s; session_user := session_user s;
     settings := c; license_cache := license_cache s;
     active_license := active_license s;
     usage_records := usage_records s; usage_alerts := usage_alerts s |}.

Definition with_now (t : Z) (s : Site) : Site :=
  {| now := t; month_start := month_start s; session_user := session_user s;
     settings := settings s; license_cache := license_cache s;
     active_license := active_license s;
     usage_records := usage_records s; usage_alerts := usage_alerts s |}.

(** ** utils/licensing.py *)

Module Licensing.

(** The license dict [get_license] builds; only the limits are read by
    the metering code. *)
Record license := { resource_limits : gmap string Q }.

(** [_get_cached_license] *)
Definition _get_cached_license (s : Site) : option license :=
  if Settings.use_redis_cache (settings s)
  then (fun m => {| resource_limits := m |}) <$> license_cache s
  else None.

(** [_parse_json(value, {})] on the limits field. *)
Definition _parse_json (v : option (gmap string Q)) : gmap string Q :=
  default ∅ v.

(** [get_license] *)
Definition get_license (s : Site) : option license :=
  match _get_cached_license s with
  | Some cached => Some cached
  | None =>
      match active_license s with
      | None => None
      | Some doc =>
          Some {| resource_limits := _parse_json (AppLicense.resource_limits doc) |}
      end
  end.

(** [get_resource_limit] *)
Definition get_resource_limit (s : Site) (resource : string) : Q :=
  match get_license s with
  | None => 0%Q
  | Some license_doc => default 0%Q (resource_limits license_doc !! resource)
  end.

End Licensing.

(** ** utils/metering.py: limits and overage *)

Module Metering.

Inductive LimitStatus := ok | warning | exceeded.

Global Instance LimitStatus_eq_dec : EqDecision LimitStatus.
Proof. solve_decision. Defined.

(** The resource kinds of [ResourceType]. *)
Definition all_resources : list string :=
  [ "storage_gb"; "bandwidth_gb"; "database_gb"; "api_calls";
    "file_uploads_gb"; "executions"; "emails"; "ai_queries"; "webhooks" ].

(** [get_current_usage]: COALESCE(SUM(quantity), 0) over this month's
    records of the resource. *)
Definition get_current_usage (s : Site) (resource : string) : Q :=
  map_fold
    (fun _ r acc =>
       if String.eqb (UsageRecord.resource_type r) resource
          && (month_start s <=? date_of (UsageRecord.timestamp r))
       then (acc + UsageRecord.quantity r)%Q
       else acc)
    0%Q (usage_records s).

(** [(current / limit) * 100] *)
Definition percentage (current limit : Q) : Q := ((current / limit) * 100)%Q.

(** [check_limits] *)
Definition check_limits (s : Site) (resource : string) : LimitStatus :=
  let limit := Licensing.get_resource_limit s resource in
  if Qeq_bool limit 0 then ok
  else
    let current := get_current_usage s resource in
    let pct := percentage current limit in
    if Py.geb pct (Settings.hard_limit_threshold (settings s)) then exceeded
    else if Py.geb pct (Settings.warning_threshold (settings s)) then warning
    else ok.

(** [get_usage_percentage] *)
Definition get_usage_percentage (s : Site) (resource : string) : Q :=
  let limit := Licensing.get_resource_limit s resource in
  if Qeq_bool limit 0 then 0%Q
  else percentage (get_current_usage s resource) limit.

Record overage := {
  exceeded_by : Q;
  overage_cost : Q;
  rate : Q
}.

Definition no_overage : overage :=
  {| exceeded_by := 0; overage_cost := 0; rate := 0 |}.

(** [calculate_overage] *)
Definition calculate_overage (s : Site) (resource : string) : overage :=
  let limit := Licensing.get_resource_limit s resource in
  if Qeq_bool limit 0 then no_overage
  else
    let current := get_current_usage s resource in
    let exceeded_by := Py.max0 (current - limit) in
    if Qeq_bool exceeded_by 0 then no_overage
    else
      let rate_info :=
        default {| UsageAlertDoc.rate := 0; UsageAlertDoc.per := None;
                   UsageAlertDoc.unit := None |}
                (UsageAlertDoc.OVERAGE_RATES !! resource) in
      let rate := UsageAlertDoc.rate rate_info in
      let per := default 1%Q (UsageAlertDoc.per rate_info) in
      let overage_cost :=
        if Py.ltb 1 per then ((exceeded_by / per) * rate)%Q
        else (exceeded_by * rate)%Q in
      {| exceeded_by := exceeded_by;
         overage_cost := Py.round overage_cost 2;
         rate := rate |}.

End Metering.


(** ** Concrete sites for the examples *)

Module Examples.

Definition record (resource : string) (quantity : Q) (ts : Z) : UsageRecord.t :=
  {| UsageRecord.resource_type := resource; UsageRecord.quantity := quantity;
     UsageRecord.timestamp := ts; UsageRecord.app_name := None;
     UsageRecord.aggregated := false; UsageRecord.aggregated_at := None;
     UsageRecord.period_start := None; UsageRecord.period_end := None;
     UsageRecord.synced := false; UsageRecord.synced_at := None;
     UsageRecord.creation := ts |}.

Definition builder_license : AppLicense.t :=
  {| AppLicense.license_key := "LIC-1"; AppLicense.tier := "Builder";
     AppLicense.status := "Active";
     AppLicense.resource_limits :=
       Some (list_to_map
               [ ("api_calls", 10000%Q); ("storage_gb", 10%Q);
                 ("emails", 500%Q); ("webhooks", 0%Q) ]) |}.

(** A site on day 100, month started on day 90, with the given
    settings, license and usage records. *)
Definition site (c : Settings.t) (lic : option AppLicense.t)
    (recs : list (string * UsageRecord.t)) : Site :=
  {| now := 100 * day_us + 5 * hour_us; month_start := 90 * day_us;
     session_user := "Administrator";
     settings := c; license_cache := None; active_license := lic;
     usage_records := list_to_map recs; usage_alerts := ∅ |}.

Definition api_usage (q : Q) : Site :=
  site Settings.defaults (Some builder_license)
       [ ("UR-1", record "api_calls" q (99 * day_us)) ].

(** Settings with every checked field left at zero except the warning
    threshold. *)
Definition unset_settings : Settings.t :=
  {| Settings.central_api_url := Some "https://simbotix.com/api";
     Settings.license_key := None; Settings.api_key := None;
     Settings.api_secret := None;
     Settings.warning_threshold := 90; Settings.hard_limit_threshold := 0;
     Settings.sync_interval_hours := 0; Settings.cache_ttl_seconds := 0;
     Settings.block_on_exceeded := false; Settings.use_redis_cache := true;
     Settings.send_alert_emails := false; Settings.alert_email := None;
     Settings.last_usage_sync := None |}.

End Examples.

(** ** JSON values, as [json.loads] returns them *)

#[warnings="-register-all"]
Inductive json :=
| JNull
| JBool (b : bool)
| JNum (q : Q)
| JStr (s : string)
| JList (l : list json)
| JDict (d : list (string * json)).

(** A Python [dict] with string keys, in insertion order. *)
Abbreviation dict := (list (string * json)).

Module Dict.

(** [d.get(key)] *)
Fixpoint get (key : string) (d : dict) : option json :=
  match d with
  | [] => None
  | (k, v) :: d' => if String.eqb k key then Some v else get key d'
  end.

(** [bool(v)] *)
Definition truthy (v : json) : bool :=
  match v with
  | JNull => false
  | JBool b => b
  | JNum q => Py.truthy q
  | JStr s => negb (String.eqb s "")
  | JList l => match l with [] => false | _ => true end
  | JDict d => match d with [] => false | _ => true end
  end.

Definition of_opt_str (s : option string) : json :=
  match s with
  | None => JNull
  | Some t => JStr t
  end.

End Dict.

(** ** SHA-256 and HMAC, as [hashlib.sha256] and [hmac.new] compute them *)

Module SHA256.

Definition w32 (x : Z) : Z := x mod 2 ^ 32.
Definition add32 (x y : Z) : Z := w32 (x + y).
Definition not32 (x : Z) : Z := Z.lxor x (2 ^ 32 - 1).
Definition rotr (n x : Z) : Z :=
  Z.lor (Z.shiftr x n) (w32 (Z.shiftl x (32 - n))).
Definition shr (n x : Z) : Z := Z.shiftr x n.

Definition Ch (x y z : Z) : Z := Z.lxor (Z.land x y) (Z.land (not32 x) z).
Definition Maj (x y z : Z) : Z :=
  Z.lxor (Z.lxor (Z.land x y) (Z.land x z)) (Z.land y z).
Definition Sigma0 (x : Z) : Z := Z.lxor (Z.lxor (rotr 2 x) (rotr 13 x)) (rotr 22 x).
Definition Sigma1 (x : Z) : Z := Z.lxor (Z.lxor (rotr 6 x) (rotr 11 x)) (rotr 25 x).
Definition sigma0 (x : Z) : Z := Z.lxor (Z.lxor (rotr 7 x) (rotr 18 x)) (shr 3 x).
Definition sigma1 (x : Z) : Z := Z.lxor (Z.lxor (rotr 17 x) (rotr 19 x)) (shr 10 x).

Definition K : list Z :=
  [ 1116352408; 1899447441; 3049323471; 3921009573; 961987163; 1508970993;
    2453635748; 2870763221; 3624381080; 310598401; 607225278; 1426881987;
    1925078388; 2162078206; 2614888103; 3248222580; 3835390401; 4022224774;
    264347078; 604807628; 770255983; 1249150122; 1555081692; 1996064986;
    2554220882; 2821834349; 2952996808; 3210313671; 3336571891; 3584528711;
    113926993; 338241895; 666307205; 773529912; 1294757372; 1396182291;
    1695183700; 1986661051; 2177026350; 2456956037; 2730485921; 2820302411;
    3259730800; 3345764771; 3516065817; 3600352804; 4094571909; 275423344;
    430227734; 506948616; 659060556; 883997877; 958139571; 1322822218;
    1537002063; 1747873779; 1955562222; 2024104815; 2227730452; 2361852424;
    2428436474; 2756734187; 3204031479; 3329325298 ].

(** The eight working words. *)
Abbreviation state := (Z * Z * Z * Z * Z * Z * Z * Z)%type.

Definition H0 : state :=
  (1779033703, 3144134277, 1013904242, 2773480762,
   1359893119, 2600822924, 528734635, 1541459225).

(** Big-endian bytes of a word. *)
Definition be32 (x : Z) : list Z :=
  [ Z.shiftr x 24 mod 256; Z.shiftr x 16 mod 256; Z.shiftr x 8 mod 256; x mod 256 ].

Definition be64 (x : Z) : list Z :=
  be32 (Z.shiftr x 32 mod 2 ^ 32) ++ be32 (x mod 2 ^ 32).

(** Message padding: a 1 bit, zeros, and the bit length on 64 bits. *)
Definition pad (msg : list Z) : list Z :=
  let len := Z.of_nat (length msg) in
  msg ++ [128] ++ replicate (Z.to_nat ((55 - len) mod 64)) 0 ++ be64 (8 * len).

Fixpoint words (bytes : list Z) : list Z :=
  match bytes with
  | b0 :: b1 :: b2 :: b3 :: rest =>
      (b0 * 2 ^ 24 + b1 * 2 ^ 16 + b2 * 2 ^ 8 + b3) :: words rest
  | _ => []
  end.

(** The message schedule: 64 words from the 16 of the block. *)
Definition schedule (block : list Z) : list Z :=
  foldl
    (fun w t =>
       w ++ [ add32 (add32 (sigma1 (nth (t - 2) w 0)) (nth (t - 7) w 0))
                    (add32 (sigma0 (nth (t - 15) w 0)) (nth (t - 16) w 0)) ])
    block (seq 16 48).

Definition round (st : state) (kw : Z * Z) : state :=
  let '(a, b, c, d, e, f, g, h) := st in
  let t1 := add32 (add32 (add32 h (Sigma1 e)) (add32 (Ch e f g) kw.1)) kw.2 in
  let t2 := add32 (Sigma0 a) (Maj a b c) in
  (add32 t1 t2, a, b, c, add32 d t1, e, f, g).

Definition compress (st : state) (block : list Z) : state :=
  let '(a, b, c, d, e, f, g, h) := st in
  let '(a', b', c', d', e', f', g', h') :=
    foldl round st (zip K (schedule block)) in
  (add32 a a', add32 b b', add32 c c', add32 d d',
   add32 e e', add32 f f', add32 g g', add32 h h').

(** Process the padded message 64 bytes at a time. *)
Fixpoint blocks (n : nat) (st : state) (bytes : list Z) : state :=
  match n with
  | O => st
  | S n' => blocks n' (compress st (words (take 64 bytes))) (drop 64 bytes)
  end.

(** The 32-byte digest. *)
Definition digest (msg : list Z) : list Z :=
  let p := pad msg in
  let '(a, b, c, d, e, f, g, h) := blocks (length p / 64) H0 p in
  be32 a ++ be32 b ++ be32 c ++ be32 d ++ be32 e ++ be32 f ++ be32 g ++ be32 h.

(** [hmac.new(key, msg, hashlib.sha256).digest()] *)
Definition hmac (key msg : list Z) : list Z :=
  let key' := if (64 <? length key)%nat then digest key else key in
  let key'' := key' ++ replicate (64 - length key') 0 in
  let ipad := map (fun b => Z.lxor b 54) key'' in
  let opad := map (fun b => Z.lxor b 92) key'' in
  digest (opad ++ digest (ipad ++ msg)).

Definition hex_digits : list Ascii.ascii :=
  [ "0"; "1"; "2"; "3"; "4"; "5"; "6"; "7";
    "8"; "9"; "a"; "b"; "c"; "d"; "e"; "f" ]%char.

Definition hex_digit (n : Z) : Ascii.ascii :=
  nth (Z.to_nat (n mod 16)) hex_digits "0"%char.

(** [.hexdigest()]: two lowercase hexadecimal digits per byte. *)
Fixpoint hexdigest (bytes : list Z) : string :=
  match bytes with
  | [] => EmptyString
  | b :: rest => String (hex_digit (b / 16)) (String (hex_digit b) (hexdigest rest))
  end.

(** [s.encode("utf-8")], a string being its UTF-8 bytes. *)
Fixpoint encode (s : string) : list Z :=
  match s with
  | EmptyString => []
  | String a rest => Z.of_N (Ascii.N_of_ascii a) :: encode rest
  end.

End SHA256.



(** ** Effects on the outside world *)

Inductive http_verb := GET | POST.

Record request := {
  verb : http_verb;
  url : string;
  headers : list (string * string);
  payload : option dict
}.

Inductive effect :=
| EHttp (attempt : nat) (req : request)          (* requests.get / requests.post *)
| ESleep (seconds : Z)                           (* time.sleep *)
| ELogError (message title : string)             (* frappe.log_error *)
| ESendMail (recipients : list string) (subject : string).  (* frappe.sendmail *)

(** What a call raises or returns. *)
Inductive outcome (A : Type) :=
| Raise (message : string)
| Return (value : A).
Arguments Raise {A} message.
Arguments Return {A} value.

(** ** utils/central_api.py *)

Module CentralAPI.

Record client := {
  base_url : option string;
  api_key : option string;
  api_secret : option string;
  timeout : Z
}.

(** The exceptions [_make_request] catches. *)
Inductive exn :=
| Timeout
| ConnectionError
| RequestException (message : string)
| JSONDecodeError.

(** What one [requests] call does: it raises, or it answers with a
    status, a text and a body from which [response.json()] returns a
    JSON object or raises. *)
Inductive http_reply :=
| Raises (e : exn)
| Response (status_code : Z) (text : string) (body : exn + dict).

(** The world a client talks to: the reply to each successive attempt
    and the reading of [time.time()]. *)
Record runtime := {
  net : nat → http_reply;
  unix_time : Z
}.

(** [CentralAPIClient.__init__] *)
Definition new_client (s : Site) (base : option string) : client :=
  {| base_url := if Py.truthy_str base then base
                 else Settings.central_api_url (settings s);
     api_key := Settings.api_key (settings s);
     api_secret := Settings.api_secret (settings s);
     timeout := 30 |}.

(** [get_api_client] *)
Definition get_api_client (s : Site) : client := new_client s None.

(** [_generate_signature] *)
Definition _generate_signature (c : client) (payload : string) : string :=
  match api_secret c with
  | None => ""
  | Some secret =>
      if negb (Py.truthy_str (Some secret)) then ""
      else SHA256.hexdigest (SHA256.hmac (SHA256.encode secret) (SHA256.encode payload))
  end.

(** [s.rstrip('/')] *)
Fixpoint rstrip_slash (s : string) : string :=
  match s with
  | EmptyString => EmptyString
  | String a rest =>
      let r := rstrip_slash rest in
      if Ascii.eqb a "/" && String.eqb r "" then EmptyString else String a r
  end.

Definition upper_char (a : Ascii.ascii) : Ascii.ascii :=
  let n := Ascii.N_of_ascii a in
  if ((97 <=? n) && (n <=? 122))%N then Ascii.ascii_of_N (n - 32) else a.

(** [s.upper()] on ASCII text. *)
Fixpoint upper (s : string) : string :=
  match s with
  | EmptyString => EmptyString
  | String a rest => String (upper_char a) (upper rest)
  end.

(** [bool(data)] for an optional dict. *)
Definition truthy_data (data : option dict) : bool :=
  match data with
  | Some (_ :: _) => true
  | _ => false
  end.

(** The handlers of the [try] in the retry loop: the text kept in
    [last_error]. *)
Definition handler (e : exn) : string :=
  match e with
  | Timeout => "Request timed out"
  | ConnectionError => "Connection failed"
  | RequestException message => message
  | JSONDecodeError => "Invalid JSON response"
  end.

Definition failure (message : json) : json :=
  JDict [("success", JBool false); ("message", message)].

(** One pass through the body of the loop: [inl] is a [return], [inr] the
    new [last_error]. *)
Definition attempt_once (reply : http_reply) : json + string :=
  match reply with
  | Raises e => inr (handler e)
  | Response status_code text body =>
      if status_code =? 200 then
        match body with
        | inl e => inr (handler e)
        | inr result =>
            match Dict.get "message" result with
            | Some message => inl message
            | None => inl (JDict result)
            end
        end
      else if status_code =? 401 then inl (failure (JStr "Authentication failed"))
      else if status_code =? 403 then inl (failure (JStr "Access denied"))
      else if status_code =? 404 then inl (failure (JStr "Endpoint not found"))
      else inr ("HTTP " +:+ pretty status_code +:+ ": " +:+ text)
  end.

Definition final_log (retry_count : nat) (last_error : option string) : effect :=
  ELogError
    ("Central API request failed after " +:+ pretty retry_count
     +:+ " attempts: " +:+ default "None" last_error)
    "Simbotix Central API Error".

(** [for attempt in range(retry_count)], from [attempt] on, with
    [remaining] iterations left; then the code after the loop. *)
Fixpoint request_loop (rt : runtime) (req : request) (retry_count : nat)
    (remaining attempt : nat) (last_error : option string)
    : json * list effect :=
  match remaining with
  | O => (failure (Dict.of_opt_str last_error), [final_log retry_count last_error])
  | S remaining' =>
      match attempt_once (net rt attempt) with
      | inl result => (result, [EHttp attempt req])
      | inr err =>
          let backoff :=
            if Z.of_nat attempt <? Z.of_nat retry_count - 1
            then [ESleep (2 ^ Z.of_nat attempt)] else [] in
          let '(result, trace) :=
            request_loop rt req retry_count remaining' (S attempt) (Some err) in
          (result, EHttp attempt req :: backoff ++ trace)
      end
  end.



(** Attempts [a], [a + 1], ..., [a + k - 1], each followed by its backoff
    sleep of [2 ^ attempt] seconds. *)
Fixpoint backoff_trace (req : request) (a k : nat) : list effect :=
  match k with
  | O => []
  | S k' => EHttp a req :: ESleep (2 ^ Z.of_nat a) :: backoff_trace req (S a) k'
  end.

Section Serializer.

(** [json.dumps(value, sort_keys=...)], the standard library's
    serializer. *)
Variable json_dumps : bool → json → string.

(** The headers [_make_request] builds. *)
Definition request_headers (c : client) (rt : runtime) (data : option dict)
    : list (string * string) :=
  let headers :=
    [ ("Content-Type", "application/json");
      ("X-Api-Key", default "" (api_key c)) ] in
  if Py.truthy_str (api_secret c) && truthy_data data then
    let payload := json_dumps true (JDict (default [] data)) in
    let signature := _generate_signature c payload in
    headers ++ [ ("X-Api-Signature", signature);
                 ("X-Api-Timestamp", pretty (unix_time rt)) ]
  else headers.

(** The request every attempt of one [_make_request] call sends. *)
Definition build_request (c : client) (rt : runtime) (base method endpoint : string)
    (data : option dict) : request :=
  {| verb := if String.eqb (upper method) "GET" then GET else POST;
     url := rstrip_slash base +:+ endpoint;
     headers := request_headers c rt data;
     payload := data |}.

(** [_make_request] *)
Definition _make_request (c : client) (rt : runtime) (method endpoint : string)
    (data : option dict) (retry_count : nat) : outcome json * list effect :=
  match base_url c with
  | None => (Raise "'NoneType' object has no attribute 'rstrip'", [])
  | Some base =>
      let req := build_request c rt base method endpoint data in
      let '(result, trace) := request_loop rt req retry_count retry_count 0 None in
      (Return result, trace)
  end.

(** The default of the [retry_count] argument. *)
Definition default_retry_count : nat := 3.

(** [report_usage] *)
Definition report_usage (c : client) (rt : runtime) (license_key : string)
    (usage_data : list json) : outcome dict * list effect :=
  let endpoint := "/method/simbotix.api.metering.report_usage" in
  let data :=
    [ ("license_key", JStr license_key);
      ("usage_data", JStr (json_dumps false (JList usage_data))) ] in
  match _make_request c rt "POST" endpoint (Some data) default_retry_count with
  | (Raise message, trace) => (Raise message, trace)
  | (Return (JDict result), trace) =>
      (Return [ ("success", default (JBool false) (Dict.get "success" result));
                ("accepted", default (JNum 0) (Dict.get "accepted" result));
                ("message", default (JStr "") (Dict.get "message" result)) ],
       trace)
  | (Return _, trace) => (Raise "object has no attribute 'get'", trace)
  end.

End Serializer.

End CentralAPI.

(** ** The host's query primitive *)

(** SQL ordering of a nullable column: NULL sorts first. *)
Definition opt_le (a b : option Z) : Prop :=
  match a, b with
  | None, _ => True
  | Some _, None => False
  | Some x, Some y => x ≤ y
  end.

Global Instance opt_le_dec a b : Decision (opt_le a b).
Proof. destruct a, b; simpl; apply _. Defined.

(** [frappe.get_all(doctype, filters, order_by, limit)]: the rows that pass
    the filters, sorted on the ordering column (rows that tie come in the
    order the table enumerates them), cut at the limit. *)
Definition get_all {A} (table : gmap string A) (filters : A → bool)
    (order_by : A → option Z) (limit : option nat) : list (string * A) :=
  let rows :=
    merge_sort (λ x y, opt_le (order_by x.2) (order_by y.2))
      (map_to_list (filter (λ kv, filters kv.2 = true) table)) in
  match limit with
  | None => rows
  | Some n => take n rows
  end.

(** ** utils/metering.py: scheduler tasks *)

Module MeteringJobs.

(** One value of the [aggregated] dict. *)
Record group := {
  resource_type : string;
  quantity : Q;
  hour : Z;
  records : list string
}.

(** The key [f"{resource}_{hour}"]: the text of an hour has a fixed
    width, so the string determines the pair and the pair stands for
    it. *)
Abbreviation key := (string * Z)%type.

(** [aggregated[key] = f(aggregated[key])] *)
Fixpoint update (k : key) (f : group → group) (d : list (key * group))
    : list (key * group) :=
  match d with
  | [] => []
  | (k', g) :: d' =>
      if decide (k' = k) then (k', f g) :: d' else (k', g) :: update k f d'
  end.

(** The body of the grouping loop. *)
Definition add_record (aggregated : list (key * group))
    (record : string * UsageRecord.t) : list (key * group) :=
  let resource := UsageRecord.resource_type record.2 in
  let hr := truncate_hour (UsageRecord.timestamp record.2) in
  let k := (resource, hr) in
  let aggregated :=
    if bool_decide (k ∈ aggregated.*1) then aggregated
    else aggregated ++ [ (k, {| resource_type := resource; quantity := 0;
                                hour := hr; records := [] |}) ] in
  update k
    (λ g, {| resource_type := resource_type g;
             quantity := (quantity g + UsageRecord.quantity record.2)%Q;
             hour := hour g;
             records := records g ++ [record.1] |})
    aggregated.

(** The state of the marking loop: the table, [aggregated_count],
    [resources] and the [set_value] calls made so far. *)
Record marking := {
  table : gmap string UsageRecord.t;
  aggregated_count : nat;
  resources : list string;
  set_value_calls : list string
}.

(** The inner loop: one [set_value] per record name of the group. *)
Definition mark_record (at_ : Z) (data : group) (m : marking) (record_name : string)
    : marking :=
  {| table :=
       alter (UsageRecord.set_aggregated at_ (hour data) (hour data + hour_us))
             record_name (table m);
     aggregated_count := S (aggregated_count m);
     resources := resources m;
     set_value_calls := set_value_calls m ++ [record_name] |}.

(** The outer loop body. *)
Definition mark_group (at_ : Z) (m : marking) (item : key * group) : marking :=
  let m' := foldl (mark_record at_ item.2) m (records item.2) in
  {| table := table m'; aggregated_count := aggregated_count m';
     resources := resources m' ++ [resource_type item.2];
     set_value_calls := set_value_calls m' |}.

Record aggregate_result := {
  result_count : nat;
  result_resources : list string
}.

Definition unaggregated (r : UsageRecord.t) : bool := negb (UsageRecord.aggregated r).

(** The records [aggregate_usage] selects. *)
Definition aggregate_selection (s : Site) : list (string * UsageRecord.t) :=
  get_all (usage_records s) unaggregated
          (λ r, Some (UsageRecord.timestamp r)) None.

(** The [aggregated] dict built from the selection. *)
Definition aggregate_groups (s : Site) : list (key * group) :=
  foldl add_record [] (aggregate_selection s).

Definition aggregate_marking (s : Site) : marking :=
  foldl (mark_group (now s))
        {| table := usage_records s; aggregated_count := 0;
           resources := []; set_value_calls := [] |}
        (aggregate_groups s).

(** [aggregate_usage] *)
Definition aggregate_usage (s : Site) : Site * aggregate_result :=
  match aggregate_selection s with
  | [] => (s, {| result_count := 0; result_resources := [] |})
  | _ :: _ =>
      let m := aggregate_marking s in
      (with_usage_records (table m) s,
       {| result_count := aggregated_count m;
          result_resources :=
            elements (list_to_set (resources m) : gset string) |})
  end.

Record sync_result := {
  success : bool;
  synced_count : nat;
  message : json
}.

Definition unsynced (r : UsageRecord.t) : bool :=
  UsageRecord.aggregated r && negb (UsageRecord.synced r).

(** The batch limit of one sync run. *)
Definition batch_limit : nat := 1000.

(** The records [sync_usage_to_central] selects. *)
Definition sync_selection (s : Site) : list (string * UsageRecord.t) :=
  get_all (usage_records s) unsynced UsageRecord.period_start (Some batch_limit).

(** [str(dt) if dt else None]; the text of a datetime is its count. *)
Definition period_json (t : option Z) : json :=
  match t with
  | None => JNull
  | Some v => JStr (pretty v)
  end.

Definition usage_row (record : string * UsageRecord.t) : json :=
  JDict [ ("resource", JStr (UsageRecord.resource_type record.2));
          ("quantity", JNum (UsageRecord.quantity record.2));
          ("period_start", period_json (UsageRecord.period_start record.2));
          ("period_end", period_json (UsageRecord.period_end record.2)) ].

(** The loop that marks the reported records. *)
Definition mark_synced (at_ : Z) (t : gmap string UsageRecord.t)
    (records : list (string * UsageRecord.t)) : gmap string UsageRecord.t :=
  foldl (λ t record, alter (UsageRecord.set_synced at_) record.1 t) t records.

(** The inner [try]: stamp the settings, ignoring a failed save. *)
Definition touch_settings (s : Site) : Site :=
  with_settings
    (Settings.save (settings s)
       (Settings.set_last_usage_sync (Some (now s)) (settings s))).1
    s.

Section Serializer.

Variable json_dumps : bool → json → string.

(** [sync_usage_to_central] *)
Definition sync_usage_to_central (s : Site) (rt : CentralAPI.runtime)
    : Site * sync_result * list effect :=
  match Settings.license_key (settings s) with
  | None | Some "" =>
      (s, {| success := false; synced_count := 0;
             message := JStr "No license key configured" |}, [])
  | Some license_key =>
      let records := sync_selection s in
      match records with
      | [] =>
          (s, {| success := true; synced_count := 0;
                 message := JStr "No records to sync" |}, [])
      | _ :: _ =>
          let usage_data := map usage_row records in
          let client := CentralAPI.get_api_client s in
          match CentralAPI.report_usage json_dumps client rt license_key usage_data with
          | (Return result, trace) =>
              if Dict.truthy (default JNull (Dict.get "success" result)) then
                let s' :=
                  touch_settings
                    (with_usage_records
                       (mark_synced (now s) (usage_records s) records) s) in
                (s', {| success := true; synced_count := length records;
                        message :=
                          JStr ("Synced " +:+ pretty (length records)
                                +:+ " usage records") |}, trace)
              else
                (s, {| success := false; synced_count := 0;
                       message :=
                         default (JStr "Sync failed") (Dict.get "message" result) |},
                 trace)
          | (Raise error_msg, trace) =>
              (s, {| success := false; synced_count := 0;
                     message := JStr error_msg |},
               trace ++ [ELogError ("Usage sync failed: " +:+ error_msg)
                                   "Metering Sync Error"])
          end
      end
  end.

End Serializer.

(** The retention window in days. *)
Definition retention_days : Z := 30.

Definition expired (cutoff_date : Z) (r : UsageRecord.t) : bool :=
  UsageRecord.synced r && (UsageRecord.creation r <? cutoff_date).

(** [cleanup_old_records]: the table after [frappe.db.delete]. *)
Definition cleanup_old_records (s : Site) : Site :=
  let cutoff_date := add_days (today s) (- retention_days) in
  with_usage_records
    (filter (λ kv, expired cutoff_date kv.2 = false) (usage_records s)) s.

End MeteringJobs.

(** ** doctype/usage_alert/usage_alert.py *)

Module UsageAlert.

Import UsageAlertDoc.

(** [UsageAlert.calculate_overage_cost] *)
Definition calculate_overage_cost (resource : string) (overage_quantity : Q) : Q :=
  let rate_info :=
    default {| rate := 0; per := None; unit := None |} (OVERAGE_RATES !! resource) in
  let r := rate rate_info in
  let n := default 1%Q (per rate_info) in
  if Py.ltb 1 n then ((overage_quantity / n) * r)%Q
  else (overage_quantity * r)%Q.

Definition set_usage_percent (v : option Q) (a : t) : t :=
  {| resource_type := resource_type a; kind := kind a;
     threshold_percent := threshold_percent a;
     current_usage := current_usage a; limit_value := limit_value a;
     usage_percent := v;
     overage_amount := overage_amount a; overage_rate := overage_rate a;
     acknowledged := acknowledged a; acknowledged_by := acknowledged_by a;
     acknowledged_at := acknowledged_at a;
     notification_sent := notification_sent a;
     email_sent_to := email_sent_to a; creation := creation a |}.

Definition set_overage (amount : option Q) (r : option (Q * string)) (a : t) : t :=
  {| resource_type := resource_type a; kind := kind a;
     threshold_percent := threshold_percent a;
     current_usage := current_usage a; limit_value := limit_value a;
     usage_percent := usage_percent a;
     overage_amount := amount; overage_rate := r;
     acknowledged := acknowledged a; acknowledged_by := acknowledged_by a;
     acknowledged_at := acknowledged_at a;
     notification_sent := notification_sent a;
     email_sent_to := email_sent_to a; creation := creation a |}.

Definition set_current_usage (v : Q) (a : t) : t :=
  {| resource_type := resource_type a; kind := kind a;
     threshold_percent := threshold_percent a;
     current_usage := v; limit_value := limit_value a;
     usage_percent := usage_percent a;
     overage_amount := overage_amount a; overage_rate := overage_rate a;
     acknowledged := acknowledged a; acknowledged_by := acknowledged_by a;
     acknowledged_at := acknowledged_at a;
     notification_sent := notification_sent a;
     email_sent_to := email_sent_to a; creation := creation a |}.

Definition set_acknowledged (by_ : string) (at_ : Z) (a : t) : t :=
  {| resource_type := resource_type a; kind := kind a;
     threshold_percent := threshold_percent a;
     current_usage := current_usage a; limit_value := limit_value a;
     usage_percent := usage_percent a;
     overage_amount := overage_amount a; overage_rate := overage_rate a;
     acknowledged := true; acknowledged_by := Some by_;
     acknowledged_at := Some at_;
     notification_sent := notification_sent a;
     email_sent_to := email_sent_to a; creation := creation a |}.

Definition set_notified (to : option string) (a : t) : t :=
  {| resource_type := resource_type a; kind := kind a;
     threshold_percent := threshold_percent a;
     current_usage := current_usage a; limit_value := limit_value a;
     usage_percent := usage_percent a;
     overage_amount := overage_amount a; overage_rate := overage_rate a;
     acknowledged := acknowledged a; acknowledged_by := acknowledged_by a;
     acknowledged_at := acknowledged_at a;
     notification_sent := true;
     email_sent_to := to; creation := creation a |}.

(** [UsageAlert.validate] *)
Definition validate (a : t) : t :=
  let a1 :=
    if Py.truthy (current_usage a) && Py.truthy (limit_value a)
       && Py.ltb 0 (limit_value a)
    then set_usage_percent (Some ((current_usage a / limit_value a) * 100)%Q) a
    else a in
  if (bool_decide (kind a1 = Exceeded) || bool_decide (kind a1 = Blocked))
     && Py.truthy (current_usage a1) && Py.truthy (limit_value a1)
  then
    let overage := (current_usage a1 - limit_value a1)%Q in
    if Py.ltb 0 overage then
      let rate_info :=
        default {| rate := 0; per := None; unit := None |}
                (OVERAGE_RATES !! resource_type a1) in
      set_overage (Some (calculate_overage_cost (resource_type a1) overage))
                  (Some (rate rate_info, default "unit" (unit rate_info))) a1
    else a1
  else a1.

(** [doc.save()] on the alert called [name]: run [validate], write. *)
Definition save (name : string) (a : t) (s : Site) : Site :=
  with_usage_alerts (<[name := validate a]> (usage_alerts s)) s.

(** [UsageAlert.acknowledge] on the alert called [name]. *)
Definition acknowledge (s : Site) (name : string) (user : option string) : Site :=
  match usage_alerts s !! name with
  | None => s
  | Some a =>
      let by_ := if Py.truthy_str user then default "" user else session_user s in
      save name (set_acknowledged by_ (now s) a) s
  end.

Definition kind_text (k : alert_type) : string :=
  match k with
  | Warning => "Warning"
  | Exceeded => "Exceeded"
  | Blocked => "Blocked"
  end.

(** [UsageAlert.send_notification] on the alert called [name];
    [delivered] tells whether [frappe.sendmail] returns or raises. *)
Definition send_notification (s : Site) (name : string) (delivered : bool)
    : Site * list effect :=
  match usage_alerts s !! name with
  | None => (s, [])
  | Some a =>
      if negb (Settings.send_alert_emails (settings s)) then (s, [])
      else if negb (Py.truthy_str (Settings.alert_email (settings s))) then (s, [])
      else if notification_sent a then (s, [])
      else
        let subject :=
          "[Simbotix] Usage " +:+ kind_text (kind a) +:+ ": " +:+ resource_type a in
        let recipients := [default "" (Settings.alert_email (settings s))] in
        if delivered then
          (save name (set_notified (Settings.alert_email (settings s)) a) s,
           [ESendMail recipients subject])
        else
          (s, [ELogError "Failed to send usage alert email" "Usage Alert Email Error"])
  end.

(** The filters of the duplicate check in [create_alert]. *)
Definition open_today (s : Site) (resource : string) (k : alert_type) (a : t) : bool :=
  String.eqb (resource_type a) resource
  && bool_decide (kind a = k)
  && negb (acknowledged a)
  && (today s <=? creation a).

(** [frappe.get_all("Usage Alert", filters, limit=1)] *)
Definition existing (s : Site) (resource : string) (k : alert_type)
    : list (string * t) :=
  take 1 (map_to_list (filter (λ kv, open_today s resource k kv.2 = true)
                              (usage_alerts s))).

(** The name the host gives a new document: one no document has. *)
Definition new_name (s : Site) : string := fresh (dom (usage_alerts s)).

(** The document [create_alert] fills in after [frappe.new_doc]. *)
Definition new_alert (s : Site) (resource : string) (k : alert_type)
    (threshold current limit : Q) : t :=
  {| resource_type := resource; kind := k;
     threshold_percent := threshold;
     current_usage := current; limit_value := limit;
     usage_percent := None; overage_amount := None; overage_rate := None;
     acknowledged := false; acknowledged_by := None; acknowledged_at := None;
     notification_sent := false; email_sent_to := None;
     creation := now s |}.

(** [create_alert] *)
Definition create_alert (s : Site) (resource : string) (k : alert_type)
    (current limit : Q) (send_email delivered : bool)
    : Site * string * list effect :=
  let threshold :=
    if bool_decide (k = Warning) then Settings.warning_threshold (settings s)
    else Settings.hard_limit_threshold (settings s) in
  match existing s resource k with
  | (name, _) :: _ =>
      match usage_alerts s !! name with
      | Some alert => (save name (set_current_usage current alert) s, name, [])
      | None => (s, name, [])
      end
  | [] =>
      let alert := new_alert s resource k threshold current limit in
      let name := new_name s in
      let s' := save name alert s in
      if send_email then
        let '(s'', trace) := send_notification s' name delivered in
        (s'', name, trace)
      else (s', name, [])
  end.

(** Repeated [send_notification] calls on one alert, one per entry of
    [deliveries]. *)
Fixpoint send_notifications (s : Site) (name : string) (deliveries : list bool)
    : Site * list effect :=
  match deliveries with
  | [] => (s, [])
  | d :: rest =>
      let '(s', trace) := send_notification s name d in
      let '(s'', trace') := send_notifications s' name rest in
      (s'', trace ++ trace')
  end.

Definition is_mail (e : effect) : bool :=
  match e with
  | ESendMail _ _ => true
  | _ => false
  end.

End UsageAlert.

Module RetentionExample.

Definition synced_record (created : Z) : UsageRecord.t :=
  UsageRecord.set_synced created
    (UsageRecord.set_aggregated created (truncate_hour created)
       (truncate_hour created + hour_us)
       (Examples.record "api_calls" 1 created)).

(** Day 100: a synced record from day 65, an unsynced one from day 1 and
    a synced one from day 70 (the cutoff). *)
Definition site : Site :=
  Examples.site Settings.defaults None
    [ ("UR-old-synced", synced_record (65 * day_us));
      ("UR-old-unsynced", Examples.record "api_calls" 1 (1 * day_us));
      ("UR-recent-synced", synced_record (70 * day_us)) ].

End RetentionExample.

Module SyncExample.

(** A serializer for the examples; the properties hold for any. *)
Definition json_dumps (sort_keys : bool) (v : json) : string := "{}".

Definition keyed_settings : Settings.t :=
  {| Settings.central_api_url := Some "https://simbotix.com/api/";
     Settings.license_key := Some "LIC-1"; Settings.api_key := Some "key";
     Settings.api_secret := Some "test-api-secret";
     Settings.warning_threshold := 80; Settings.hard_limit_threshold := 100;
     Settings.sync_interval_hours := 1; Settings.cache_ttl_seconds := 300;
     Settings.block_on_exceeded := false; Settings.use_redis_cache := true;
     Settings.send_alert_emails := true;
     Settings.alert_email := Some "admin@example.com";
     Settings.last_usage_sync := None |}.

Definition aggregated_record (resource : string) (q : Q) (ts : Z) : UsageRecord.t :=
  UsageRecord.set_aggregated (ts + hour_us) (truncate_hour ts)
    (truncate_hour ts + hour_us) (Examples.record resource q ts).

(** Two aggregated records waiting for the sync and one raw record. *)
Definition site : Site :=
  Examples.site keyed_settings (Some Examples.builder_license)
    [ ("UR-1", aggregated_record "api_calls" 12 (99 * day_us + 100));
      ("UR-2", aggregated_record "emails" 1 (99 * day_us + hour_us));
      ("UR-3", Examples.record "emails" 4 (100 * day_us)) ].

(** The central service accepts the report at the first attempt. *)
Definition accepting : CentralAPI.runtime :=
  {| CentralAPI.net := λ _,
       CentralAPI.Response 200 "ok"
         (inr [("message", JDict [("success", JBool true); ("accepted", JNum 2)])]);
     CentralAPI.unix_time := 1700000000 |}.

(** The central service answers every attempt with a server error. *)
Definition failing : CentralAPI.runtime :=
  {| CentralAPI.net := λ _, CentralAPI.Response 500 "Server error" (inl CentralAPI.JSONDecodeError);
     CentralAPI.unix_time := 1700000000 |}.

End SyncExample.

Module RetryExample.

Definition client : CentralAPI.client :=
  CentralAPI.get_api_client SyncExample.site.


Definition data : option dict := Some [("license_key", JStr "LIC-1")].

Definition request (rt : CentralAPI.runtime) : request :=
  CentralAPI.build_request SyncExample.json_dumps client rt
    "https://simbotix.com/api/" "POST" "/method/ping" data.

End RetryExample.

(** ** Hourly groups, as the specification describes them *)

Module HourlyGroups.

(** The bucket of a record: its resource kind and its timestamp truncated
    to the hour. *)
Definition key_of (record : string * UsageRecord.t) : MeteringJobs.key :=
  (UsageRecord.resource_type record.2,
   truncate_hour (UsageRecord.timestamp record.2)).

(** The records of a bucket, in the order of the selection. *)
Definition members (records : list (string * UsageRecord.t)) (k : MeteringJobs.key)
    : list (string * UsageRecord.t) :=
  filter (λ record, key_of record = k) records.

(** The group of a bucket: its records' names and the sum of their
    quantities. *)
Definition group_of (records : list (string * UsageRecord.t)) (k : MeteringJobs.key)
    : MeteringJobs.group :=
  {| MeteringJobs.resource_type := k.1;
     MeteringJobs.quantity :=
       foldl (λ q record, (q + UsageRecord.quantity record.2)%Q) 0%Q (members records k);
     MeteringJobs.hour := k.2;
     MeteringJobs.records := (members records k).*1 |}.

(** What the body of the grouping loop adds to the record's group. *)
Definition extend (record : string * UsageRecord.t) (g : MeteringJobs.group)
    : MeteringJobs.group :=
  {| MeteringJobs.resource_type := MeteringJobs.resource_type g;
     MeteringJobs.quantity := (MeteringJobs.quantity g + UsageRecord.quantity record.2)%Q;
     MeteringJobs.hour := MeteringJobs.hour g;
     MeteringJobs.records := MeteringJobs.records g ++ [record.1] |}.

(** The stamp aggregation puts on a record. *)
Definition stamp (at_ : Z) (r : UsageRecord.t) : UsageRecord.t :=
  UsageRecord.set_aggregated at_
    (truncate_hour (UsageRecord.timestamp r))
    (truncate_hour (UsageRecord.timestamp r) + hour_us) r.

(** The [set_value] calls a list of groups leads to: each record name
    with the hour written to it. *)
Definition writes (groups : list (MeteringJobs.key * MeteringJobs.group))
    : list (string * Z) :=
  concat (map (λ item : MeteringJobs.key * MeteringJobs.group,
                 map (λ n, (n, MeteringJobs.hour item.2)) (MeteringJobs.records item.2))
              groups).

(** One [set_value] call of the marking loop. *)
Definition write (at_ : Z) (t : gmap string UsageRecord.t) (w : string * Z)
    : gmap string UsageRecord.t :=
  alter (UsageRecord.set_aggregated at_ w.2 (w.2 + hour_us)) w.1 t.

(** [aggregated.get(key)] *)
Fixpoint find (k : MeteringJobs.key)
    (groups : list (MeteringJobs.key * MeteringJobs.group))
    : option MeteringJobs.group :=
  match groups with
  | [] => None
  | (k', g) :: rest => if decide (k' = k) then Some g else find k rest
  end.

End HourlyGroups.

Module AggregateExample.

Definition site : Site :=
  Examples.site Settings.defaults (Some Examples.builder_license)
    [ ("UR-1", Examples.record "api_calls" 5 (99 * day_us + 100));
      ("UR-2", Examples.record "api_calls" 7 (99 * day_us + 200));
      ("UR-3", Examples.record "emails" 1 (99 * day_us + 300));
      ("UR-4", Examples.record "api_calls" 2 (99 * day_us + hour_us + 5));
      ("UR-5", SyncExample.aggregated_record "emails" 9 (98 * day_us)) ].

End AggregateExample.

Module AlertExample.

(** A site that sends alert emails and has no alert yet. *)
Definition site : Site :=
  Examples.site SyncExample.keyed_settings (Some Examples.builder_license) [].

(** The site after a first warning about API calls. *)
Definition warned : Site :=
  (UsageAlert.create_alert site "api_calls" UsageAlertDoc.Warning 8000 10000 true true).1.1.


End AlertExample.

(** ** Measures used in the further properties *)

Module Measures.

(** The order of the limit states: ok < warning < exceeded. *)
Definition rank (st : Metering.LimitStatus) : nat :=
  match st with
  | Metering.ok => 0
  | Metering.warning => 1
  | Metering.exceeded => 2
  end.

(** The seconds a trace spends in [time.sleep]. *)
Fixpoint total_sleep (trace : list effect) : Z :=
  match trace with
  | [] => 0
  | ESleep seconds :: rest => seconds + total_sleep rest
  | _ :: rest => total_sleep rest
  end.

End Measures.

(** ** utils/metering.py: recording usage *)

Module Recording.

(** The document [_create_usage_record] fills in.  The two optional
    reference fields ([doctype_ref], [docname_ref]) are not part of the
    record of this development. *)
Definition new_record (s : Site) (resource : string) (quantity : Q)
    (app_name : option string) : UsageRecord.t :=
  {| UsageRecord.resource_type := resource;
     UsageRecord.quantity := quantity;
     UsageRecord.timestamp := now s;
     UsageRecord.app_name := app_name;
     UsageRecord.aggregated := false; UsageRecord.aggregated_at := None;
     UsageRecord.period_start := None; UsageRecord.period_end := None;
     UsageRecord.synced := false; UsageRecord.synced_at := None;
     UsageRecord.creation := now s |}.

(** [UsageRecord.validate]: the timestamp is set already; a negative
    quantity throws. *)
Definition validate (r : UsageRecord.t) : string + UsageRecord.t :=
  if Py.ltb (UsageRecord.quantity r) 0
  then inl "Quantity must be a non-negative number"
  else inr r.

(** The name the host gives a new usage record. *)
Definition new_name (s : Site) : string := fresh (dom (usage_records s)).

(** [_create_usage_record]: insert, or log the exception. *)
Definition _create_usage_record (s : Site) (resource : string) (quantity : Q)
    (app_name : option string) : Site * list effect :=
  match validate (new_record s resource quantity app_name) with
  | inr r => (with_usage_records (<[new_name s := r]> (usage_records s)) s, [])
  | inl e =>
      (s, [ELogError ("Failed to create usage record: " +:+ e)
                     "Metering Record Error"])
  end.

(** [record_usage]; [enqueued] tells whether [frappe.enqueue] returns or
    raises.  The queued job is run at once, as the source asks for under
    test ([now=frappe.flags.in_test]); the logged message is kept without
    the text of the exception. *)
Definition record_usage (s : Site) (resource : string) (quantity : Q)
    (app_name : option string) (enqueued : bool) : Site * list effect :=
  if Qle_bool quantity 0 then (s, [])
  else if enqueued then _create_usage_record s resource quantity app_name
  else
    let '(s', trace) := _create_usage_record s resource quantity app_name in
    (s', ELogError "Failed to enqueue usage record" "Metering Enqueue Error" :: trace).

(** One row of the GROUP BY of [get_all_usage]. *)
Definition add_row (start : Z) (r : UsageRecord.t) (usage : gmap string Q)
    : gmap string Q :=
  if start <=? date_of (UsageRecord.timestamp r)
  then <[UsageRecord.resource_type r :=
           (default 0%Q (usage !! UsageRecord.resource_type r)
            + UsageRecord.quantity r)%Q]> usage
  else usage.

(** [if resource not in usage: usage[resource] = 0] *)
Definition fill_missing (usage : gmap string Q) (resource : string) : gmap string Q :=
  match usage !! resource with
  | Some _ => usage
  | None => <[resource := 0%Q]> usage
  end.

(** [get_all_usage] *)
Definition get_all_usage (s : Site) : gmap string Q :=
  let result := map_fold (λ _ r usage, add_row (month_start s) r usage) ∅ (usage_records s) in
  foldl fill_missing result Metering.all_resources.

(** The wrapper [requires_quota(resource, quantity)] puts around [func]:
    [func] changes the site and returns or raises. *)
Definition requires_quota {A} (resource : string) (quantity : Q)
    (func : Site → Site * outcome A) (s : Site) (enqueued : bool)
    : Site * outcome A * list effect :=
  if bool_decide (Metering.check_limits s resource = Metering.exceeded)
     && Settings.block_on_exceeded (settings s)
  then (s, Raise ("Quota exceeded for " +:+ resource
                  +:+ ". Please upgrade your plan or contact support."), [])
  else
    match func s with
    | (s1, Raise e) => (s1, Raise e, [])
    | (s1, Return result) =>
        let '(s2, trace) := record_usage s1 resource quantity None enqueued in
        (s2, Return result, trace)
    end.



End Recording.

Module UsageSum.

(** Whether a record counts towards this month's usage of a resource: the
    WHERE clause of [get_current_usage]. *)
Definition counts (s : Site) (resource : string) (r : UsageRecord.t) : bool :=
  String.eqb (UsageRecord.resource_type r) resource
  && (month_start s <=? date_of (UsageRecord.timestamp r)).

(** [get_current_usage] as a fold over the rows of the table. *)
Definition sum_rows (start : Z) (resource : string)
    (rows : list (string * UsageRecord.t)) : Q :=
  foldr (uncurry (λ (_ : string) r acc,
                    if String.eqb (UsageRecord.resource_type r) resource
                       && (start <=? date_of (UsageRecord.timestamp r))
                    then (acc + UsageRecord.quantity r)%Q else acc))
        0%Q rows.

(** The GROUP BY of [get_all_usage] as a fold over the rows of the table. *)
Definition group_rows (start : Z) (rows : list (string * UsageRecord.t))
    : gmap string Q :=
  foldr (uncurry (λ (_ : string) r usage, Recording.add_row start r usage)) ∅ rows.

(** What one row of the table, present or not, adds to the usage of a
    resource. *)
Definition share (s : Site) (resource : string) (row : option UsageRecord.t) : Q :=
  match row with
  | Some r => if counts s resource r then UsageRecord.quantity r else 0%Q
  | None => 0%Q
  end.

End UsageSum.

Module QuotaExample.

(** A site that blocks on exceeded quota. *)
Definition blocking_settings : Settings.t :=
  {| Settings.central_api_url := Some "https://simbotix.com/api";
     Settings.license_key := None; Settings.api_key := None;
     Settings.api_secret := None;
     Settings.warning_threshold := 80; Settings.hard_limit_threshold := 100;
     Settings.sync_interval_hours := 1; Settings.cache_ttl_seconds := 300;
     Settings.block_on_exceeded := true; Settings.use_redis_cache := true;
     Settings.send_alert_emails := false; Settings.alert_email := None;
     Settings.last_usage_sync := None |}.

(** 10000 of 10000 API calls used. *)
Definition at_limit : Site :=
  Examples.site blocking_settings (Some Examples.builder_license)
    [ ("UR-1", Examples.record "api_calls" 10000 (99 * day_us)) ].

(** The same usage with no license at all. *)
Definition unlicensed : Site :=
  Examples.site blocking_settings None
    [ ("UR-1", Examples.record "api_calls" 10000 (99 * day_us)) ].


(** An endpoint that answers 42 and leaves the site alone. *)
Definition endpoint (s : Site) : Site * outcome Z := (s, Return 42).

End QuotaExample.

(** ** utils/central_api.py: the calls built on [_make_request] *)

Module CentralCalls.

(** The central service answered the attempt with HTTP 200 and a JSON
    object. *)
Definition answered (reply : CentralAPI.http_reply) : bool :=
  match reply with
  | CentralAPI.Response status_code _ (inr _) => status_code =? 200
  | _ => false
  end.

(** The central service accepted the call: an HTTP 200 whose payload, the
    body's [message] or else the body itself, is an object with a true
    [success]. *)
Definition accepted (reply : CentralAPI.http_reply) : bool :=
  match reply with
  | CentralAPI.Response status_code _ (inr body) =>
      (status_code =? 200)
      && match default (JDict body) (Dict.get "message" body) with
         | JDict payload => Dict.truthy (default JNull (Dict.get "success" payload))
         | _ => false
         end
  | _ => false
  end.

(** The attempt is one the retry loop goes on from. *)
Definition retried (reply : CentralAPI.http_reply) : bool :=
  match CentralAPI.attempt_once reply with
  | inl _ => false
  | inr _ => true
  end.

Section Serializer.

Variable json_dumps : bool → json → string.

(** [validate_license] *)
Definition validate_license (c : CentralAPI.client) (rt : CentralAPI.runtime)
    (license_key : string) : outcome dict * list effect :=
  let endpoint := "/method/simbotix.api.licensing.validate_license" in
  let data := [ ("license_key", JStr license_key) ] in
  match CentralAPI._make_request json_dumps c rt "POST" endpoint (Some data)
          CentralAPI.default_retry_count with
  | (Raise message, trace) => (Raise message, trace)
  | (Return (JDict result), trace) =>
      if Dict.truthy (default JNull (Dict.get "success" result)) then
        (Return [ ("valid", JBool true);
                  ("license", default (JDict []) (Dict.get "license" result));
                  ("message", default (JStr "License is valid")
                                      (Dict.get "message" result)) ],
         trace)
      else
        (Return [ ("valid", JBool false);
                  ("license", JNull);
                  ("message", default (JStr "License validation failed")
                                      (Dict.get "message" result)) ],
         trace)
  | (Return _, trace) => (Raise "object has no attribute 'get'", trace)
  end.

(** [get_license_details] *)
Definition get_license_details (c : CentralAPI.client) (rt : CentralAPI.runtime)
    (license_key : string) : outcome json * list effect :=
  let endpoint := "/method/simbotix.api.licensing.get_license_details" in
  let data := [ ("license_key", JStr license_key) ] in
  match CentralAPI._make_request json_dumps c rt "POST" endpoint (Some data)
          CentralAPI.default_retry_count with
  | (Raise message, trace) => (Raise message, trace)
  | (Return (JDict result), trace) =>
      if Dict.truthy (default JNull (Dict.get "success" result)) then
        (Return (default (JDict []) (Dict.get "license" result)), trace)
      else (Return (JDict []), trace)
  | (Return _, trace) => (Raise "object has no attribute 'get'", trace)
  end.

(** [heartbeat] *)
Definition heartbeat (c : CentralAPI.client) (rt : CentralAPI.runtime)
    (license_key : string) (site_info : dict) : outcome dict * list effect :=
  let endpoint := "/method/simbotix.api.heartbeat.ping" in
  let data :=
    [ ("license_key", JStr license_key);
      ("site_info", JStr (json_dumps false (JDict site_info))) ] in
  match CentralAPI._make_request json_dumps c rt "POST" endpoint (Some data)
          CentralAPI.default_retry_count with
  | (Raise message, trace) => (Raise message, trace)
  | (Return (JDict result), trace) =>
      (Return [ ("acknowledged",
                 default (JBool false) (Dict.get "acknowledged" result));
                ("commands", default (JList []) (Dict.get "commands" result)) ],
       trace)
  | (Return _, trace) => (Raise "object has no attribute 'get'", trace)
  end.

End Serializer.

End CentralCalls.

(** ** utils/licensing.py: the license gate *)

Module LicenseGate.

(** What the gate raises. *)
Inductive error :=
| PermissionError (message : string)
| TypeError.

Definition is_text (x : string) (v : json) : bool :=
  match v with
  | JStr text => String.eqb text x
  | _ => false
  end.

(** [x in container] for a string [x]: an element of a list, a key of a
    dict, a substring of a string; [None] is the [TypeError] any other
    value raises. *)
Definition contains (x : string) (container : json) : option bool :=
  match container with
  | JList l => Some (existsb (is_text x) l)
  | JDict d => Some (existsb (λ item : string * json, String.eqb item.1 x) d)
  | JStr text => Some (bool_decide (is_Some (String.index 0 x text)))
  | JNull | JBool _ | JNum _ => None
  end.

(** [bool(license_doc)] for the optional dict [get_license] returns. *)
Definition present (license_doc : option dict) : option dict :=
  match license_doc with
  | Some (item :: rest) => Some (item :: rest)
  | _ => None
  end.

Section Parser.

(** [json.loads]: [None] when it raises [JSONDecodeError]. *)
Variable json_loads : string → option json.

(** [str(value)], as an f-string renders a value. *)
Variable py_str : json → string.

(** [_parse_json(value, default)] on any value. *)
Definition _parse_json (value fallback : json) : json :=
  match value with
  | JNull => fallback
  | JList _ | JDict _ => value
  | JStr text => default fallback (json_loads text)
  | JBool _ | JNum _ => fallback
  end.

(** The block of [is_licensed] under [if feature:] and [if app:]: whether
    [x] is in the field [key] of the license. *)
Definition listed (license_doc : dict) (key : string) (x : option string)
    : option bool :=
  if Py.truthy_str x then
    let enabled := default (JList []) (Dict.get key license_doc) in
    let enabled :=
      match enabled with
      | JStr text => default (JList []) (json_loads text)
      | _ => enabled
      end in
    contains (default "" x) enabled
  else Some true.

(** [is_licensed] *)
Definition is_licensed (license_doc : option dict) (feature app : option string)
    : error + bool :=
  match present license_doc with
  | None => inr false
  | Some license_doc =>
      if negb (Dict.truthy (default JNull (Dict.get "is_valid" license_doc)))
      then inr false
      else
        match listed license_doc "enabled_features" feature with
        | None => inl TypeError
        | Some false => inr false
        | Some true =>
            match listed license_doc "enabled_apps" app with
            | None => inl TypeError
            | Some false => inr false
            | Some true => inr true
            end
        end
  end.

(** The same block in [_validate_license_requirement], which parses with
    [_parse_json]. *)
Definition required (license_doc : dict) (key : string) (x : option string)
    : option bool :=
  if Py.truthy_str x then
    let enabled := default (JList []) (Dict.get key license_doc) in
    let enabled :=
      match enabled with
      | JStr _ => _parse_json enabled (JList [])
      | _ => enabled
      end in
    contains (default "" x) enabled
  else Some true.

(** [_validate_license_requirement] *)
Definition _validate_license_requirement (license_doc : option dict)
    (feature app : option string) : error + unit :=
  match present license_doc with
  | None =>
      inl (PermissionError
             "No valid license found. Please configure a license in Simbotix Core Settings.")
  | Some license_doc =>
      if negb (Dict.truthy (default JNull (Dict.get "is_valid" license_doc)))
      then
        let status := default (JStr "Unknown") (Dict.get "status" license_doc) in
        inl (PermissionError
               ("License is not active. Current status: " +:+ py_str status))
      else
        let tier := default (JStr "Unknown") (Dict.get "tier" license_doc) in
        match required license_doc "enabled_features" feature with
        | None => inl TypeError
        | Some false =>
            inl (PermissionError
                   ("Feature '" +:+ default "" feature
                    +:+ "' is not included in your " +:+ py_str tier
                    +:+ " plan. Please upgrade to access this feature."))
        | Some true =>
            match required license_doc "enabled_apps" app with
            | None => inl TypeError
            | Some false =>
                inl (PermissionError
                       ("App '" +:+ default "" app
                        +:+ "' is not included in your " +:+ py_str tier
                        +:+ " plan. Please upgrade to access this app."))
            | Some true => inr tt
            end
        end
  end.

(** The wrapper [requires_license(feature, app)] puts around [func],
    which changes a state and gives a result; [get_license] reads the
    license off the state. *)
Definition requires_license {S R : Type} (get_license : S → option dict)
    (feature app : option string) (func : S → S * R) (s : S)
    : S * (error + R) :=
  match _validate_license_requirement (get_license s) feature app with
  | inl e => (s, inl e)
  | inr _ => let '(s', result) := func s in (s', inr result)
  end.

End Parser.

(** A license as [get_license] builds it from a stored document. *)
Definition example_license : dict :=
  [ ("license_key", JStr "LIC-1");
    ("tier", JStr "Builder");
    ("status", JStr "Active");
    ("is_valid", JBool true);
    ("enabled_features", JList [JStr "webhooks"; JStr "ai_agents"]);
    ("enabled_apps", JList [JStr "flowz"]) ].

(** A parser that knows the empty array only. *)
Definition example_loads (text : string) : option json :=
  if String.eqb text "[]" then Some (JList []) else None.

Definition example_str (v : json) : string :=
  match v with
  | JStr text => text
  | _ => "None"
  end.

End LicenseGate.

(** ** api/licensing.py: the alert endpoints *)

Module AlertsAPI.

(** [acknowledge_alert] *)
Definition acknowledge_alert (s : Site) (alert_name : string) : Site * dict :=
  match usage_alerts s !! alert_name with
  | None =>
      (s, [ ("success", JBool false); ("message", JStr "Alert not found") ])
  | Some _ =>
      (UsageAlert.acknowledge s alert_name None,
       [ ("success", JBool true); ("message", JStr "Alert acknowledged") ])
  end.

(** The filter [acknowledged = 0]. *)
Definition pending (a : UsageAlertDoc.t) : bool := negb (UsageAlertDoc.acknowledged a).

Record pending_alerts := {
  success : bool;
  alerts : list (string * UsageAlertDoc.t);
  count : nat
}.

(** [get_pending_alerts]: the rows ordered by [creation desc]. *)
Definition get_pending_alerts (s : Site) : pending_alerts :=
  let alerts :=
    get_all (usage_alerts s) pending (λ a, Some (- UsageAlertDoc.creation a)) None in
  {| success := true; alerts := alerts; count := length alerts |}.

End AlertsAPI.

(** ** utils/metering.py: the hourly limit check *)

Module LimitsJob.

Record limits_result := {
  alerts_created : nat;
  resources_checked : nat
}.

(** The body of the loop over [limits.items()]; [settings] was read before
    the loop, [delivered] tells for each resource whether the mail of its
    alert goes out. *)
Definition check_one (settings : Settings.t) (delivered : string → bool)
    (acc : Site * limits_result * list effect) (item : string * Q)
    : Site * limits_result * list effect :=
  let '(s, counts, trace) := acc in
  let resource := item.1 in
  let limit := item.2 in
  let checked := S (resources_checked counts) in
  if Qeq_bool limit 0
  then (s, {| alerts_created := alerts_created counts;
              resources_checked := checked |}, trace)
  else
    let current := Metering.get_current_usage s resource in
    let percentage := Metering.percentage current limit in
    if Py.geb percentage (Settings.hard_limit_threshold settings) then
      let '(s', _, sent) :=
        UsageAlert.create_alert s resource UsageAlertDoc.Exceeded current limit
          true (delivered resource) in
      (s', {| alerts_created := S (alerts_created counts);
              resources_checked := checked |}, trace ++ sent)
    else if Py.geb percentage (Settings.warning_threshold settings) then
      let '(s', _, sent) :=
        UsageAlert.create_alert s resource UsageAlertDoc.Warning current limit
          true (delivered resource) in
      (s', {| alerts_created := S (alerts_created counts);
              resources_checked := checked |}, trace ++ sent)
    else (s, {| alerts_created := alerts_created counts;
                resources_checked := checked |}, trace).

(** [check_all_limits]; the limits are gone through in the order the
    mapping enumerates them. *)
Definition check_all_limits (s : Site) (delivered : string → bool)
    : Site * limits_result * list effect :=
  match Licensing.get_license s with
  | None => (s, {| alerts_created := 0; resources_checked := 0 |}, [])
  | Some license_doc =>
      foldl (check_one (settings s) delivered)
            (s, {| alerts_created := 0; resources_checked := 0 |}, [])
            (map_to_list (Licensing.resource_limits license_doc))
  end.

(** What the body of the loop decides for one item: no alert, or the kind
    of the alert to create. *)
Definition verdict (settings : Settings.t) (s : Site) (item : string * Q)
    : option UsageAlertDoc.alert_type :=
  if Qeq_bool item.2 0 then None
  else
    let percentage :=
      Metering.percentage (Metering.get_current_usage s item.1) item.2 in
    if Py.geb percentage (Settings.hard_limit_threshold settings)
    then Some UsageAlertDoc.Exceeded
    else if Py.geb percentage (Settings.warning_threshold settings)
    then Some UsageAlertDoc.Warning
    else None.

(** The alert a limit state calls for. *)
Definition alert_for (status : Metering.LimitStatus) : option UsageAlertDoc.alert_type :=
  match status with
  | Metering.ok => None
  | Metering.warning => Some UsageAlertDoc.Warning
  | Metering.exceeded => Some UsageAlertDoc.Exceeded
  end.

(** The mails in a trace. *)
Definition mails (trace : list effect) : nat :=
  length (filter (λ e, UsageAlert.is_mail e = true) trace).

(** The site has an unacknowledged alert of the kind for the resource,
    created today. *)
Definition has_open (s : Site) (resource : string) (k : UsageAlertDoc.alert_type)
    : Prop :=
  ∃ n a, usage_alerts s !! n = Some a
         ∧ UsageAlert.open_today s resource k a = true.

End LimitsJob.

Module LimitsExample.

(** 9000 of 10000 API calls and 600 of 500 emails used this month. *)
Definition site : Site :=
  Examples.site Settings.defaults (Some Examples.builder_license)
    [ ("UR-1", Examples.record "api_calls" 9000 (99 * day_us));
      ("UR-2", Examples.record "emails" 600 (99 * day_us)) ].

End LimitsExample.

(** ** api/licensing.py: the usage endpoints *)

Module UsageAPI.




Record estimate := {
  overages : gmap string Metering.overage;
  total_estimated_cost : Q
}.

(** The body of the loop of [get_overage_estimate] on [estimates] and
    [total_overage]. *)
Definition add_estimate (s : Site) (resource : string)
    (acc : gmap string Metering.overage * Q) : gmap string Metering.overage * Q :=
  let overage := Metering.calculate_overage s resource in
  if Py.ltb 0 (Metering.exceeded_by overage)
  then (<[resource := overage]> acc.1, (acc.2 + Metering.overage_cost overage)%Q)
  else acc.

(** [get_overage_estimate]: the overages and their total, [None] for the
    answer without a license. *)
Definition get_overage_estimate (s : Site) : option estimate :=
  match Licensing.get_license s with
  | None => None
  | Some _ =>
      let usage := Recording.get_all_usage s in
      let result :=
        map_fold (λ resource (_ : Q) acc, add_estimate s resource acc) (∅, 0%Q) usage in
      Some {| overages := result.1;
              total_estimated_cost := Py.round result.2 2 |}
  end.

End UsageAPI.

(** ** doctype/app_license/app_license.py: tier defaults *)

Module Tiers.

Definition limits_of (storage bandwidth database api uploads executions emails
    ai webhooks : Q) : gmap string Q :=
  list_to_map
    [ ("storage_gb", storage); ("bandwidth_gb", bandwidth);
      ("database_gb", database); ("api_calls", api);
      ("file_uploads_gb", uploads); ("executions", executions);
      ("emails", emails); ("ai_queries", ai); ("webhooks", webhooks) ].

(** The [tier_limits] dict; [None] is the Python [None] of the regular
    tier names. *)
Definition tier_limits : gmap string (option (gmap string Q)) :=
  list_to_map
    [ ("Trial", Some (limits_of 1 10 (1 # 2) 5000 1 1000 100 0 2));
      ("Pioneer", Some (limits_of 10 100 2 50000 5 10000 1000 0 5));
      ("Builder", Some (limits_of 30 300 5 200000 15 50000 5000 1000 20));
      ("Visionary", Some (limits_of 75 750 15 1000000 50 0 20000 5000 0));
      ("Legend", Some (limits_of 150 0 50 0 0 0 0 20000 0));
      ("Starter", None);
      ("Growth", None);
      ("Scale", None);
      ("Enterprise", None) ].

Definition tier_mapping : gmap string string :=
  list_to_map
    [ ("Starter", "Pioneer"); ("Growth", "Builder");
      ("Scale", "Visionary"); ("Enterprise", "Legend") ].

(** [get_tier_limits]; the result is [None] when the dict holds [None]
    for the tier. *)
Definition get_tier_limits (tier : string) : option (gmap string Q) :=
  let tier := default tier (tier_mapping !! tier) in
  default (default None (tier_limits !! "Trial")) (tier_limits !! tier).

(** The founding tiers, from the smallest to the largest. *)
Definition founding : list string :=
  [ "Trial"; "Pioneer"; "Builder"; "Visionary"; "Legend" ].

End Tiers.

(** ** doctype/app_license/app_license.py: the license document *)

Module LicenseDoc.

(** The fields of an App License the controller reads.  A JSON field
    holds [JNull] when unset, the stored text as [JStr], or a value
    assigned in memory. *)
Record t := {
  license_key : string;
  customer_id : json;
  customer_name : json;
  tier : string;
  status : string;
  expiry_date : option Z;
  resource_limits : json;
  enabled_features : json;
  enabled_apps : json
}.

Definition set_resource_limits (v : json) (doc : t) : t :=
  {| license_key := license_key doc; customer_id := customer_id doc;
     customer_name := customer_name doc; tier := tier doc; status := status doc;
     expiry_date := expiry_date doc;
     resource_limits := v;
     enabled_features := enabled_features doc;
     enabled_apps := enabled_apps doc |}.

(** What [validate] throws. *)
Inductive validation_error :=
| InvalidLimits        (* "Invalid resource_limits JSON: ..." *)
| FeaturesNotArray     (* "enabled_features must be a JSON array" *)
| InvalidFeatures      (* "Invalid enabled_features JSON: ..." *)
| AppsNotArray         (* "enabled_apps must be a JSON array" *)
| InvalidApps.         (* "Invalid enabled_apps JSON: ..." *)

Definition expected_keys : list string :=
  [ "storage_gb"; "bandwidth_gb"; "database_gb"; "api_calls";
    "file_uploads_gb"; "executions"; "emails"; "ai_queries"; "webhooks" ].

Definition is_list (v : json) : bool :=
  match v with
  | JList _ => true
  | _ => false
  end.

(** [if key not in limits: limits[key] = 0]; [None] is the [TypeError] of
    a membership test or an item assignment the value does not
    support. *)
Definition fill_key (limits : option json) (key : string) : option json :=
  match limits with
  | None => None
  | Some limits =>
      match LicenseGate.contains key limits with
      | None => None
      | Some true => Some limits
      | Some false =>
          match limits with
          | JDict d => Some (JDict (d ++ [(key, JNum 0)]))
          | _ => None
          end
      end
  end.

Section Json.

(** [json.loads]: [None] when it raises [JSONDecodeError]. *)
Variable json_loads : string → option json.

(** [json.dumps(value, sort_keys=...)] *)
Variable json_dumps : bool → json → string.

(** [json.loads(v) if isinstance(v, str) else v] *)
Definition load_field (v : json) : option json :=
  match v with
  | JStr text => json_loads text
  | _ => Some v
  end.

(** The check [validate] makes on [enabled_features] and on
    [enabled_apps]. *)
Definition check_array (v : json) (not_array invalid : validation_error)
    : option validation_error :=
  if Dict.truthy v then
    match load_field v with
    | None => Some invalid
    | Some values => if is_list values then None else Some not_array
    end
  else None.

(** [AppLicense.validate]: [inl] is the [frappe.throw]. *)
Definition validate (doc : t) : validation_error + t :=
  let checked :=
    if Dict.truthy (resource_limits doc) then
      match foldl fill_key (load_field (resource_limits doc)) expected_keys with
      | None => inl InvalidLimits
      | Some limits =>
          inr (set_resource_limits (JStr (json_dumps false limits)) doc)
      end
    else inr doc in
  match checked with
  | inl e => inl e
  | inr doc =>
      match check_array (enabled_features doc) FeaturesNotArray InvalidFeatures with
      | Some e => inl e
      | None =>
          match check_array (enabled_apps doc) AppsNotArray InvalidApps with
          | Some e => inl e
          | None => inr doc
          end
      end
  end.

(** [AppLicense.is_valid] on the day [today]. *)
Definition is_valid (today : Z) (doc : t) : bool :=
  if negb (bool_decide (status doc ∈ [ "Active"; "Trial" ])) then false
  else
    match expiry_date doc with
    | Some expiry => if expiry <? today then false else true
    | None => true
    end.

(** [AppLicense.get_resource_limit]: the value of the mapping, as it
    is. *)
Definition get_resource_limit (doc : t) (resource : string) : outcome json :=
  if negb (Dict.truthy (resource_limits doc)) then Return (JNum 0)
  else
    match load_field (resource_limits doc) with
    | None => Return (JNum 0)
    | Some (JDict limits) => Return (default (JNum 0) (Dict.get resource limits))
    | Some _ => Raise "object has no attribute 'get'"
    end.

(** The body of [has_feature] and [has_app] on their field. *)
Definition has (field : json) (name : string) : bool :=
  if negb (Dict.truthy field) then false
  else
    match load_field field with
    | None => false
    | Some values => default false (LicenseGate.contains name values)
    end.

(** [AppLicense.has_feature] *)
Definition has_feature (doc : t) (feature : string) : bool :=
  has (enabled_features doc) feature.

(** [AppLicense.has_app] *)
Definition has_app (doc : t) (app_name : string) : bool :=
  has (enabled_apps doc) app_name.

(** The dict [get_license] builds from the stored document. *)
Definition license_data (today : Z) (doc : t) : dict :=
  [ ("license_key", JStr (license_key doc));
    ("customer_id", customer_id doc);
    ("customer_name", customer_name doc);
    ("tier", JStr (tier doc));
    ("status", JStr (status doc));
    ("expiry_date", match expiry_date doc with
                    | Some expiry => JStr (pretty expiry)
                    | None => JNull
                    end);
    ("is_valid", JBool (is_valid today doc));
    ("resource_limits",
     LicenseGate._parse_json json_loads (resource_limits doc) (JDict []));
    ("enabled_features",
     LicenseGate._parse_json json_loads (enabled_features doc) (JList []));
    ("enabled_apps",
     LicenseGate._parse_json json_loads (enabled_apps doc) (JList [])) ].

(** Whether a requirement, if there is one, is met. *)
Definition wants (x : option string) (met : string → bool) : bool :=
  if Py.truthy_str x then met (default "" x) else true.

End Json.

(** An active Builder license as it is stored. *)
Definition example : t :=
  {| license_key := "LIC-1"; customer_id := JStr "CUST-1";
     customer_name := JStr "Example"; tier := "Builder"; status := "Active";
     expiry_date := Some (200 * day_us);
     resource_limits := JDict [ ("api_calls", JNum 10000) ];
     enabled_features := JList [ JStr "webhooks" ];
     enabled_apps := JNull |}.

End LicenseDoc.

(** ** The license data cache *)

Module LicenseCache.

(** [frappe.cache()], before any entry expires: values by key. *)
Abbreviation store := (gmap string json).

(** The events that clear cache keys. *)
Inductive hook :=
| AppLicenseUpdated     (* AppLicense.on_update *)
| SettingsUpdated       (* SimbotixCoreSettings.on_update *)
| LicenseSynced.        (* the delete_key of sync_license *)

Definition run_hook (cache : store) (h : hook) : store :=
  match h with
  | AppLicenseUpdated => delete "simbotix_license_cache" cache
  | SettingsUpdated =>
      delete "simbotix_license_cache" (delete "simbotix_core_settings" cache)
  | LicenseSynced => delete "simbotix_license_cache" cache
  end.

(** [_get_cached_license]; [frappe._dict] of a value that is no dict
    raises. *)
Definition _get_cached_license (use_redis_cache : bool) (cache : store)
    : outcome (option dict) :=
  if negb use_redis_cache then Return None
  else
    match cache !! "simbotix_license_data" with
    | None => Return None
    | Some cached =>
        if Dict.truthy cached then
          match cached with
          | JDict d => Return (Some d)
          | _ => Raise "dictionary update sequence element"
          end
        else Return None
    end.

(** [_set_cached_license] *)
Definition _set_cached_license (use_redis_cache : bool) (license_data : dict)
    (cache : store) : store :=
  if negb use_redis_cache then cache
  else <["simbotix_license_data" := JDict license_data]> cache.

Section Json.

Variable json_loads : string → option json.

(** [get_license], with the cache it leaves; [active] is what
    [get_active_license] returns. *)
Definition get_license (use_redis_cache : bool) (today : Z) (cache : store)
    (active : option LicenseDoc.t) : store * outcome (option dict) :=
  match _get_cached_license use_redis_cache cache with
  | Raise message => (cache, Raise message)
  | Return (Some cached) => (cache, Return (Some cached))
  | Return None =>
      match active with
      | None => (cache, Return None)
      | Some license_doc =>
          let license_data := LicenseDoc.license_data json_loads today license_doc in
          (_set_cached_license use_redis_cache license_data cache,
           Return (Some license_data))
      end
  end.

End Json.

(** The stored Builder license after it was suspended. *)
Definition suspended : LicenseDoc.t :=
  {| LicenseDoc.license_key := "LIC-1"; LicenseDoc.customer_id := JStr "CUST-1";
     LicenseDoc.customer_name := JStr "Example"; LicenseDoc.tier := "Builder";
     LicenseDoc.status := "Suspended";
     LicenseDoc.expiry_date := Some (200 * day_us);
     LicenseDoc.resource_limits := JDict [ ("api_calls", JNum 10000) ];
     LicenseDoc.enabled_features := JList [ JStr "webhooks" ];
     LicenseDoc.enabled_apps := JNull |}.

End LicenseCache.

(** * Properties *)

(** ** Numeric helpers *)

Lemma geb_true x y : Py.geb x y = true ↔ (y <= x)%Q.
Proof. unfold Py.geb. apply Qle_bool_iff. Qed.

Lemma geb_false x y : Py.geb x y = false ↔ (x < y)%Q.
Proof.
  unfold Py.geb. split.
  - intros H. apply Qnot_le_lt. intros Hle.
    apply Qle_bool_iff in Hle. congruence.
  - intros H. destruct (Qle_bool y x) eqn:E; [|done].
    apply Qle_bool_iff in E. exfalso. by apply (Qlt_not_le x y).
Qed.

Lemma ltb_true x y : Py.ltb x y = true ↔ (x < y)%Q.
Proof.
  unfold Py.ltb. rewrite negb_true_iff. apply (geb_false x y).
Qed.

Lemma ltb_false x y : Py.ltb x y = false ↔ (y <= x)%Q.
Proof.
  unfold Py.ltb. rewrite negb_false_iff. apply (geb_true x y).
Qed.

Lemma Qeq_bool_false x y : Qeq_bool x y = false ↔ ¬ (x == y)%Q.
Proof.
  split.
  - intros H Heq. apply Qeq_bool_iff in Heq. congruence.
  - intros H. destruct (Qeq_bool x y) eqn:E; [|done].
    apply Qeq_bool_iff in E. done.
Qed.

Lemma max0_pos x : (0 < x)%Q → Py.max0 x = x.
Proof. intros H. unfold Py.max0. by rewrite (proj2 (ltb_true 0 x) H). Qed.

Lemma max0_nonpos x : (x <= 0)%Q → Py.max0 x = 0%Q.
Proof. intros H. unfold Py.max0. by rewrite (proj2 (ltb_false 0 x) H). Qed.



Lemma round_zero (x : Q) (d : nat) : (x == 0)%Q → (Py.round x d == 0)%Q.
Proof.
  intros Hx. unfold Py.round.
  set (s := inject_Z (10 ^ Z.of_nat d)).
  assert (Hs : ¬ s == 0).
  { unfold s. intros H. apply (eq_sym) in H.
    unfold Qeq in H. simpl in H.
    assert (0 < 10 ^ Z.of_nat d)%Z by (apply Z.pow_pos_nonneg; lia). lia. }
  assert (Hr : Py.round_half_even (x * s) = 0%Z).
  { unfold Py.round_half_even.
    assert (Hf : Qfloor (x * s) = 0%Z).
    { assert (E : x * s == inject_Z 0) by (rewrite Hx; ring).
      rewrite (Qfloor_comp _ _ E). apply Qfloor_Z. }
    rewrite Hf.
    assert (E : x * s - inject_Z 0 == 0) by (rewrite Hx; ring).
    destruct (Qcompare_spec (x * s - inject_Z 0) (1 # 2)) as [He|Hl|Hg];
      [rewrite E in He; discriminate He | done | rewrite E in Hg; discriminate Hg]. }
  rewrite Hr. field. exact Hs.
Qed.

(** ** Limit evaluation *)

Lemma check_limits_unlimited s resource :
  (Licensing.get_resource_limit s resource == 0)%Q →
  Metering.check_limits s resource = Metering.ok.
Proof.
  intros H. unfold Metering.check_limits.
  by rewrite (proj2 (Qeq_bool_iff _ _) H).
Qed.

(** The cascade of [check_limits] for a limited resource, with no
    assumption on how the two thresholds are ordered. *)
Lemma check_limits_cascade s resource :
  ¬ (Licensing.get_resource_limit s resource == 0)%Q →
  Metering.check_limits s resource =
    let pct := Metering.percentage (Metering.get_current_usage s resource)
                 (Licensing.get_resource_limit s resource) in
    if Py.geb pct (Settings.hard_limit_threshold (settings s)) then Metering.exceeded
    else if Py.geb pct (Settings.warning_threshold (settings s)) then Metering.warning
    else Metering.ok.
Proof.
  intros H. unfold Metering.check_limits.
  by rewrite (proj2 (Qeq_bool_false _ _) H).
Qed.



Lemma get_license_usage_records m s :
  Licensing.get_license (with_usage_records m s) = Licensing.get_license s.
Proof. reflexivity. Qed.

Lemma get_resource_limit_usage_records m s resource :
  Licensing.get_resource_limit (with_usage_records m s) resource
  = Licensing.get_resource_limit s resource.
Proof. reflexivity. Qed.

(** C10. Without a license, or for a resource the license's limit mapping
    omits, [get_resource_limit] is 0, which [check_limits] reads as
    unlimited: the check answers [ok] whatever usage records the site
    holds. *)
Theorem missing_limit_fails_open (s : Site) (resource : string) :
  (Licensing.get_license s = None
   ∨ ∃ lic, Licensing.get_license s = Some lic
            ∧ Licensing.resource_limits lic !! resource = None) →
  Licensing.get_resource_limit s resource = 0%Q
  ∧ Metering.check_limits s resource = Metering.ok
  ∧ ∀ records,
      Metering.check_limits (with_usage_records records s) resource = Metering.ok.
Proof.
  intros H.
  assert (Hz : Licensing.get_resource_limit s resource = 0%Q).
  { unfold Licensing.get_resource_limit.
    destruct H as [-> | (lic & -> & ->)]; reflexivity. }
  split; [exact Hz|]. split.
  - apply check_limits_unlimited. by rewrite Hz.
  - intros records. apply check_limits_unlimited.
    rewrite get_resource_limit_usage_records. by rewrite Hz.
Qed.

(** C10 at a site with no license at all but 10^9 recorded API calls. *)
Lemma missing_limit_fails_open_witness :
  Licensing.get_resource_limit
    (Examples.site Settings.defaults None
       [("UR-1", Examples.record "api_calls" 1000000000 (99 * day_us))])
    "api_calls" = 0%Q
  ∧ Metering.check_limits
      (Examples.site Settings.defaults None
         [("UR-1", Examples.record "api_calls" 1000000000 (99 * day_us))])
      "api_calls" = Metering.ok.
Proof.
  destruct (missing_limit_fails_open
              (Examples.site Settings.defaults None
                 [("UR-1", Examples.record "api_calls" 1000000000 (99 * day_us))])
              "api_calls") as (H1 & H2 & _).
  - left. reflexivity.
  - split; [exact H1 | exact H2].
Defined.

(** ** Overage *)

Lemma calculate_overage_none s resource :
  ((Licensing.get_resource_limit s resource == 0)%Q
   ∨ (Metering.get_current_usage s resource
      <= Licensing.get_resource_limit s resource)%Q) →
  Metering.calculate_overage s resource = Metering.no_overage.
Proof.
  intros H. unfold Metering.calculate_overage.
  destruct (Qeq_bool (Licensing.get_resource_limit s resource) 0) eqn:E; [done|].
  destruct H as [H|H].
  - apply Qeq_bool_iff in H. congruence.
  - rewrite max0_nonpos by lra. reflexivity.
Qed.

Lemma calculate_overage_some s resource :
  ¬ (Licensing.get_resource_limit s resource == 0)%Q →
  (Licensing.get_resource_limit s resource
   < Metering.get_current_usage s resource)%Q →
  Metering.calculate_overage s resource =
    let e := (Metering.get_current_usage s resource
              - Licensing.get_resource_limit s resource)%Q in
    let rate_info :=
      default {| UsageAlertDoc.rate := 0; UsageAlertDoc.per := None;
                 UsageAlertDoc.unit := None |}
              (UsageAlertDoc.OVERAGE_RATES !! resource) in
    let per := default 1%Q (UsageAlertDoc.per rate_info) in
    {| Metering.exceeded_by := e;
       Metering.overage_cost :=
         Py.round (if Py.ltb 1 per then e / per * UsageAlertDoc.rate rate_info
                   else e * UsageAlertDoc.rate rate_info) 2;
       Metering.rate := UsageAlertDoc.rate rate_info |}.
Proof.
  intros Hl Hc. unfold Metering.calculate_overage.
  rewrite (proj2 (Qeq_bool_false _ _) Hl).
  rewrite max0_pos by lra.
  assert (He : Qeq_bool (Metering.get_current_usage s resource
                         - Licensing.get_resource_limit s resource) 0 = false).
  { apply Qeq_bool_false. lra. }
  rewrite He. reflexivity.
Qed.




(** ** Settings validation *)

Lemma truthy_true x : Py.truthy x = true ↔ ¬ (x == 0)%Q.
Proof. unfold Py.truthy. rewrite negb_true_iff. apply Qeq_bool_false. Qed.

Lemma truthyZ_true n : Py.truthyZ n = true ↔ n ≠ 0.
Proof. unfold Py.truthyZ. rewrite negb_true_iff. apply Z.eqb_neq. Qed.

(** C9 (as the code has it). [validate] checks a field only when it is set
    (non-zero): saving raises, and leaves the stored settings as they were,
    exactly when both thresholds are set and the warning threshold is not
    strictly below the hard-limit threshold, or the sync interval is set
    and outside [1, 24], or the cache TTL is set and below 60.  Any other
    document is persisted. *)
Theorem settings_save_validates (stored doc : Settings.t) :
  let warn := Settings.warning_threshold doc in
  let hard := Settings.hard_limit_threshold doc in
  let sync := Settings.sync_interval_hours doc in
  let ttl := Settings.cache_ttl_seconds doc in
  let rejected :=
    (¬ (warn == 0)%Q ∧ ¬ (hard == 0)%Q ∧ (hard <= warn)%Q)
    ∨ (sync ≠ 0 ∧ (sync < 1 ∨ 24 < sync))
    ∨ (ttl ≠ 0 ∧ ttl < 60) in
  (rejected → ∃ msg, Settings.save stored doc = (stored, inl msg))
  ∧ (¬ rejected → Settings.save stored doc = (doc, inr tt)).
Proof.
  intros warn hard sync ttl rejected.
  unfold Settings.save, Settings.validate. fold warn hard sync ttl.
  destruct (Py.truthy warn && Py.truthy hard && Py.geb warn hard) eqn:E1.
  { split; [eauto|]. intros Hn. exfalso. apply Hn. left.
    apply andb_true_iff in E1 as [E1 E3]. apply andb_true_iff in E1 as [E1 E2].
    apply truthy_true in E1, E2. apply geb_true in E3. done. }
  destruct (Py.truthyZ sync && ((sync <? 1) || (24 <? sync))) eqn:E2.
  { split; [eauto|]. intros Hn. exfalso. apply Hn. right. left.
    apply andb_true_iff in E2 as [E2 E3]. apply truthyZ_true in E2.
    apply orb_true_iff in E3. split; [done|]. destruct E3; [left|right]; lia. }
  destruct (Py.truthyZ ttl && (ttl <? 60)) eqn:E3.
  { split; [eauto|]. intros Hn. exfalso. apply Hn. right. right.
    apply andb_true_iff in E3 as [E3 E4]. apply truthyZ_true in E3.
    split; [done|lia]. }
  split; [|done].
  intros [(H1 & H2 & H3) | [(H1 & H2) | (H1 & H2)]]; exfalso.
  - apply truthy_true in H1, H2. apply geb_true in H3.
    rewrite H1, H2, H3 in E1. discriminate.
  - apply truthyZ_true in H1. rewrite H1 in E2. simpl in E2.
    apply orb_false_iff in E2. lia.
  - apply truthyZ_true in H1. rewrite H1 in E3. simpl in E3. lia.
Qed.

(** C9 at a document with sync interval 25: the save raises and the stored
    defaults stay. *)
Lemma settings_save_validates_witness :
  ∃ msg,
    Settings.save Settings.defaults
      {| Settings.central_api_url := None; Settings.license_key := None;
         Settings.api_key := None; Settings.api_secret := None;
         Settings.warning_threshold := 80; Settings.hard_limit_threshold := 100;
         Settings.sync_interval_hours := 25; Settings.cache_ttl_seconds := 300;
         Settings.block_on_exceeded := false; Settings.use_redis_cache := true;
         Settings.send_alert_emails := false; Settings.alert_email := None;
         Settings.last_usage_sync := None |}
    = (Settings.defaults, inl msg).
Proof.
  eapply (proj1 (settings_save_validates Settings.defaults _)).
  right. left. simpl. lia.
Defined.

(** C9 as stated fails: a document whose warning threshold (90) is not
    below its hard-limit threshold (0), whose sync interval (0) is outside
    [1, 24] and whose cache TTL (0) is below 60 passes [validate] and is
    persisted. *)
Lemma settings_unset_fields_counterexample :
  let doc := Examples.unset_settings in
  ¬ (Settings.warning_threshold doc < Settings.hard_limit_threshold doc)%Q
  ∧ ¬ (1 <= Settings.sync_interval_hours doc <= 24)
  ∧ Settings.cache_ttl_seconds doc < 60
  ∧ Settings.validate doc = inr tt
  ∧ Settings.save Settings.defaults doc = (doc, inr tt).
Proof.
  simpl. repeat split; try lia. intros H. discriminate H.
Qed.

(** ** Retention *)

Lemma cleanup_lookup s name :
  usage_records (MeteringJobs.cleanup_old_records s) !! name
  = r ← usage_records s !! name;
    if MeteringJobs.expired (add_days (today s) (- MeteringJobs.retention_days)) r
    then None else Some r.
Proof.
  unfold MeteringJobs.cleanup_old_records. simpl.
  set (cutoff := add_days (today s) (- MeteringJobs.retention_days)).
  destruct (usage_records s !! name) as [r|] eqn:E; simpl.
  - destruct (MeteringJobs.expired cutoff r) eqn:Ex.
    + apply map_lookup_filter_None. right. intros x Hx. simpl.
      rewrite E in Hx. injection Hx as <-. congruence.
    + apply map_lookup_filter_Some. done.
  - apply map_lookup_filter_None. by left.
Qed.

(** C8. The retention job deletes a usage record exactly when it is synced
    and was created before the cutoff, 30 days before today; an unsynced
    record of any age and a synced record created at or after the cutoff
    are still there, unchanged, and nothing else on the site changes. *)
Theorem cleanup_deletes_only_old_synced (s : Site) (name : string) (r : UsageRecord.t) :
  usage_records s !! name = Some r →
  let cutoff := add_days (today s) (- 30) in
  let s' := MeteringJobs.cleanup_old_records s in
  (usage_records s' !! name = None
   ↔ UsageRecord.synced r = true ∧ UsageRecord.creation r < cutoff)
  ∧ (UsageRecord.synced r = false → usage_records s' !! name = Some r)
  ∧ (cutoff ≤ UsageRecord.creation r → usage_records s' !! name = Some r)
  ∧ (usage_records s' !! name = None ∨ usage_records s' !! name = Some r)
  ∧ usage_alerts s' = usage_alerts s ∧ settings s' = settings s.
Proof.
  intros Hr cutoff s'.
  assert (Hl : usage_records s' !! name
               = if UsageRecord.synced r && (UsageRecord.creation r <? cutoff)
                 then None else Some r).
  { unfold s'. rewrite cleanup_lookup, Hr. reflexivity. }
  rewrite Hl. repeat split.
  - destruct (UsageRecord.synced r); [done|]. simpl. done.
  - destruct (UsageRecord.synced r); simpl in *; [|done].
    destruct (UsageRecord.creation r <? cutoff) eqn:E; [lia|done].
  - intros [-> Hlt]. simpl. by rewrite (proj2 (Z.ltb_lt _ _) Hlt).
  - intros ->. done.
  - intros Hge. rewrite (proj2 (Z.ltb_ge _ _) Hge). by rewrite andb_false_r.
  - destruct (UsageRecord.synced r && (UsageRecord.creation r <? cutoff)); auto.
Qed.

(** C8 on day 100 (cutoff: day 70): the synced record of day 65 goes, the
    unsynced record of day 1 and the synced record of day 70 stay. *)
Lemma cleanup_deletes_only_old_synced_witness :
  let s' := MeteringJobs.cleanup_old_records RetentionExample.site in
  usage_records s' !! "UR-old-synced" = None
  ∧ usage_records s' !! "UR-old-unsynced"
    = Some (Examples.record "api_calls" 1 (1 * day_us))
  ∧ usage_records s' !! "UR-recent-synced"
    = Some (RetentionExample.synced_record (70 * day_us)).
Proof.
  split; [|split].
  - destruct (cleanup_deletes_only_old_synced RetentionExample.site
                "UR-old-synced" _ eq_refl) as (H & _).
    apply H. vm_compute. done.
  - destruct (cleanup_deletes_only_old_synced RetentionExample.site
                "UR-old-unsynced" _ eq_refl) as (_ & H & _).
    apply H. reflexivity.
  - destruct (cleanup_deletes_only_old_synced RetentionExample.site
                "UR-recent-synced" _ eq_refl) as (_ & _ & H & _).
    apply H. vm_compute. discriminate.
Defined.

(** ** The query primitive *)

Section GetAll.

Context {A : Type}.
Implicit Types (table : gmap string A) (filters : A → bool)
  (order_by : A → option Z).

Lemma get_all_unlimited_perm table filters order_by :
  get_all table filters order_by None
  ≡ₚ map_to_list (filter (λ kv, filters kv.2 = true) table).
Proof. unfold get_all. apply merge_sort_Permutation. Qed.

Lemma get_all_unlimited_elem table filters order_by n r :
  (n, r) ∈ get_all table filters order_by None
  ↔ table !! n = Some r ∧ filters r = true.
Proof.
  rewrite get_all_unlimited_perm, elem_of_map_to_list.
  by rewrite map_lookup_filter_Some.
Qed.

Lemma get_all_limit_take table filters order_by limit :
  get_all table filters order_by (Some limit)
  = take limit (get_all table filters order_by None).
Proof. reflexivity. Qed.



Lemma get_all_NoDup table filters order_by limit :
  NoDup (get_all table filters order_by limit).*1.
Proof.
  assert (H : NoDup (get_all table filters order_by None).*1).
  { rewrite get_all_unlimited_perm. apply NoDup_fst_map_to_list. }
  destruct limit as [k|]; [|done].
  rewrite get_all_limit_take, fmap_take.
  exact (sublist_NoDup _ _ H (sublist_take _ _)).
Qed.


End GetAll.

(** ** Table updates *)

Lemma foldl_alter_lookup {A B} (f : A → A) (key : B → string) (l : list B)
    (t : gmap string A) (n : string) :
  (∀ x, f (f x) = f x) →
  foldl (λ t x, alter f (key x) t) t l !! n
  = if decide (n ∈ key <$> l) then f <$> t !! n else t !! n.
Proof.
  intros Hf. revert t. induction l as [|x l IH]; intros t.
  - destruct (decide (n ∈ key <$> [])) as [Hin|_]; [|done].
    by apply elem_of_nil in Hin.
  - change (foldl (λ t x, alter f (key x) t) t (x :: l))
      with (foldl (λ t x, alter f (key x) t) (alter f (key x) t) l).
    rewrite IH, fmap_cons.
    destruct (decide (key x = n)) as [<-|Hne].
    + rewrite lookup_alter_eq.
      destruct (decide (key x ∈ key x :: (key <$> l))) as [_|Hn];
        [|exfalso; apply Hn; left].
      destruct (decide (key x ∈ key <$> l)); [|done].
      destruct (t !! key x); simpl; by rewrite ?Hf.
    + rewrite lookup_alter_ne by done.
      destruct (decide (n ∈ key <$> l)) as [Hin|Hin];
        destruct (decide (n ∈ key x :: (key <$> l))) as [Hin'|Hin']; try done.
      * exfalso. apply Hin'. by right.
      * apply elem_of_cons in Hin' as [->|?]; done.
Qed.

Lemma set_synced_idem at_ r :
  UsageRecord.set_synced at_ (UsageRecord.set_synced at_ r)
  = UsageRecord.set_synced at_ r.
Proof. reflexivity. Qed.

Lemma mark_synced_lookup at_ t (records : list (string * UsageRecord.t)) n :
  MeteringJobs.mark_synced at_ t records !! n
  = if decide (n ∈ records.*1) then UsageRecord.set_synced at_ <$> t !! n
    else t !! n.
Proof.
  unfold MeteringJobs.mark_synced.
  apply (foldl_alter_lookup (UsageRecord.set_synced at_) fst).
  apply set_synced_idem.
Qed.

(** ** Usage sync *)






(** ** The retry loop of the central API client *)

Section RetryLoop.

Variables (rt : CentralAPI.runtime) (req : request) (rc : nat).


(** The loop returns at the first attempt that is not retried. *)
Lemma request_loop_returns k : ∀ remaining a last result,
  (k < remaining)%nat → (a + remaining = rc)%nat →
  (∀ i, (i < k)%nat → ∃ err, CentralAPI.attempt_once (CentralAPI.net rt (a + i)) = inr err) →
  CentralAPI.attempt_once (CentralAPI.net rt (a + k)) = inl result →
  CentralAPI.request_loop rt req rc remaining a last
  = (result, CentralAPI.backoff_trace req a k ++ [EHttp (a + k) req]).
Proof.
  induction k as [|k IH]; intros remaining a last result Hk Hrc Hretry Hret.
  - destruct remaining as [|rem]; [lia|]. simpl.
    rewrite Nat.add_0_r in Hret. rewrite Hret. by rewrite Nat.add_0_r.
  - destruct remaining as [|rem]; [lia|]. simpl.
    destruct (Hretry 0%nat ltac:(lia)) as [err Herr].
    rewrite Nat.add_0_r in Herr. rewrite Herr.
    assert (Hs : (Z.of_nat a <? Z.of_nat rc - 1) = true) by (apply Z.ltb_lt; lia).
    rewrite Hs.
    rewrite (IH rem (S a) (Some err) result); [| lia | lia | |].
    + simpl. by rewrite Nat.add_succ_r.
    + intros i Hi. specialize (Hretry (S i) ltac:(lia)).
      by rewrite Nat.add_succ_r in Hretry.
    + by rewrite Nat.add_succ_r in Hret.
Qed.


End RetryLoop.



(** ** Request signing *)

Lemma digest_length msg : length (SHA256.digest msg) = 32%nat.
Proof.
  unfold SHA256.digest.
  destruct (SHA256.blocks _ SHA256.H0 (SHA256.pad msg))
    as [[[[[[[a b] c] d] e] f] g] h].
  reflexivity.
Qed.

Lemma hmac_length key msg : length (SHA256.hmac key msg) = 32%nat.
Proof. unfold SHA256.hmac. apply digest_length. Qed.

Lemma hexdigest_length bytes :
  String.length (SHA256.hexdigest bytes) = (2 * length bytes)%nat.
Proof. induction bytes as [|b bytes IH]; simpl; [done|]. rewrite IH. lia. Qed.

Lemma hex_digit_lower n : SHA256.hex_digit n ∈ SHA256.hex_digits.
Proof.
  unfold SHA256.hex_digit.
  assert (H : (Z.to_nat (n mod 16) < 16)%nat).
  { pose proof (Z.mod_pos_bound n 16 ltac:(lia)). lia. }
  set (i := Z.to_nat (n mod 16)) in *. clearbody i.
  do 16 (destruct i as [|i]; [apply list_elem_of_In; simpl; tauto|]).
  lia.
Qed.

Lemma hexdigest_lower bytes :
  Forall (λ ch, ch ∈ SHA256.hex_digits)
         (String.list_ascii_of_string (SHA256.hexdigest bytes)).
Proof.
  induction bytes as [|b bytes IH]; simpl; [constructor|].
  constructor; [apply hex_digit_lower|].
  constructor; [apply hex_digit_lower|]. exact IH.
Qed.

(** C5. With no secret, or an empty one, the signature is the empty string
    and a request carries only the content-type and API-key headers.  With
    a non-empty secret the signature is the hexadecimal HMAC-SHA256 of the
    payload under the secret: 64 characters, all among [0-9a-f]; a request
    with data then carries that signature of the key-sorted JSON text of
    the data, and a timestamp.  The signature depends on the payload and
    the secret only. *)
Theorem signature_generation
    (json_dumps : bool → json → string) (c : CentralAPI.client)
    (rt : CentralAPI.runtime) (payload : string) (data : option dict) :
  ((CentralAPI.api_secret c = None ∨ CentralAPI.api_secret c = Some "") →
     CentralAPI._generate_signature c payload = ""
     ∧ CentralAPI.request_headers json_dumps c rt data
       = [ ("Content-Type", "application/json");
           ("X-Api-Key", default "" (CentralAPI.api_key c)) ])
  ∧ (∀ secret, CentralAPI.api_secret c = Some secret → secret ≠ "" →
       let signature := CentralAPI._generate_signature c payload in
       signature
       = SHA256.hexdigest (SHA256.hmac (SHA256.encode secret) (SHA256.encode payload))
       ∧ String.length signature = 64%nat
       ∧ Forall (λ ch, ch ∈ SHA256.hex_digits) (String.list_ascii_of_string signature)
       ∧ (CentralAPI.truthy_data data = true →
          CentralAPI.request_headers json_dumps c rt data
          = [ ("Content-Type", "application/json");
              ("X-Api-Key", default "" (CentralAPI.api_key c));
              ("X-Api-Signature",
               SHA256.hexdigest
                 (SHA256.hmac (SHA256.encode secret)
                    (SHA256.encode (json_dumps true (JDict (default [] data))))));
              ("X-Api-Timestamp", pretty (CentralAPI.unix_time rt)) ]))
  ∧ (∀ c' : CentralAPI.client,
       CentralAPI.api_secret c' = CentralAPI.api_secret c →
       CentralAPI._generate_signature c' payload
       = CentralAPI._generate_signature c payload).
Proof.
  split; [|split].
  - intros H. unfold CentralAPI.request_headers, CentralAPI._generate_signature.
    destruct H as [-> | ->]; done.
  - intros secret Hs Hne.
    assert (Ht : Py.truthy_str (Some secret) = true) by (by destruct secret).
    assert (Hsig : ∀ p, CentralAPI._generate_signature c p
                        = SHA256.hexdigest
                            (SHA256.hmac (SHA256.encode secret) (SHA256.encode p))).
    { intros p. unfold CentralAPI._generate_signature. by rewrite Hs, Ht. }
    cbv zeta. rewrite Hsig. split; [done|]. split; [|split].
    + by rewrite hexdigest_length, hmac_length.
    + apply hexdigest_lower.
    + intros Hd. unfold CentralAPI.request_headers.
      rewrite Hs, Ht, Hd, Hsig. done.
  - intros c' Heq. unfold CentralAPI._generate_signature. by rewrite Heq.
Qed.

(** C5 at the secret "test-api-secret" and the payload "test". *)
Lemma signature_generation_witness :
  CentralAPI._generate_signature RetryExample.client "test"
  = "5b9ffcdd1fda064dffc7d4dad3ae1e22cc852ac40394d770dd759d92ead98c8b"
  ∧ String.length (CentralAPI._generate_signature RetryExample.client "test") = 64%nat.
Proof.
  destruct (signature_generation SyncExample.json_dumps RetryExample.client
              SyncExample.accepting "test" RetryExample.data) as (_ & H & _).
  destruct (H "test-api-secret") as (H1 & H2 & _).
  - reflexivity.
  - discriminate.
  - split; [|exact H2]. rewrite H1. vm_compute. reflexivity.
Defined.

(** ** Hourly aggregation *)

Section Marking.

Variable at_ : Z.

Import HourlyGroups.

Lemma mark_records_spec data names m :
  let m' := foldl (MeteringJobs.mark_record at_ data) m names in
  MeteringJobs.table m'
  = foldl (write at_) (MeteringJobs.table m) (map (λ n, (n, MeteringJobs.hour data)) names)
  ∧ MeteringJobs.aggregated_count m' = (MeteringJobs.aggregated_count m + length names)%nat
  ∧ MeteringJobs.resources m' = MeteringJobs.resources m
  ∧ MeteringJobs.set_value_calls m' = MeteringJobs.set_value_calls m ++ names.
Proof.
  revert m. induction names as [|n names IH]; intros m; simpl.
  - repeat split; [lia | by rewrite app_nil_r].
  - destruct (IH (MeteringJobs.mark_record at_ data m n)) as (H1 & H2 & H3 & H4).
    simpl in *. rewrite H1, H2, H3, H4. repeat split; [lia|].
    by rewrite <- app_assoc.
Qed.

Lemma mark_groups_spec groups m :
  let m' := foldl (MeteringJobs.mark_group at_) m groups in
  MeteringJobs.table m' = foldl (write at_) (MeteringJobs.table m) (writes groups)
  ∧ MeteringJobs.aggregated_count m'
    = (MeteringJobs.aggregated_count m + length (writes groups))%nat
  ∧ MeteringJobs.resources m'
    = MeteringJobs.resources m ++ map (λ item, MeteringJobs.resource_type item.2) groups
  ∧ MeteringJobs.set_value_calls m'
    = MeteringJobs.set_value_calls m ++ (writes groups).*1.
Proof.
  revert m. induction groups as [|item groups IH]; intros m; simpl.
  - repeat split; [lia | by rewrite app_nil_r | by rewrite app_nil_r].
  - destruct (IH (MeteringJobs.mark_group at_ m item)) as (H1 & H2 & H3 & H4).
    destruct (mark_records_spec item.2 (MeteringJobs.records item.2) m)
      as (R1 & R2 & R3 & R4).
    unfold writes in *. simpl in *.
    rewrite H1, H2, H3, H4, R1, R2, R3, R4.
    rewrite foldl_app, length_app, length_map, fmap_app.
    repeat split.
    + lia.
    + by rewrite <- app_assoc.
    + rewrite <- app_assoc. f_equal. f_equal.
      rewrite <- list_fmap_compose. simpl.
      by rewrite list_fmap_id.
Qed.

Lemma set_aggregated_idem a b r :
  UsageRecord.set_aggregated at_ a b (UsageRecord.set_aggregated at_ a b r)
  = UsageRecord.set_aggregated at_ a b r.
Proof. reflexivity. Qed.

Lemma writes_lookup_other (ws : list (string * Z)) t n :
  n ∉ ws.*1 → foldl (write at_) t ws !! n = t !! n.
Proof.
  revert t. induction ws as [|[n' h'] ws IH]; intros t Hn; simpl; [done|].
  rewrite fmap_cons in Hn. apply not_elem_of_cons in Hn as [Hne Hn].
  rewrite IH by done. unfold write. simpl. by rewrite lookup_alter_ne.
Qed.

Lemma writes_lookup (ws : list (string * Z)) t n h :
  (∀ h', (n, h') ∈ ws → h' = h) → n ∈ ws.*1 →
  foldl (write at_) t ws !! n
  = UsageRecord.set_aggregated at_ h (h + hour_us) <$> t !! n.
Proof.
  revert t. induction ws as [|[n' h'] ws IH]; intros t Hfun Hin; simpl.
  { by apply elem_of_nil in Hin. }
  assert (Hfun' : ∀ h', (n, h') ∈ ws → h' = h).
  { intros h0 H0. apply Hfun. by right. }
  destruct (decide (n' = n)) as [->|Hne].
  - assert (h' = h) as -> by (apply Hfun; left).
    destruct (decide (n ∈ ws.*1)) as [Hin'|Hin'].
    + rewrite IH by done. unfold write. simpl. rewrite lookup_alter_eq.
      destruct (t !! n); simpl; [|done]. by rewrite set_aggregated_idem.
    + rewrite writes_lookup_other by done.
      unfold write. simpl. by rewrite lookup_alter_eq.
  - rewrite fmap_cons in Hin. apply elem_of_cons in Hin as [Heq|Hin]; [done|].
    rewrite IH by done. unfold write. simpl. by rewrite lookup_alter_ne.
Qed.

End Marking.

Section Grouping.

Import HourlyGroups.

Implicit Types (groups : list (MeteringJobs.key * MeteringJobs.group))
  (k : MeteringJobs.key) (record : string * UsageRecord.t)
  (records : list (string * UsageRecord.t)).

Lemma find_None k groups : find k groups = None ↔ k ∉ groups.*1.
Proof.
  induction groups as [|[k' g] groups IH].
  - split; [intros _; apply not_elem_of_nil | done].
  - rewrite fmap_cons, not_elem_of_cons. simpl find. simpl fst.
    destruct (decide (k' = k)) as [->|Hne].
    + split; [done|]. by intros [? _].
    + rewrite IH. split; [by split|by intros [_ ?]].
Qed.

Lemma find_app k groups groups' :
  find k (groups ++ groups')
  = match find k groups with Some g => Some g | None => find k groups' end.
Proof.
  induction groups as [|[k' g] groups IH]; simpl; [done|].
  by destruct (decide (k' = k)).
Qed.

Lemma find_update k k' f groups :
  find k' (MeteringJobs.update k f groups)
  = if decide (k' = k) then f <$> find k groups else find k' groups.
Proof.
  induction groups as [|[k0 g] groups IH]; simpl.
  - by destruct (decide (k' = k)).
  - destruct (decide (k0 = k)) as [->|Hne]; simpl.
    + destruct (decide (k = k')) as [->|Hne'].
      * by rewrite decide_True.
      * by rewrite decide_False.
    + destruct (decide (k0 = k')) as [->|Hne'].
      * by rewrite decide_False.
      * apply IH.
Qed.



Lemma find_add_record groups record k :
  find k (MeteringJobs.add_record groups record)
  = if decide (k = key_of record)
    then Some (extend record (default (group_of [] k) (find k groups)))
    else find k groups.
Proof.
  unfold MeteringJobs.add_record. cbv zeta.
  change (UsageRecord.resource_type record.2,
          truncate_hour (UsageRecord.timestamp record.2)) with (key_of record).
  rewrite find_update.
  destruct (decide (k = key_of record)) as [->|Hne].
  - destruct (bool_decide (key_of record ∈ groups.*1)) eqn:E.
    + apply bool_decide_eq_true in E.
      destruct (find (key_of record) groups) as [g|] eqn:Ef; [done|].
      by apply find_None in Ef.
    + apply bool_decide_eq_false in E. apply find_None in E.
      rewrite find_app, E. simpl. by rewrite decide_True.
  - destruct (bool_decide (key_of record ∈ groups.*1)); [done|].
    rewrite find_app. destruct (find k groups); [done|].
    simpl. by rewrite decide_False.
Qed.



Lemma members_snoc records record k :
  members (records ++ [record]) k
  = members records k ++ (if decide (key_of record = k) then [record] else []).
Proof.
  unfold members. rewrite filter_app. f_equal.
Qed.

Lemma members_nil records k : k ∉ key_of <$> records → members records k = [].
Proof.
  intros Hk. unfold members. induction records as [|record records IH]; [done|].
  rewrite fmap_cons in Hk. apply not_elem_of_cons in Hk as [Hne Hk].
  rewrite filter_cons_False by done. by apply IH.
Qed.

(** The dict the grouping loop builds holds, under every bucket that has a
    record, exactly the group of that bucket. *)
Lemma groups_find records k :
  find k (foldl MeteringJobs.add_record [] records)
  = if decide (k ∈ key_of <$> records) then Some (group_of records k) else None.
Proof.
  induction records as [|record records IH] using rev_ind.
  - simpl. destruct (decide (k ∈ key_of <$> [])) as [H|_]; [|done].
    by apply elem_of_nil in H.
  - rewrite foldl_snoc, find_add_record, IH.
    assert (Hsnoc : k ∈ key_of <$> records ++ [record]
                    ↔ k ∈ key_of <$> records ∨ k = key_of record).
    { rewrite fmap_app, elem_of_app. simpl. rewrite list_elem_of_singleton. done. }
    unfold group_of. rewrite members_snoc.
    destruct (decide (k = key_of record)) as [->|Hne].
    + rewrite (decide_True (P := key_of record = key_of record)) by done.
      destruct (decide (key_of record ∈ key_of <$> records ++ [record])) as [_|Hn];
        [|exfalso; apply Hn, Hsnoc; by right].
      f_equal. unfold extend.
      destruct (decide (key_of record ∈ key_of <$> records)) as [Hin|Hin]; simpl.
      * by rewrite foldl_snoc, fmap_app.
      * rewrite (members_nil records) by done. done.
    + rewrite (decide_False (P := key_of record = k)) by done.
      rewrite app_nil_r.
      destruct (decide (k ∈ key_of <$> records)) as [Hin|Hin];
        destruct (decide (k ∈ key_of <$> records ++ [record])) as [Hin'|Hin'];
        try done.
      * exfalso. apply Hin', Hsnoc. by left.
      * apply Hsnoc in Hin' as [?|?]; done.
Qed.

Lemma writes_app groups groups' : writes (groups ++ groups') = writes groups ++ writes groups'.
Proof. unfold writes. by rewrite map_app, concat_app. Qed.

Lemma writes_update k f n groups g0 :
  (∀ g, MeteringJobs.hour (f g) = MeteringJobs.hour g
        ∧ MeteringJobs.records (f g) = MeteringJobs.records g ++ [n]) →
  find k groups = Some g0 →
  writes (MeteringJobs.update k f groups) ≡ₚ (n, MeteringJobs.hour g0) :: writes groups.
Proof.
  intros Hf. induction groups as [|[k' g] groups IH]; simpl; [done|].
  destruct (decide (k' = k)) as [->|Hne].
  - intros [= ->]. unfold writes. simpl.
    destruct (Hf g0) as [-> ->]. rewrite map_app. simpl.
    rewrite <- app_assoc. simpl.
    by rewrite <- Permutation_middle.
  - intros Hfind. unfold writes in *. simpl.
    rewrite (IH Hfind). by rewrite Permutation_middle.
Qed.

Lemma writes_add_record groups record :
  (∀ k g, find k groups = Some g → MeteringJobs.hour g = k.2) →
  writes (MeteringJobs.add_record groups record)
  ≡ₚ (record.1, (key_of record).2) :: writes groups.
Proof.
  intros Hhour. unfold MeteringJobs.add_record. cbv zeta.
  change (UsageRecord.resource_type record.2,
          truncate_hour (UsageRecord.timestamp record.2)) with (key_of record).
  destruct (bool_decide (key_of record ∈ groups.*1)) eqn:E.
  - apply bool_decide_eq_true in E.
    destruct (find (key_of record) groups) as [g|] eqn:Ef;
      [|by apply find_None in Ef].
    rewrite (writes_update _ _ record.1 _ g); [|done|done].
    by rewrite (Hhour _ _ Ef).
  - apply bool_decide_eq_false in E. apply find_None in E.
    erewrite (writes_update _ _ record.1); [|done|].
    2:{ rewrite find_app, E. simpl. by rewrite decide_True. }
    simpl. rewrite writes_app. unfold writes at 2. simpl.
    by rewrite app_nil_r.
Qed.

Lemma groups_writes records :
  writes (foldl MeteringJobs.add_record [] records)
  ≡ₚ (λ record, (record.1, (key_of record).2)) <$> records.
Proof.
  induction records as [|record records IH] using rev_ind; [done|].
  rewrite foldl_snoc, fmap_app. simpl.
  rewrite writes_add_record.
  - rewrite IH. by rewrite <- Permutation_cons_append.
  - intros k g Hf. rewrite groups_find in Hf.
    destruct (decide _); [|done]. by injection Hf as <-.
Qed.

End Grouping.

Section AggregateRun.

Import HourlyGroups.

Variable s : Site.

Lemma aggregate_selection_elem n r :
  (n, r) ∈ MeteringJobs.aggregate_selection s
  ↔ usage_records s !! n = Some r ∧ UsageRecord.aggregated r = false.
Proof.
  unfold MeteringJobs.aggregate_selection.
  rewrite get_all_unlimited_elem. unfold MeteringJobs.unaggregated.
  by rewrite negb_true_iff.
Qed.

Lemma aggregate_writes :
  writes (MeteringJobs.aggregate_groups s)
  ≡ₚ (λ record, (record.1, (key_of record).2)) <$> MeteringJobs.aggregate_selection s.
Proof. apply groups_writes. Qed.


Lemma aggregate_writes_elem n h :
  (n, h) ∈ writes (MeteringJobs.aggregate_groups s)
  ↔ ∃ r, usage_records s !! n = Some r ∧ UsageRecord.aggregated r = false
         ∧ h = truncate_hour (UsageRecord.timestamp r).
Proof.
  rewrite aggregate_writes, list_elem_of_fmap. split.
  - intros ([n' r] & [= -> ->] & Hin).
    apply aggregate_selection_elem in Hin as [? ?]. eauto.
  - intros (r & H1 & H2 & ->). exists (n, r). split; [done|].
    by apply aggregate_selection_elem.
Qed.

Lemma aggregate_table :
  usage_records (MeteringJobs.aggregate_usage s).1
  = foldl (write (now s)) (usage_records s) (writes (MeteringJobs.aggregate_groups s)).
Proof.
  unfold MeteringJobs.aggregate_usage.
  destruct (MeteringJobs.aggregate_selection s) as [|x l] eqn:E.
  - unfold MeteringJobs.aggregate_groups. by rewrite E.
  - simpl. unfold MeteringJobs.aggregate_marking.
    by destruct (mark_groups_spec (now s) (MeteringJobs.aggregate_groups s)
                   {| MeteringJobs.table := usage_records s;
                      MeteringJobs.aggregated_count := 0;
                      MeteringJobs.resources := [];
                      MeteringJobs.set_value_calls := [] |}) as (-> & _).
Qed.



Lemma aggregate_lookup n :
  usage_records (MeteringJobs.aggregate_usage s).1 !! n
  = r ← usage_records s !! n;
    Some (if UsageRecord.aggregated r then r else stamp (now s) r).
Proof.
  rewrite aggregate_table.
  destruct (usage_records s !! n) as [r|] eqn:Hr; simpl.
  - destruct (UsageRecord.aggregated r) eqn:Ha.
    + rewrite writes_lookup_other; [done|].
      intros ([n' h] & -> & Hin)%list_elem_of_fmap. simpl in *.
      apply aggregate_writes_elem in Hin as (r' & H1 & H2 & _). congruence.
    + rewrite (writes_lookup _ _ _ _ (truncate_hour (UsageRecord.timestamp r))).
      * by rewrite Hr.
      * intros h' (r' & H1 & H2 & ->)%aggregate_writes_elem. congruence.
      * apply list_elem_of_fmap.
        exists (n, truncate_hour (UsageRecord.timestamp r)). split; [done|].
        apply aggregate_writes_elem. eauto.
  - rewrite writes_lookup_other; [done|].
    intros ([n' h] & -> & Hin)%list_elem_of_fmap. simpl in *.
    apply aggregate_writes_elem in Hin as (r' & H1 & H2 & _). congruence.
Qed.


End AggregateRun.




(** ** Usage alerts *)

Section Alerts.

Import UsageAlertDoc.

Lemma validate_keeps a :
  let a' := UsageAlert.validate a in
  resource_type a' = resource_type a ∧ kind a' = kind a
  ∧ current_usage a' = current_usage a ∧ limit_value a' = limit_value a
  ∧ acknowledged a' = acknowledged a
  ∧ notification_sent a' = notification_sent a
  ∧ creation a' = creation a.
Proof.
  unfold UsageAlert.validate.
  repeat match goal with
         | |- context [if ?b then _ else _] => destruct b
         end; simpl; done.
Qed.

Lemma open_today_validate s resource k a :
  UsageAlert.open_today s resource k (UsageAlert.validate a)
  = UsageAlert.open_today s resource k a.
Proof.
  unfold UsageAlert.open_today.
  destruct (validate_keeps a) as (-> & -> & _ & _ & -> & _ & ->). done.
Qed.

Lemma existing_sound s resource k n a :
  (n, a) ∈ UsageAlert.existing s resource k →
  usage_alerts s !! n = Some a ∧ UsageAlert.open_today s resource k a = true.
Proof.
  unfold UsageAlert.existing. intros H%subseteq_take.
  apply elem_of_map_to_list in H. by apply map_lookup_filter_Some in H.
Qed.

Lemma existing_nil s resource k :
  UsageAlert.existing s resource k = []
  ↔ ∀ n a, usage_alerts s !! n = Some a →
           UsageAlert.open_today s resource k a = false.
Proof.
  unfold UsageAlert.existing.
  set (m := filter (λ kv, UsageAlert.open_today s resource k kv.2 = true)
                   (usage_alerts s)).
  split.
  - intros Hnil n a Hn.
    destruct (UsageAlert.open_today s resource k a) eqn:E; [|done].
    assert (Hin : (n, a) ∈ map_to_list m).
    { apply elem_of_map_to_list. by apply map_lookup_filter_Some. }
    destruct (map_to_list m) as [|x l]; [by apply elem_of_nil in Hin|].
    discriminate Hnil.
  - intros Hall. destruct (map_to_list m) as [|[n a] l] eqn:E; [done|].
    assert (Hin : (n, a) ∈ map_to_list m) by (rewrite E; left).
    apply elem_of_map_to_list, map_lookup_filter_Some in Hin as [H1 H2].
    simpl in H2. rewrite (Hall _ _ H1) in H2. discriminate.
Qed.

Lemma existing_unique s resource k n a :
  usage_alerts s !! n = Some a →
  UsageAlert.open_today s resource k a = true →
  (∀ n' a', usage_alerts s !! n' = Some a' →
            UsageAlert.open_today s resource k a' = true → n' = n) →
  UsageAlert.existing s resource k = [(n, a)].
Proof.
  intros Hn Ho Huniq.
  destruct (UsageAlert.existing s resource k) as [|[n' a'] l] eqn:E.
  - pose proof (proj1 (existing_nil s resource k) E) as E'.
    rewrite (E' _ _ Hn) in Ho. discriminate.
  - assert (Hin : (n', a') ∈ UsageAlert.existing s resource k)
      by (rewrite E; left).
    apply existing_sound in Hin as [H1 H2].
    assert (n' = n) as -> by eauto.
    assert (a' = a) as -> by congruence.
    assert (Hlen : (length (UsageAlert.existing s resource k) ≤ 1)%nat).
    { unfold UsageAlert.existing. rewrite length_take. lia. }
    rewrite E in Hlen. destruct l; [done|simpl in Hlen; lia].
Qed.

(** [create_alert] when today's open alert exists: it is updated. *)
Lemma create_alert_updates s resource k current limit send_email delivered n a :
  usage_alerts s !! n = Some a →
  UsageAlert.open_today s resource k a = true →
  (∀ n' a', usage_alerts s !! n' = Some a' →
            UsageAlert.open_today s resource k a' = true → n' = n) →
  UsageAlert.create_alert s resource k current limit send_email delivered
  = (UsageAlert.save n (UsageAlert.set_current_usage current a) s, n, []).
Proof.
  intros Hn Ho Huniq. unfold UsageAlert.create_alert.
  rewrite (existing_unique s resource k n a) by done. by rewrite Hn.
Qed.


(** [create_alert] when the duplicate check finds a row: that row's alert
    is updated. *)
Lemma create_alert_updates_found s resource k current limit send_email delivered n a :
  usage_alerts s !! n = Some a →
  UsageAlert.open_today s resource k a = true →
  ∃ n0 a0, usage_alerts s !! n0 = Some a0
           ∧ UsageAlert.open_today s resource k a0 = true
           ∧ UsageAlert.create_alert s resource k current limit send_email delivered
             = (UsageAlert.save n0 (UsageAlert.set_current_usage current a0) s, n0, []).
Proof.
  intros Hn Ho. unfold UsageAlert.create_alert.
  destruct (UsageAlert.existing s resource k) as [|[n0 a0] l] eqn:E.
  - pose proof (proj1 (existing_nil s resource k) E) as E'.
    rewrite (E' _ _ Hn) in Ho. discriminate.
  - assert (Hin : (n0, a0) ∈ UsageAlert.existing s resource k)
      by (rewrite E; left).
    apply existing_sound in Hin as [H1 H2].
    exists n0, a0. by rewrite H1.
Qed.

Lemma open_today_same_day s1 s2 resource k a :
  today s1 = today s2 →
  UsageAlert.open_today s1 resource k a = UsageAlert.open_today s2 resource k a.
Proof. unfold UsageAlert.open_today. by intros ->. Qed.

(** The fields an alert keeps through the bookkeeping of a notification. *)
Lemma set_notified_keeps to a :
  let a' := UsageAlert.validate (UsageAlert.set_notified to a) in
  resource_type a' = resource_type a ∧ kind a' = kind a
  ∧ current_usage a' = current_usage a
  ∧ acknowledged a' = acknowledged a
  ∧ creation a' = creation a
  ∧ notification_sent a' = true.
Proof.
  destruct (validate_keeps (UsageAlert.set_notified to a))
    as (H1 & H2 & H3 & _ & H5 & H6 & H7).
  cbv zeta. rewrite H1, H2, H3, H5, H6, H7. done.
Qed.

(** What one [send_notification] call does: nothing, or a logged failure,
    or one email together with the sent-flag. *)
Lemma send_notification_cases s name delivered :
  let run := UsageAlert.send_notification s name delivered in
  (run.1 = s ∧ filter (λ e, UsageAlert.is_mail e = true) run.2 = [])
  ∨ (∃ a, usage_alerts s !! name = Some a
          ∧ notification_sent a = false
          ∧ Settings.send_alert_emails (settings s) = true
          ∧ delivered = true
          ∧ run.1 = UsageAlert.save name
                      (UsageAlert.set_notified (Settings.alert_email (settings s)) a) s
          ∧ filter (λ e, UsageAlert.is_mail e = true) run.2 = run.2
          ∧ length run.2 = 1%nat).
Proof.
  unfold UsageAlert.send_notification.
  destruct (usage_alerts s !! name) as [a|] eqn:Ha; [|by left].
  destruct (Settings.send_alert_emails (settings s)) eqn:E1; [|by left].
  destruct (Py.truthy_str (Settings.alert_email (settings s))); [|by left].
  destruct (notification_sent a) eqn:E3; [by left|].
  destruct delivered; [|by left].
  right. exists a. simpl. done.
Qed.

Lemma send_notification_sent s name delivered a :
  usage_alerts s !! name = Some a → notification_sent a = true →
  UsageAlert.send_notification s name delivered = (s, []).
Proof.
  intros Ha Hs. unfold UsageAlert.send_notification. rewrite Ha, Hs.
  destruct (Settings.send_alert_emails (settings s)); [|done].
  by destruct (Py.truthy_str (Settings.alert_email (settings s))).
Qed.

Lemma send_notification_missing s name delivered :
  usage_alerts s !! name = None →
  UsageAlert.send_notification s name delivered = (s, []).
Proof. intros Ha. unfold UsageAlert.send_notification. by rewrite Ha. Qed.

Lemma send_notifications_sent s name deliveries a :
  usage_alerts s !! name = Some a → notification_sent a = true →
  UsageAlert.send_notifications s name deliveries = (s, []).
Proof.
  intros Ha Hs. induction deliveries as [|d ds IH]; simpl; [done|].
  rewrite (send_notification_sent s name d a) by done. by rewrite IH.
Qed.

(** However often [send_notification] is called on an alert, at most one
    email leaves. *)
Lemma send_notifications_once deliveries : ∀ s name,
  (length (filter (λ e, UsageAlert.is_mail e = true)
             (UsageAlert.send_notifications s name deliveries).2) ≤ 1)%nat.
Proof.
  induction deliveries as [|d ds IH]; intros s name; simpl; [lia|].
  destruct (send_notification_cases s name d) as [[Hs Ht] | (a & Ha & _ & _ & _ & Hs & Ht & Hl)].
  - destruct (UsageAlert.send_notification s name d) as [s1 t1]. simpl in *. subst s1.
    specialize (IH s name).
    destruct (UsageAlert.send_notifications s name ds) as [s2 t2]. simpl in *.
    rewrite filter_app, length_app, Ht. simpl. lia.
  - destruct (UsageAlert.send_notification s name d) as [s1 t1]. simpl in *. subst s1.
    destruct (set_notified_keeps (Settings.alert_email (settings s)) a)
      as (_ & _ & _ & _ & _ & Hsent).
    rewrite (send_notifications_sent _ name ds
               (UsageAlert.validate
                  (UsageAlert.set_notified (Settings.alert_email (settings s)) a))).
    + simpl. rewrite app_nil_r, Ht. lia.
    + unfold UsageAlert.save. simpl. apply lookup_insert_eq.
    + exact Hsent.
Qed.


(** [create_alert] when no open alert of today exists: a new document. *)
Lemma create_alert_creates s resource k current limit send_email delivered :
  (∀ n a, usage_alerts s !! n = Some a →
          UsageAlert.open_today s resource k a = false) →
  let run := UsageAlert.create_alert s resource k current limit send_email delivered in
  let name := run.1.2 in
  name = UsageAlert.new_name s
  ∧ usage_alerts s !! name = None
  ∧ now run.1.1 = now s
  ∧ (∃ a', usage_alerts run.1.1 !! name = Some a'
           ∧ resource_type a' = resource ∧ kind a' = k
           ∧ current_usage a' = current ∧ acknowledged a' = false
           ∧ creation a' = now s)
  ∧ (∀ n', n' ≠ name → usage_alerts run.1.1 !! n' = usage_alerts s !! n')
  ∧ dom (usage_alerts run.1.1) = {[name]} ∪ dom (usage_alerts s)
  ∧ (length (filter (λ e, UsageAlert.is_mail e = true) run.2) ≤ 1)%nat.
Proof.
  intros Hnone. unfold UsageAlert.create_alert.
  rewrite (proj2 (existing_nil s resource k) Hnone). cbv zeta.
  set (alert := UsageAlert.new_alert s resource k _ current limit).
  set (name := UsageAlert.new_name s).
  assert (Hfresh : usage_alerts s !! name = None).
  { apply not_elem_of_dom. unfold name, UsageAlert.new_name. apply is_fresh. }
  destruct (validate_keeps alert) as (V1 & V2 & V3 & _ & V5 & V6 & V7).
  destruct send_email.
  - destruct (send_notification_cases (UsageAlert.save name alert s) name delivered)
      as [[Hs Ht] | (a & Ha & _ & _ & _ & Hs & Ht & Hl)];
      destruct (UsageAlert.send_notification (UsageAlert.save name alert s) name delivered)
        as [s1 t1]; simpl in Hs, Ht |- *; subst s1.
    + split; [done|]. split; [done|]. split; [done|]. split.
      { exists (UsageAlert.validate alert). simpl. rewrite lookup_insert_eq. done. }
      split; [intros n' Hn'; simpl; by rewrite lookup_insert_ne|].
      split; [simpl; apply dom_insert_L|]. rewrite Ht. simpl. lia.
    + simpl in Ha. rewrite lookup_insert_eq in Ha. injection Ha as <-.
      destruct (set_notified_keeps (Settings.alert_email (settings s))
                  (UsageAlert.validate alert)) as (N1 & N2 & N3 & N4 & N5 & _).
      split; [done|]. split; [done|]. split; [done|]. split.
      { eexists. simpl. rewrite lookup_insert_eq. split; [done|].
        rewrite N1, N2, N3, N4, N5, V1, V2, V3, V5, V7. done. }
      split; [intros n' Hn'; simpl; by rewrite !lookup_insert_ne|].
      split.
      { simpl. rewrite !dom_insert_L.
        by rewrite (assoc_L (∪)), (idemp_L (∪)). }
      rewrite Ht. simpl in Hl. lia.
  - simpl. split; [done|]. split; [done|]. split; [done|]. split.
    { exists (UsageAlert.validate alert). rewrite lookup_insert_eq. done. }
    split; [intros n' Hn'; by rewrite lookup_insert_ne|].
    split; [apply dom_insert_L|lia].
Qed.

Lemma create_alert_mails s resource k current limit send_email delivered :
  (length (filter (λ e, UsageAlert.is_mail e = true)
             (UsageAlert.create_alert s resource k current limit send_email delivered).2)
   ≤ 1)%nat.
Proof.
  destruct (UsageAlert.existing s resource k) as [|[n a] l] eqn:E.
  - apply create_alert_creates. by apply existing_nil.
  - unfold UsageAlert.create_alert. rewrite E.
    destruct (usage_alerts s !! n); simpl; lia.
Qed.


Lemma acknowledge_lookup s n a user :
  usage_alerts s !! n = Some a →
  ∃ a0, usage_alerts (UsageAlert.acknowledge s n user)
        = <[n := a0]> (usage_alerts s)
        ∧ acknowledged a0 = true
        ∧ today (UsageAlert.acknowledge s n user) = today s.
Proof.
  intros Ha. unfold UsageAlert.acknowledge. rewrite Ha.
  eexists. split; [reflexivity|]. split; [|done].
  by destruct (validate_keeps
                 (UsageAlert.set_acknowledged
                    (if Py.truthy_str user then default "" user else session_user s)
                    (now s) a)) as (_ & _ & _ & _ & -> & _).
Qed.

Lemma open_today_acknowledged s resource k a :
  acknowledged a = true → UsageAlert.open_today s resource k a = false.
Proof.
  intros Ha. unfold UsageAlert.open_today. rewrite Ha. simpl.
  by rewrite andb_false_r.
Qed.

Lemma date_of_le t : date_of t ≤ t.
Proof.
  unfold date_of. pose proof (Z.mod_pos_bound t day_us eq_refl). lia.
Qed.

End Alerts.

(** C6. While an alert of today for a resource kind and alert kind is open
    (unacknowledged), [create_alert] creates no document: it writes the
    latest usage into such an alert (into that alert, when it is the only
    one) and sends nothing.  So two calls on one
    day, starting with no open alert, leave one new alert, holding the
    usage of the second call.  Once the open alert is acknowledged, the
    next call inserts a new document under a name no document had, and the
    acknowledged one stays.  An alert whose sent-flag is set is never
    mailed again: any series of [send_notification] calls on one alert,
    and any single [create_alert] call, sends at most one email. *)
Theorem create_alert_idempotent
    (s : Site) (resource : string) (k : UsageAlertDoc.alert_type) (limit : Q) :
  (∀ n a current send_email delivered,
     usage_alerts s !! n = Some a →
     UsageAlert.open_today s resource k a = true →
     let run := UsageAlert.create_alert s resource k current limit send_email delivered in
     (∃ a0, usage_alerts s !! run.1.2 = Some a0
            ∧ UsageAlert.open_today s resource k a0 = true)
     ∧ dom (usage_alerts run.1.1) = dom (usage_alerts s)
     ∧ (∃ a', usage_alerts run.1.1 !! run.1.2 = Some a'
              ∧ UsageAlertDoc.current_usage a' = current
              ∧ UsageAlertDoc.acknowledged a' = false)
     ∧ (∀ n', n' ≠ run.1.2 → usage_alerts run.1.1 !! n' = usage_alerts s !! n')
     ∧ run.2 = [])
  ∧ (∀ n a current send_email delivered,
     usage_alerts s !! n = Some a →
     UsageAlert.open_today s resource k a = true →
     (∀ n' a', usage_alerts s !! n' = Some a' →
               UsageAlert.open_today s resource k a' = true → n' = n) →
     let run := UsageAlert.create_alert s resource k current limit send_email delivered in
     run.1.2 = n
     ∧ dom (usage_alerts run.1.1) = dom (usage_alerts s)
     ∧ (∃ a', usage_alerts run.1.1 !! n = Some a'
              ∧ UsageAlertDoc.current_usage a' = current
              ∧ UsageAlertDoc.acknowledged a' = false)
     ∧ (∀ n', n' ≠ n → usage_alerts run.1.1 !! n' = usage_alerts s !! n')
     ∧ run.2 = [])
  ∧ (∀ current1 current2 send1 send2 delivered1 delivered2 t,
       (∀ n a, usage_alerts s !! n = Some a →
               UsageAlert.open_today s resource k a = false) →
       date_of t = today s →
       let first :=
         UsageAlert.create_alert s resource k current1 limit send1 delivered1 in
       let second :=
         UsageAlert.create_alert (with_now t first.1.1) resource k current2 limit
           send2 delivered2 in
       second.1.2 = first.1.2
       ∧ usage_alerts s !! first.1.2 = None
       ∧ dom (usage_alerts second.1.1) = {[first.1.2]} ∪ dom (usage_alerts s)
       ∧ (∃ a', usage_alerts second.1.1 !! first.1.2 = Some a'
                ∧ UsageAlertDoc.current_usage a' = current2)
       ∧ second.2 = [])
  ∧ (∀ n a user current send_email delivered,
       usage_alerts s !! n = Some a →
       UsageAlert.open_today s resource k a = true →
       (∀ n' a', usage_alerts s !! n' = Some a' →
                 UsageAlert.open_today s resource k a' = true → n' = n) →
       let s1 := UsageAlert.acknowledge s n user in
       let run :=
         UsageAlert.create_alert s1 resource k current limit send_email delivered in
       run.1.2 ≠ n
       ∧ usage_alerts s !! run.1.2 = None
       ∧ (∃ a0, usage_alerts s1 !! n = Some a0
                ∧ UsageAlertDoc.acknowledged a0 = true
                ∧ usage_alerts run.1.1 !! n = Some a0)
       ∧ (∃ a', usage_alerts run.1.1 !! run.1.2 = Some a'
                ∧ UsageAlertDoc.resource_type a' = resource
                ∧ UsageAlertDoc.kind a' = k
                ∧ UsageAlertDoc.current_usage a' = current
                ∧ UsageAlertDoc.acknowledged a' = false))
  ∧ (∀ name a delivered,
       usage_alerts s !! name = Some a →
       UsageAlertDoc.notification_sent a = true →
       UsageAlert.send_notification s name delivered = (s, []))
  ∧ (∀ name deliveries,
       (length (filter (λ e, UsageAlert.is_mail e = true)
                  (UsageAlert.send_notifications s name deliveries).2) ≤ 1)%nat)
  ∧ (∀ current send_email delivered,
       (length (filter (λ e, UsageAlert.is_mail e = true)
                  (UsageAlert.create_alert s resource k current limit
                     send_email delivered).2) ≤ 1)%nat).
Proof.
  split; [|split; [|split; [|split; [|split; [|split]]]]].
  - intros n a current send_email delivered Ha Ho run. unfold run.
    destruct (create_alert_updates_found s resource k current limit
                send_email delivered n a Ha Ho) as (n0 & a0 & Ha0 & Ho0 & ->).
    simpl.
    destruct (validate_keeps (UsageAlert.set_current_usage current a0))
      as (_ & _ & V3 & _ & V5 & _).
    split; [eauto|]. split.
    { rewrite dom_insert_L. apply subseteq_union_1_L, singleton_subseteq_l.
      by apply elem_of_dom_2 in Ha0. }
    split.
    { eexists. rewrite lookup_insert_eq. split; [done|]. rewrite V3, V5.
      split; [done|]. simpl. unfold UsageAlert.open_today in Ho0.
      by destruct (UsageAlertDoc.acknowledged a0);
        [rewrite andb_false_r in Ho0|]. }
    split; [|done]. intros n' Hn'. by rewrite lookup_insert_ne.
  - intros n a current send_email delivered Ha Ho Huniq run. unfold run.
    rewrite (create_alert_updates _ _ _ _ _ _ _ n a) by done. simpl.
    destruct (validate_keeps (UsageAlert.set_current_usage current a))
      as (_ & _ & V3 & _ & V5 & _).
    split; [done|]. split.
    { rewrite dom_insert_L. apply subseteq_union_1_L, singleton_subseteq_l.
      by apply elem_of_dom_2 in Ha. }
    split.
    { eexists. rewrite lookup_insert_eq. split; [done|]. rewrite V3, V5.
      split; [done|]. simpl. unfold UsageAlert.open_today in Ho.
      by destruct (UsageAlertDoc.acknowledged a);
        [rewrite andb_false_r in Ho|]. }
    split; [|done]. intros n' Hn'. by rewrite lookup_insert_ne.
  - intros current1 current2 send1 send2 delivered1 delivered2 t Hnone Ht first second.
    destruct (create_alert_creates s resource k current1 limit send1 delivered1 Hnone)
      as (Hname & Hfresh & Hnow & (a1 & Ha1 & R1 & R2 & R3 & R4 & R5) & Hother & Hdom & _).
    fold first in Hname, Hfresh, Hnow, Ha1, Hother, Hdom.
    set (s1 := with_now t first.1.1).
    assert (Htoday : today s1 = today s) by done.
    assert (Hopen : UsageAlert.open_today s1 resource k a1 = true).
    { unfold UsageAlert.open_today. rewrite R1, R2, R4, R5, Htoday.
      rewrite String.eqb_refl, bool_decide_eq_true_2 by done. simpl.
      apply Z.leb_le, date_of_le. }
    assert (Huniq : ∀ n' a', usage_alerts s1 !! n' = Some a' →
                             UsageAlert.open_today s1 resource k a' = true →
                             n' = first.1.2).
    { intros n' a' Hn' Ho'. destruct (decide (n' = first.1.2)) as [|Hne]; [done|].
      simpl in Hn'. rewrite Hother in Hn' by done.
      rewrite (open_today_same_day s1 s) in Ho' by done.
      rewrite (Hnone _ _ Hn') in Ho'. discriminate. }
    unfold second. fold s1.
    rewrite (create_alert_updates s1 _ _ _ _ _ _ first.1.2 a1) by done.
    simpl.
    destruct (validate_keeps (UsageAlert.set_current_usage current2 a1))
      as (_ & _ & V3 & _).
    split; [done|]. split; [done|]. split.
    { rewrite dom_insert_L, Hdom. by rewrite (assoc_L (∪)), (idemp_L (∪)). }
    split; [|done]. eexists. rewrite lookup_insert_eq. split; [done|]. by rewrite V3.
  - intros n a user current send_email delivered Ha Ho Huniq s1 run.
    destruct (acknowledge_lookup s n a user Ha) as (a0 & Hs1 & Hack & Htoday).
    fold s1 in Hs1, Htoday.
    assert (Hnone : ∀ n' a', usage_alerts s1 !! n' = Some a' →
                             UsageAlert.open_today s1 resource k a' = false).
    { intros n' a' Hn'. rewrite Hs1 in Hn'.
      destruct (decide (n' = n)) as [->|Hne].
      - rewrite lookup_insert_eq in Hn'. injection Hn' as <-.
        by apply open_today_acknowledged.
      - rewrite lookup_insert_ne in Hn' by done.
        rewrite (open_today_same_day s1 s) by done.
        destruct (UsageAlert.open_today s resource k a') eqn:E; [|done].
        by specialize (Huniq _ _ Hn' E). }
    destruct (create_alert_creates s1 resource k current limit send_email delivered Hnone)
      as (Hname & Hfresh & _ & (a' & Ha' & R1 & R2 & R3 & R4 & _) & Hother & _).
    fold run in Hname, Hfresh, Ha', Hother.
    assert (Hne : run.1.2 ≠ n).
    { intros Heq. rewrite Heq, Hs1, lookup_insert_eq in Hfresh. discriminate. }
    split; [done|]. split.
    { rewrite Hs1, lookup_insert_ne in Hfresh by done. done. }
    split.
    { exists a0. rewrite Hother by done. rewrite Hs1, lookup_insert_eq. done. }
    exists a'. done.
  - intros name a delivered. apply send_notification_sent.
  - intros name deliveries. apply send_notifications_once.
  - intros current send_email delivered. apply create_alert_mails.
Qed.

(** C6 on a site that mails alerts: after a first warning at 8000 calls, a
    second call at 9000 returns the same alert, now holding 9000, and
    sends nothing; after the alert is acknowledged, the next call opens
    another one. *)
Lemma create_alert_idempotent_witness :
  let first := UsageAlert.new_name AlertExample.site in
  (UsageAlert.create_alert AlertExample.warned "api_calls" UsageAlertDoc.Warning
     9000 10000 true true).1.2 = first
  ∧ (UsageAlert.create_alert AlertExample.warned "api_calls" UsageAlertDoc.Warning
       9000 10000 true true).2 = []
  ∧ (UsageAlert.create_alert
       (UsageAlert.acknowledge AlertExample.warned first None)
       "api_calls" UsageAlertDoc.Warning 9500 10000 true true).1.2 ≠ first.
Proof.
  intros first.
  destruct (create_alert_idempotent AlertExample.warned "api_calls"
              UsageAlertDoc.Warning 10000) as (_ & H1 & _ & H3 & _).
  assert (Huniq : ∀ n' a', usage_alerts AlertExample.warned !! n' = Some a' →
                           UsageAlert.open_today AlertExample.warned "api_calls"
                             UsageAlertDoc.Warning a' = true → n' = first).
  { intros n' a' Hn' _. destruct (decide (n' = first)) as [|Hne]; [done|].
    exfalso. revert Hn'.
    change (usage_alerts AlertExample.warned)
      with (<[first := UsageAlert.validate
                (UsageAlert.set_notified (Some "admin@example.com")
                   (UsageAlert.validate
                      (UsageAlert.new_alert AlertExample.site "api_calls"
                         UsageAlertDoc.Warning 80 8000 10000)))]>
              (∅ : gmap string UsageAlertDoc.t)).
    rewrite lookup_insert_ne by done. by rewrite lookup_empty. }
  split; [|split].
  - eapply (H1 first _ 9000%Q true true); [reflexivity | reflexivity | exact Huniq].
  - eapply (H1 first _ 9000%Q true true); [reflexivity | reflexivity | exact Huniq].
  - eapply (H3 first _ None 9500%Q true true); [reflexivity | reflexivity | exact Huniq].
Defined.

(** * Further properties *)

(** ** Limit states *)

Lemma percentage_mono c1 c2 limit :
  (0 < limit)%Q → (c1 <= c2)%Q →
  (Metering.percentage c1 limit <= Metering.percentage c2 limit)%Q.
Proof.
  intros Hl Hc. unfold Metering.percentage, Qdiv.
  apply Qmult_le_compat_r; [|discriminate].
  apply Qmult_le_compat_r; [done|].
  apply Qinv_le_0_compat. by apply Qlt_le_weak.
Qed.

(** X1. More usage never lowers the state: at the same settings and the same
    positive limit, the site with the greater usage has a state at least
    as high in the order ok < warning < exceeded. *)
Theorem check_limits_monotone (s1 s2 : Site) (resource : string) :
  settings s1 = settings s2 →
  Licensing.get_resource_limit s1 resource = Licensing.get_resource_limit s2 resource →
  (0 < Licensing.get_resource_limit s1 resource)%Q →
  (Metering.get_current_usage s1 resource <= Metering.get_current_usage s2 resource)%Q →
  (Measures.rank (Metering.check_limits s1 resource)
   ≤ Measures.rank (Metering.check_limits s2 resource))%nat.
Proof.
  intros Hset Hlim Hpos Hle.
  assert (Hnz : ¬ (Licensing.get_resource_limit s1 resource == 0)%Q).
  { intros H. rewrite H in Hpos. discriminate Hpos. }
  rewrite (check_limits_cascade s1) by done.
  rewrite (check_limits_cascade s2) by (by rewrite <- Hlim).
  cbv zeta. rewrite <- Hlim, <- Hset.
  pose proof (percentage_mono _ _ _ Hpos Hle) as Hp.
  set (p1 := Metering.percentage (Metering.get_current_usage s1 resource) _) in *.
  set (p2 := Metering.percentage (Metering.get_current_usage s2 resource) _) in *.
  set (hard := Settings.hard_limit_threshold (settings s1)).
  set (warn := Settings.warning_threshold (settings s1)).
  destruct (Py.geb p1 hard) eqn:E1.
  - apply geb_true in E1.
    rewrite (proj2 (geb_true p2 hard)); [done|]. lra.
  - destruct (Py.geb p1 warn) eqn:E2.
    + apply geb_true in E2.
      destruct (Py.geb p2 hard); [simpl; lia|].
      rewrite (proj2 (geb_true p2 warn)); [done|]. lra.
    + simpl. lia.
Qed.

(** Monotonicity between 7999 and 8000 calls against a limit of 10000: the
    state rises from ok to warning. *)
Lemma check_limits_monotone_witness :
  (Measures.rank (Metering.check_limits (Examples.api_usage 7999) "api_calls")
   ≤ Measures.rank (Metering.check_limits (Examples.api_usage 8000) "api_calls"))%nat.
Proof.
  apply check_limits_monotone.
  - reflexivity.
  - reflexivity.
  - vm_compute. reflexivity.
  - vm_compute. discriminate.
Defined.




(** ** Overage is never negative *)

Lemma round_half_even_nonneg (y : Q) : (0 <= y)%Q → 0 ≤ Py.round_half_even y.
Proof.
  intros Hy. unfold Py.round_half_even.
  assert (Hf : 0 ≤ Qfloor y).
  { change 0 with (Qfloor 0). by apply Qfloor_resp_le. }
  destruct (Qcompare (y - inject_Z (Qfloor y)) (1 # 2)); [|lia|lia].
  destruct (Z.even (Qfloor y)); lia.
Qed.

Lemma round_nonneg (x : Q) (d : nat) : (0 <= x)%Q → (0 <= Py.round x d)%Q.
Proof.
  intros Hx. unfold Py.round.
  assert (Hs : (0 < 10 ^ Z.of_nat d)%Z) by (apply Z.pow_pos_nonneg; lia).
  set (s := 10 ^ Z.of_nat d) in *.
  assert (Hs' : (0 < inject_Z s)%Q).
  { unfold Qlt. simpl. lia. }
  assert (Hn : 0 ≤ Py.round_half_even (x * inject_Z s)).
  { apply round_half_even_nonneg. apply Qmult_le_0_compat; [done|].
    by apply Qlt_le_weak. }
  unfold Qdiv. apply Qmult_le_0_compat.
  - unfold Qle. simpl. lia.
  - apply Qinv_le_0_compat. by apply Qlt_le_weak.
Qed.

(** Every entry of the rate table has a rate that is not negative and, when
    it has a block size, a positive one. *)
Lemma overage_rates_sane resource ri :
  UsageAlertDoc.OVERAGE_RATES !! resource = Some ri →
  (0 <= UsageAlertDoc.rate ri)%Q
  ∧ ∀ n, UsageAlertDoc.per ri = Some n → (0 < n)%Q.
Proof.
  intros H. unfold UsageAlertDoc.OVERAGE_RATES in H.
  apply elem_of_list_to_map_2 in H.
  repeat (apply elem_of_cons in H as [H|H];
          [injection H as -> ->; split;
           [vm_compute; discriminate | intros n [= <-]; reflexivity] |]);
    try (by apply elem_of_nil in H).
Qed.

Lemma raw_cost_nonneg resource quantity :
  (0 <= quantity)%Q →
  (0 <= UsageAlert.calculate_overage_cost resource quantity)%Q.
Proof.
  intros Hq. unfold UsageAlert.calculate_overage_cost.
  destruct (UsageAlertDoc.OVERAGE_RATES !! resource) as [ri|] eqn:E; simpl.
  - destruct (overage_rates_sane _ _ E) as [Hr Hper].
    destruct (UsageAlertDoc.per ri) as [n|] eqn:En; simpl.
    + specialize (Hper n eq_refl).
      destruct (Py.ltb 1 n).
      * apply Qmult_le_0_compat; [|done]. unfold Qdiv.
        apply Qmult_le_0_compat; [done|].
        apply Qinv_le_0_compat. by apply Qlt_le_weak.
      * by apply Qmult_le_0_compat.
    + by apply Qmult_le_0_compat.
  - rewrite Qmult_0_r. discriminate.
Qed.

Lemma calculate_overage_cost_form s resource :
  ¬ (Licensing.get_resource_limit s resource == 0)%Q →
  (Licensing.get_resource_limit s resource
   < Metering.get_current_usage s resource)%Q →
  Metering.overage_cost (Metering.calculate_overage s resource)
  = Py.round (UsageAlert.calculate_overage_cost resource
                (Metering.get_current_usage s resource
                 - Licensing.get_resource_limit s resource)) 2.
Proof.
  intros Hl Hc. by rewrite calculate_overage_some.
Qed.

(** The two outcomes of [calculate_overage]. *)
Lemma calculate_overage_cases (s : Site) (resource : string) :
  let r := Metering.calculate_overage s resource in
  (r = Metering.no_overage
   ∧ ((Licensing.get_resource_limit s resource == 0)%Q
      ∨ (Metering.get_current_usage s resource
         <= Licensing.get_resource_limit s resource)%Q))
  ∨ (¬ (Licensing.get_resource_limit s resource == 0)%Q
     ∧ (Licensing.get_resource_limit s resource
        < Metering.get_current_usage s resource)%Q
     ∧ Metering.exceeded_by r
       = (Metering.get_current_usage s resource
          - Licensing.get_resource_limit s resource)%Q
     ∧ (0 <= Metering.overage_cost r)%Q).
Proof.
  intros r. unfold r.
  destruct (Qeq_bool (Licensing.get_resource_limit s resource) 0) eqn:El.
  { apply Qeq_bool_iff in El. left.
    split; [apply calculate_overage_none|]; by left. }
  apply Qeq_bool_false in El.
  destruct (Qlt_le_dec (Licensing.get_resource_limit s resource)
              (Metering.get_current_usage s resource)) as [Hc|Hc].
  - right. split; [done|]. split; [done|].
    rewrite calculate_overage_cost_form by done.
    rewrite calculate_overage_some by done. cbv zeta. simpl.
    split; [done|]. apply round_nonneg, raw_cost_nonneg. lra.
  - left. split; [apply calculate_overage_none|]; by right.
Qed.

Lemma calculate_overage_cost_nonneg (s : Site) (resource : string) :
  (0 <= Metering.overage_cost (Metering.calculate_overage s resource))%Q.
Proof.
  destruct (calculate_overage_cases s resource) as [[-> _]|(_ & _ & _ & H)];
    [discriminate|exact H].
Qed.

Lemma calculate_overage_positive (s : Site) (resource : string) :
  (0 < Metering.exceeded_by (Metering.calculate_overage s resource))%Q
  ↔ ¬ (Licensing.get_resource_limit s resource == 0)%Q
    ∧ (Licensing.get_resource_limit s resource
       < Metering.get_current_usage s resource)%Q.
Proof.
  destruct (calculate_overage_cases s resource)
    as [[-> Hno]|(Hnz & Hlt & -> & _)].
  - split; [intros H; discriminate H|].
    intros [Hnz Hlt]. destruct Hno; [done|lra].
  - split; [done|]. intros _. lra.
Qed.

(** X3. Whatever the site and the resource name, [calculate_overage] reports an
    excess and a cost that are not negative, and the excess is positive
    exactly when the resource is limited and used beyond its limit. *)
Theorem calculate_overage_nonnegative (s : Site) (resource : string) :
  let r := Metering.calculate_overage s resource in
  (0 <= Metering.exceeded_by r)%Q
  ∧ (0 <= Metering.overage_cost r)%Q
  ∧ ((0 < Metering.exceeded_by r)%Q
     ↔ ¬ (Licensing.get_resource_limit s resource == 0)%Q
       ∧ (Licensing.get_resource_limit s resource
          < Metering.get_current_usage s resource)%Q).
Proof.
  intros r.
  destruct (calculate_overage_cases s resource) as [[Hr Hno]|(Hnz & Hlt & He & Hc)];
    fold r in Hr || fold r in He, Hc.
  - rewrite Hr. simpl.
    split; [discriminate|]. split; [discriminate|].
    split; [intros H; discriminate H|].
    intros [Hnz Hlt]. destruct Hno; [done|lra].
  - rewrite He.
    split; [lra|]. split; [exact Hc|].
    split; [done|]. intros _. lra.
Qed.

(** ** The time a request spends backing off *)

Lemma total_sleep_app t1 t2 :
  Measures.total_sleep (t1 ++ t2) = Measures.total_sleep t1 + Measures.total_sleep t2.
Proof.
  induction t1 as [|e t1 IH]; simpl; [done|].
  destruct e; rewrite ?IH; lia.
Qed.

Lemma request_loop_sleep rt req rc remaining : ∀ a last,
  (a + remaining = rc)%nat →
  0 ≤ Measures.total_sleep (CentralAPI.request_loop rt req rc remaining a last).2
  ∧ (remaining = 0%nat →
     Measures.total_sleep (CentralAPI.request_loop rt req rc remaining a last).2 = 0)
  ∧ ((0 < remaining)%nat →
     Measures.total_sleep (CentralAPI.request_loop rt req rc remaining a last).2
     ≤ 2 ^ (Z.of_nat rc - 1) - 2 ^ Z.of_nat a).
Proof.
  induction remaining as [|rem IH]; intros a last Hrc.
  { simpl. split; [lia|]. split; [done|lia]. }
  change (CentralAPI.request_loop rt req rc (S rem) a last)
    with (match CentralAPI.attempt_once (CentralAPI.net rt a) with
          | inl result => (result, [EHttp a req])
          | inr e =>
              let backoff :=
                if Z.of_nat a <? Z.of_nat rc - 1
                then [ESleep (2 ^ Z.of_nat a)] else [] in
              let '(result, trace) :=
                CentralAPI.request_loop rt req rc rem (S a) (Some e) in
              (result, EHttp a req :: backoff ++ trace)
          end).
  assert (Hpow : 0 < 2 ^ Z.of_nat a) by (apply Z.pow_pos_nonneg; lia).
  destruct (CentralAPI.attempt_once (CentralAPI.net rt a)) as [result|err].
  { cbn [snd Measures.total_sleep]. split; [lia|]. split; [done|]. intros _.
    assert (2 ^ Z.of_nat a ≤ 2 ^ (Z.of_nat rc - 1))
      by (apply Z.pow_le_mono_r; lia).
    lia. }
  specialize (IH (S a) (Some err) ltac:(lia)).
  destruct (CentralAPI.request_loop rt req rc rem (S a) (Some err)) as [r t].
  cbv zeta. cbn [snd Measures.total_sleep] in *. rewrite total_sleep_app.
  destruct IH as (IH1 & IH0 & IH2).
  split; [|split; [done|]]; [|intros _];
  destruct rem as [|rem'].
  - destruct (Z.of_nat a <? Z.of_nat rc - 1); cbn [Measures.total_sleep app]; lia.
  - destruct (Z.of_nat a <? Z.of_nat rc - 1); cbn [Measures.total_sleep app]; lia.
  - assert (Hs : (Z.of_nat a <? Z.of_nat rc - 1) = false) by (apply Z.ltb_ge; lia).
    rewrite Hs. cbn [Measures.total_sleep].
    assert (Hsimpl : Z.of_nat rc - 1 = Z.of_nat a) by lia. rewrite Hsimpl.
    specialize (IH0 eq_refl). lia.
  - assert (Hs : (Z.of_nat a <? Z.of_nat rc - 1) = true) by (apply Z.ltb_lt; lia).
    rewrite Hs. cbn [Measures.total_sleep].
    assert (Hsucc : 2 ^ Z.of_nat (S a) = 2 * 2 ^ Z.of_nat a).
    { rewrite Nat2Z.inj_succ, Z.pow_succ_r by lia. done. }
    specialize (IH2 ltac:(lia)). lia.
Qed.

(** X4. The backoff of one request is bounded: over all its attempts it sleeps
    at most [2 ^ (retry_count - 1) - 1] seconds, so at most 3 seconds for
    the 3 attempts every caller asks for; a call without a base URL raises
    before it sleeps at all. *)
Theorem make_request_sleep_bound
    (json_dumps : bool → json → string) (c : CentralAPI.client)
    (rt : CentralAPI.runtime) (method endpoint : string) (data : option dict)
    (retry_count : nat) :
  (0 < retry_count)%nat →
  let trace :=
    (CentralAPI._make_request json_dumps c rt method endpoint data retry_count).2 in
  0 ≤ Measures.total_sleep trace
  ∧ Measures.total_sleep trace ≤ 2 ^ (Z.of_nat retry_count - 1) - 1
  ∧ (retry_count = CentralAPI.default_retry_count → Measures.total_sleep trace ≤ 3)
  ∧ (CentralAPI.base_url c = None → trace = []).
Proof.
  intros Hpos trace.
  assert (Hp : 0 < 2 ^ (Z.of_nat retry_count - 1)) by (apply Z.pow_pos_nonneg; lia).
  assert (H : 0 ≤ Measures.total_sleep trace
              ∧ Measures.total_sleep trace ≤ 2 ^ (Z.of_nat retry_count - 1) - 1).
  { unfold trace, CentralAPI._make_request.
    destruct (CentralAPI.base_url c) as [base|]; simpl; [|lia].
    pose proof (request_loop_sleep rt
                  (CentralAPI.build_request json_dumps c rt base method endpoint data)
                  retry_count retry_count 0%nat None eq_refl) as [H1 H2].
    destruct H2 as [_ H2]. specialize (H2 Hpos).
    destruct (CentralAPI.request_loop rt _ retry_count retry_count 0 None) as [r t].
    cbn [snd] in *. split; [done|].
    change (2 ^ Z.of_nat 0) with 1 in H2. lia. }
  destruct H as [H1 H2]. split; [done|]. split; [done|]. split.
  - intros ->.
    change (2 ^ (Z.of_nat CentralAPI.default_retry_count - 1) - 1) with 3 in H2.
    exact H2.
  - intros Hb. unfold trace, CentralAPI._make_request. by rewrite Hb.
Qed.

(** Three failed attempts sleep 1 + 2 = 3 seconds, the bound. *)
Lemma make_request_sleep_bound_witness :
  Measures.total_sleep
    (CentralAPI._make_request SyncExample.json_dumps RetryExample.client
       SyncExample.failing "POST" "/method/ping" RetryExample.data 3).2 ≤ 3.
Proof.
  destruct (make_request_sleep_bound SyncExample.json_dumps RetryExample.client
              SyncExample.failing "POST" "/method/ping" RetryExample.data 3)
    as (_ & _ & H & _).
  - lia.
  - apply H. reflexivity.
Defined.


(** ** Saving an alert twice *)

Lemma alert_validate_normal_form (a : UsageAlertDoc.t) :
  UsageAlert.validate a
  = let c1 := Py.truthy (UsageAlertDoc.current_usage a)
              && Py.truthy (UsageAlertDoc.limit_value a)
              && Py.ltb 0 (UsageAlertDoc.limit_value a) in
    let c2 := (bool_decide (UsageAlertDoc.kind a = UsageAlertDoc.Exceeded)
               || bool_decide (UsageAlertDoc.kind a = UsageAlertDoc.Blocked))
              && Py.truthy (UsageAlertDoc.current_usage a)
              && Py.truthy (UsageAlertDoc.limit_value a)
              && Py.ltb 0 (UsageAlertDoc.current_usage a - UsageAlertDoc.limit_value a) in
    let rate_info :=
      default {| UsageAlertDoc.rate := 0; UsageAlertDoc.per := None;
                 UsageAlertDoc.unit := None |}
              (UsageAlertDoc.OVERAGE_RATES !! UsageAlertDoc.resource_type a) in
    {| UsageAlertDoc.resource_type := UsageAlertDoc.resource_type a;
       UsageAlertDoc.kind := UsageAlertDoc.kind a;
       UsageAlertDoc.threshold_percent := UsageAlertDoc.threshold_percent a;
       UsageAlertDoc.current_usage := UsageAlertDoc.current_usage a;
       UsageAlertDoc.limit_value := UsageAlertDoc.limit_value a;
       UsageAlertDoc.usage_percent :=
         if c1
         then Some ((UsageAlertDoc.current_usage a / UsageAlertDoc.limit_value a) * 100)%Q
         else UsageAlertDoc.usage_percent a;
       UsageAlertDoc.overage_amount :=
         if c2
         then Some (UsageAlert.calculate_overage_cost (UsageAlertDoc.resource_type a)
                      (UsageAlertDoc.current_usage a - UsageAlertDoc.limit_value a))
         else UsageAlertDoc.overage_amount a;
       UsageAlertDoc.overage_rate :=
         if c2
         then Some (UsageAlertDoc.rate rate_info,
                    default "unit" (UsageAlertDoc.unit rate_info))
         else UsageAlertDoc.overage_rate a;
       UsageAlertDoc.acknowledged := UsageAlertDoc.acknowledged a;
       UsageAlertDoc.acknowledged_by := UsageAlertDoc.acknowledged_by a;
       UsageAlertDoc.acknowledged_at := UsageAlertDoc.acknowledged_at a;
       UsageAlertDoc.notification_sent := UsageAlertDoc.notification_sent a;
       UsageAlertDoc.email_sent_to := UsageAlertDoc.email_sent_to a;
       UsageAlertDoc.creation := UsageAlertDoc.creation a |}.
Proof.
  destruct a as [rt k th cu lv up oa orate ack ackby ackat sent to cr].
  unfold UsageAlert.validate.
  cbn [UsageAlertDoc.current_usage UsageAlertDoc.limit_value UsageAlertDoc.kind
       UsageAlertDoc.resource_type].
  generalize (Py.truthy cu && Py.truthy lv && Py.ltb 0 lv). intros b1.
  destruct b1;
    cbn [UsageAlert.set_usage_percent UsageAlertDoc.current_usage
         UsageAlertDoc.limit_value UsageAlertDoc.kind UsageAlertDoc.resource_type];
    generalize ((bool_decide (k = UsageAlertDoc.Exceeded)
                 || bool_decide (k = UsageAlertDoc.Blocked))
                && Py.truthy cu && Py.truthy lv); intros b2;
    generalize (Py.ltb 0 (cu - lv)); intros b3;
    destruct b2, b3; reflexivity.
Qed.

(** X5. [UsageAlert.validate] is idempotent: a second save of an unchanged
    alert recomputes the same percentage and the same overage. *)
Theorem alert_validate_idempotent (a : UsageAlertDoc.t) :
  UsageAlert.validate (UsageAlert.validate a) = UsageAlert.validate a.
Proof.
  rewrite (alert_validate_normal_form (UsageAlert.validate a)).
  rewrite (alert_validate_normal_form a).
  cbv zeta.
  cbn [UsageAlertDoc.current_usage UsageAlertDoc.limit_value UsageAlertDoc.kind
       UsageAlertDoc.resource_type
       UsageAlertDoc.threshold_percent UsageAlertDoc.usage_percent
       UsageAlertDoc.overage_amount UsageAlertDoc.overage_rate
       UsageAlertDoc.acknowledged UsageAlertDoc.acknowledged_by
       UsageAlertDoc.acknowledged_at UsageAlertDoc.notification_sent
       UsageAlertDoc.email_sent_to UsageAlertDoc.creation].
  generalize (Py.truthy (UsageAlertDoc.current_usage a)
              && Py.truthy (UsageAlertDoc.limit_value a)
              && Py.ltb 0 (UsageAlertDoc.limit_value a)). intros b1.
  generalize ((bool_decide (UsageAlertDoc.kind a = UsageAlertDoc.Exceeded)
               || bool_decide (UsageAlertDoc.kind a = UsageAlertDoc.Blocked))
              && Py.truthy (UsageAlertDoc.current_usage a)
              && Py.truthy (UsageAlertDoc.limit_value a)
              && Py.ltb 0 (UsageAlertDoc.current_usage a - UsageAlertDoc.limit_value a)).
  intros b2. by destruct b1, b2.
Qed.



(** ** Recording usage and reading it back *)

Lemma usage_insert (s : Site) (n : string) (r : UsageRecord.t) (resource : string) :
  usage_records s !! n = None →
  (Metering.get_current_usage
     (with_usage_records (<[n := r]> (usage_records s)) s) resource
   == if UsageSum.counts s resource r
      then Metering.get_current_usage s resource + UsageRecord.quantity r
      else Metering.get_current_usage s resource)%Q.
Proof.
  intros Hn. unfold Metering.get_current_usage, UsageSum.counts. simpl.
  rewrite (map_fold_insert Qeq); [reflexivity | | | done].
  - intros j z x y Hxy. change (x == y)%Q in Hxy.
    destruct (_ && _); [apply Qplus_inj_r|]; exact Hxy.
  - intros j1 j2 z1 z2 y _ _ _.
    destruct (String.eqb (UsageRecord.resource_type z1) resource
              && (month_start s <=? date_of (UsageRecord.timestamp z1)));
      destruct (String.eqb (UsageRecord.resource_type z2) resource
                && (month_start s <=? date_of (UsageRecord.timestamp z2)));
      ring.
Qed.

Lemma usage_nonneg_table (s : Site) (resource : string) :
  (∀ n r, usage_records s !! n = Some r → (0 <= UsageRecord.quantity r)%Q) →
  (0 <= Metering.get_current_usage s resource)%Q.
Proof.
  unfold Metering.get_current_usage.
  generalize (usage_records s). intros m.
  apply (map_fold_weak_ind
           (λ acc m, (∀ n r, m !! n = Some r → (0 <= UsageRecord.quantity r)%Q)
                     → (0 <= acc)%Q)).
  - intros _. discriminate.
  - intros i x m' acc Hi IH Hall.
    assert (Hacc : (0 <= acc)%Q).
    { apply IH. intros n r Hr. apply (Hall n r).
      rewrite lookup_insert_ne; [done|]. intros ->. congruence. }
    assert (Hx : (0 <= UsageRecord.quantity x)%Q).
    { apply (Hall i x). apply lookup_insert_eq. }
    destruct (_ && _); [lra|done].
Qed.







(** X9. Usage is never negative when no record has a negative quantity, which
    is what [UsageRecord.validate] lets through. *)
Theorem usage_never_negative (s : Site) (resource : string) :
  (∀ n r, usage_records s !! n = Some r →
          Recording.validate r = inr r) →
  (0 <= Metering.get_current_usage s resource)%Q.
Proof.
  intros H. apply usage_nonneg_table. intros n r Hr.
  specialize (H n r Hr). unfold Recording.validate in H.
  destruct (Py.ltb (UsageRecord.quantity r) 0) eqn:E; [discriminate|].
  by apply ltb_false in E.
Qed.

Lemma usage_never_negative_witness :
  (0 <= Metering.get_current_usage (Examples.api_usage 100) "api_calls")%Q.
Proof.
  apply usage_never_negative. intros n r Hr.
  unfold Examples.api_usage, Examples.site in Hr. simpl in Hr.
  apply lookup_insert_Some in Hr as [[_ <-]|[_ Hr]]; [reflexivity|].
  by rewrite lookup_empty in Hr.
Defined.

(** ** The two usage queries agree *)

Lemma group_rows_lookup start rows resource :
  UsageSum.group_rows start rows !! resource
  = Some (UsageSum.sum_rows start resource rows)
  ∨ (UsageSum.group_rows start rows !! resource = None
     ∧ UsageSum.sum_rows start resource rows = 0%Q).
Proof.
  induction rows as [|[n r] rows IH].
  - right. split; [apply lookup_empty|done].
  - change (UsageSum.group_rows start ((n, r) :: rows))
      with (Recording.add_row start r (UsageSum.group_rows start rows)).
    change (UsageSum.sum_rows start resource ((n, r) :: rows))
      with (if String.eqb (UsageRecord.resource_type r) resource
               && (start <=? date_of (UsageRecord.timestamp r))
            then (UsageSum.sum_rows start resource rows + UsageRecord.quantity r)%Q
            else UsageSum.sum_rows start resource rows).
    unfold Recording.add_row.
    destruct (start <=? date_of (UsageRecord.timestamp r)) eqn:Et.
    + destruct (decide (UsageRecord.resource_type r = resource)) as [Heq|Hne].
      * rewrite Heq, String.eqb_refl, lookup_insert_eq. left.
        by destruct IH as [-> | [-> ->]].
      * rewrite lookup_insert_ne by done.
        rewrite (proj2 (String.eqb_neq _ _) Hne). exact IH.
    + rewrite andb_false_r. exact IH.
Qed.

Lemma fill_missing_lookup (resources : list string) : ∀ (usage : gmap string Q) resource,
  foldl Recording.fill_missing usage resources !! resource
  = match usage !! resource with
    | Some v => Some v
    | None => if decide (resource ∈ resources) then Some 0%Q else None
    end.
Proof.
  induction resources as [|x l IH]; intros usage resource.
  - simpl. destruct (usage !! resource); [done|].
    destruct (decide (resource ∈ [])) as [H|_]; [by apply elem_of_nil in H|done].
  - change (foldl Recording.fill_missing usage (x :: l))
      with (foldl Recording.fill_missing (Recording.fill_missing usage x) l).
    rewrite IH. unfold Recording.fill_missing.
    destruct (decide (x = resource)) as [->|Hne].
    + destruct (usage !! resource) as [v|] eqn:E.
      * by rewrite E.
      * rewrite lookup_insert_eq.
        destruct (decide (resource ∈ resource :: l)) as [_|Hn]; [done|].
        exfalso. apply Hn. left.
    + assert (Hsame : (match usage !! x with
                       | Some _ => usage
                       | None => <[x := 0%Q]> usage
                       end) !! resource = usage !! resource).
      { destruct (usage !! x); [done|]. by rewrite lookup_insert_ne. }
      rewrite Hsame. destruct (usage !! resource); [done|].
      destruct (decide (resource ∈ l)) as [Hin|Hin];
        destruct (decide (resource ∈ x :: l)) as [Hin'|Hin']; try done.
      * exfalso. apply Hin'. by right.
      * apply elem_of_cons in Hin' as [->|?]; done.
Qed.

Lemma get_all_usage_lookup s resource :
  Recording.get_all_usage s !! resource
  = if decide (resource ∈ Metering.all_resources)
    then Some (Metering.get_current_usage s resource)
    else match Recording.get_all_usage s !! resource with
         | Some _ => Some (Metering.get_current_usage s resource)
         | None => None
         end.
Proof.
  unfold Recording.get_all_usage, Metering.get_current_usage. cbv zeta.
  rewrite fill_missing_lookup, !map_fold_foldr.
  destruct (group_rows_lookup (month_start s) (map_to_list (usage_records s)) resource)
    as [H | [H H0]];
    unfold UsageSum.group_rows, UsageSum.sum_rows in H; rewrite H.
  - by destruct (decide (resource ∈ Metering.all_resources)).
  - unfold UsageSum.sum_rows in H0. rewrite H0.
    by destruct (decide (resource ∈ Metering.all_resources)).
Qed.

(** X10. [get_all_usage] agrees with [get_current_usage]: every figure it
    reports for a resource is that resource's current usage, and each of
    the nine resource kinds is reported, with 0 when the table is empty. *)
Theorem get_all_usage_agrees (s : Site) :
  (∀ resource v, Recording.get_all_usage s !! resource = Some v →
                 v = Metering.get_current_usage s resource)
  ∧ (∀ resource, resource ∈ Metering.all_resources →
                 Recording.get_all_usage s !! resource
                 = Some (Metering.get_current_usage s resource))
  ∧ (usage_records s = ∅ →
     ∀ resource, resource ∈ Metering.all_resources →
                 Recording.get_all_usage s !! resource = Some 0%Q).
Proof.
  split; [|split].
  - intros resource v Hv. rewrite get_all_usage_lookup in Hv.
    destruct (decide (resource ∈ Metering.all_resources)); [congruence|].
    destruct (Recording.get_all_usage s !! resource); congruence.
  - intros resource Hin. rewrite get_all_usage_lookup. by rewrite decide_True.
  - intros Hempty resource Hin. rewrite get_all_usage_lookup, decide_True by done.
    unfold Metering.get_current_usage. by rewrite Hempty, map_fold_empty.
Qed.

(** Three raw records of API calls and one of emails: the summary reports
    14 calls, as the single query does. *)
Lemma get_all_usage_agrees_witness :
  Recording.get_all_usage AggregateExample.site !! "api_calls"
  = Some (Metering.get_current_usage AggregateExample.site "api_calls").
Proof.
  apply (get_all_usage_agrees AggregateExample.site).
  apply list_elem_of_In. simpl. tauto.
Defined.

(** ** The quota gate *)

(** X11. [requires_quota] refuses a call, without running the function or
    recording anything, exactly when the resource is already in the
    exceeded state and blocking is switched on; the usage it refuses on is
    at or above the hard limit.  In every other case the function runs: if
    it returns, the usage is recorded on the site the function left and
    its result is handed back; if it raises, nothing is recorded.  Without
    a license no call is ever refused. *)
Theorem requires_quota_gate {A : Type} (resource : string) (quantity : Q)
    (func : Site → Site * outcome A) (s : Site) (enqueued : bool) :
  let run := Recording.requires_quota resource quantity func s enqueued in
  let blocked :=
    Metering.check_limits s resource = Metering.exceeded
    ∧ Settings.block_on_exceeded (settings s) = true in
  (blocked →
     (∃ message, run = (s, Raise message, []))
     ∧ (Settings.hard_limit_threshold (settings s)
        <= Metering.get_usage_percentage s resource)%Q)
  ∧ (¬ blocked →
     (∀ s1 result, func s = (s1, Return result) →
        run = ((Recording.record_usage s1 resource quantity None enqueued).1,
               Return result,
               (Recording.record_usage s1 resource quantity None enqueued).2))
     ∧ (∀ s1 e, func s = (s1, Raise e) → run = (s1, Raise e, [])))
  ∧ (Licensing.get_license s = None → ¬ blocked).
Proof.
  intros run blocked. unfold run, Recording.requires_quota.
  split; [|split].
  - intros [Hex Hb]. rewrite Hex, Hb, bool_decide_eq_true_2 by done. simpl.
    split; [eauto|].
    unfold Metering.get_usage_percentage.
    unfold Metering.check_limits in Hex.
    destruct (Qeq_bool (Licensing.get_resource_limit s resource) 0); [discriminate|].
    cbv zeta in Hex.
    destruct (Py.geb _ (Settings.hard_limit_threshold (settings s))) eqn:E.
    + by apply geb_true in E.
    + destruct (Py.geb _ (Settings.warning_threshold (settings s))); discriminate.
  - intros Hnb.
    assert (Hc : bool_decide (Metering.check_limits s resource = Metering.exceeded)
                 && Settings.block_on_exceeded (settings s) = false).
    { destruct (bool_decide _) eqn:E1; [|done].
      destruct (Settings.block_on_exceeded (settings s)) eqn:E2; [|done].
      exfalso. apply Hnb. split; [by apply bool_decide_eq_true in E1|done]. }
    rewrite Hc. split.
    + intros s1 result ->.
      by destruct (Recording.record_usage s1 resource quantity None enqueued).
    + by intros s1 e ->.
  - intros Hl [Hex _].
    rewrite check_limits_unlimited in Hex; [discriminate|].
    unfold Licensing.get_resource_limit. by rewrite Hl.
Qed.

(** The gate on a site at 100% of its API calls: the call is refused and
    the site is left as it was. *)
Lemma requires_quota_gate_witness :
  ∃ message,
    Recording.requires_quota "api_calls" 1 QuotaExample.endpoint
      QuotaExample.at_limit true
    = (QuotaExample.at_limit, Raise message, []).
Proof.
  destruct (requires_quota_gate "api_calls" 1 QuotaExample.endpoint
              QuotaExample.at_limit true) as (H & _ & _).
  destruct H as [H _]; [|exact H].
  split; vm_compute; reflexivity.
Defined.

(** ** The scheduled jobs and the usage figures *)

Lemma usage_table_insert (s : Site) (resource : string) m n r :
  m !! n = None →
  (Metering.get_current_usage (with_usage_records (<[n := r]> m) s) resource
   == Metering.get_current_usage (with_usage_records m s) resource
      + UsageSum.share s resource (Some r))%Q.
Proof.
  intros Hn.
  rewrite (usage_insert (with_usage_records m s) n r resource Hn).
  unfold UsageSum.share, UsageSum.counts. simpl.
  destruct (_ && _); ring.
Qed.

(** Two tables whose rows add the same to a resource give the same usage. *)
Lemma usage_table_ext (s : Site) (resource : string) (m : gmap string UsageRecord.t) :
  ∀ m' : gmap string UsageRecord.t,
    (∀ n, (UsageSum.share s resource (m !! n)
           == UsageSum.share s resource (m' !! n))%Q) →
    (Metering.get_current_usage (with_usage_records m s) resource
     == Metering.get_current_usage (with_usage_records m' s) resource)%Q.
Proof.
  induction m as [|i x m Hi IH] using map_ind; intros m' H.
  - induction m' as [|i x m' Hi IH'] using map_ind; [reflexivity|].
    rewrite usage_table_insert by done.
    rewrite <- IH'.
    + specialize (H i). rewrite lookup_empty, lookup_insert_eq in H.
      rewrite <- H. simpl. ring.
    + intros n. rewrite lookup_empty. simpl.
      destruct (decide (n = i)) as [->|Hne]; [by rewrite Hi|].
      specialize (H n). rewrite lookup_empty, lookup_insert_ne in H by done.
      exact H.
  - rewrite usage_table_insert by done.
    pose proof (H i) as Hx. rewrite lookup_insert_eq in Hx.
    destruct (m' !! i) as [x'|] eqn:Hi'.
    + rewrite <- (insert_delete_id m' i x' Hi').
      rewrite usage_table_insert by apply lookup_delete_eq.
      rewrite (IH (delete i m')), Hx; [reflexivity|].
      intros n. destruct (decide (n = i)) as [->|Hne].
      * by rewrite Hi, lookup_delete_eq.
      * rewrite lookup_delete_ne by done.
        specialize (H n). by rewrite lookup_insert_ne in H.
    + rewrite (IH m'), Hx; [simpl; ring|].
      intros n. destruct (decide (n = i)) as [->|Hne].
      * by rewrite Hi, Hi'.
      * specialize (H n). by rewrite lookup_insert_ne in H.
Qed.

(** Sites that differ only in rows adding the same to a resource report
    the same usage of it. *)
Lemma usage_ext (s s' : Site) (resource : string) :
  month_start s' = month_start s →
  (∀ n, (UsageSum.share s resource (usage_records s' !! n)
         == UsageSum.share s resource (usage_records s !! n))%Q) →
  (Metering.get_current_usage s' resource == Metering.get_current_usage s resource)%Q.
Proof.
  intros Hm H.
  transitivity (Metering.get_current_usage
                  (with_usage_records (usage_records s') s) resource).
  - unfold Metering.get_current_usage. simpl. rewrite Hm. reflexivity.
  - by apply (usage_table_ext s resource (usage_records s') (usage_records s)).
Qed.

Lemma geb_ext x x' y : (x == x')%Q → Py.geb x y = Py.geb x' y.
Proof.
  intros H. destruct (Py.geb x' y) eqn:E.
  - apply geb_true. apply geb_true in E. by rewrite H.
  - apply geb_false. apply geb_false in E. by rewrite H.
Qed.

(** The limit state depends on the site only through the two thresholds,
    the license and the usage figure. *)
Lemma check_limits_ext (s s' : Site) (resource : string) :
  Settings.warning_threshold (settings s') = Settings.warning_threshold (settings s) →
  Settings.hard_limit_threshold (settings s')
  = Settings.hard_limit_threshold (settings s) →
  Licensing.get_license s' = Licensing.get_license s →
  (Metering.get_current_usage s' resource == Metering.get_current_usage s resource)%Q →
  Metering.check_limits s' resource = Metering.check_limits s resource.
Proof.
  intros Hw Hh Hl Hu. unfold Metering.check_limits, Licensing.get_resource_limit.
  rewrite Hw, Hh, Hl.
  destruct (Qeq_bool _ 0); [done|]. cbv zeta.
  set (limit := match Licensing.get_license s with
                | Some license_doc =>
                    default 0%Q (Licensing.resource_limits license_doc !! resource)
                | None => 0%Q
                end).
  assert (Hp : (Metering.percentage (Metering.get_current_usage s' resource) limit
                == Metering.percentage (Metering.get_current_usage s resource) limit)%Q).
  { unfold Metering.percentage. by rewrite Hu. }
  by rewrite !(geb_ext _ _ _ Hp).
Qed.

Lemma touch_settings_keeps s :
  Settings.warning_threshold (settings (MeteringJobs.touch_settings s))
  = Settings.warning_threshold (settings s)
  ∧ Settings.hard_limit_threshold (settings (MeteringJobs.touch_settings s))
    = Settings.hard_limit_threshold (settings s)
  ∧ Licensing.get_license (MeteringJobs.touch_settings s) = Licensing.get_license s
  ∧ usage_records (MeteringJobs.touch_settings s) = usage_records s
  ∧ month_start (MeteringJobs.touch_settings s) = month_start s.
Proof.
  unfold MeteringJobs.touch_settings, Settings.save,
    Licensing.get_license, Licensing._get_cached_license.
  by destruct (Settings.validate _).
Qed.

Lemma share_stamp s resource at_ r :
  UsageSum.share s resource (Some (HourlyGroups.stamp at_ r))
  = UsageSum.share s resource (Some r).
Proof. reflexivity. Qed.

Lemma aggregate_keeps_share s resource n :
  UsageSum.share s resource (usage_records (MeteringJobs.aggregate_usage s).1 !! n)
  = UsageSum.share s resource (usage_records s !! n).
Proof.
  rewrite aggregate_lookup.
  destruct (usage_records s !! n) as [r|]; [|done]. simpl.
  by destruct (UsageRecord.aggregated r).
Qed.

Lemma aggregate_keeps_rest s :
  month_start (MeteringJobs.aggregate_usage s).1 = month_start s
  ∧ settings (MeteringJobs.aggregate_usage s).1 = settings s
  ∧ Licensing.get_license (MeteringJobs.aggregate_usage s).1 = Licensing.get_license s.
Proof.
  unfold MeteringJobs.aggregate_usage.
  by destruct (MeteringJobs.aggregate_selection s).
Qed.

Lemma mark_synced_keeps_share s resource at_ records n :
  UsageSum.share s resource
    (MeteringJobs.mark_synced at_ (usage_records s) records !! n)
  = UsageSum.share s resource (usage_records s !! n).
Proof.
  rewrite mark_synced_lookup.
  destruct (decide (n ∈ records.*1)); [|done].
  by destruct (usage_records s !! n).
Qed.

(** X12. The hourly aggregation and sync jobs only set flags and the time
    of the last sync: whatever the central service answers, the usage of
    every resource and its limit state are the same after a run as
    before. *)
Theorem jobs_keep_usage (json_dumps : bool → json → string) (s : Site)
    (rt : CentralAPI.runtime) (resource : string) :
  let aggregated := (MeteringJobs.aggregate_usage s).1 in
  let synced := (MeteringJobs.sync_usage_to_central json_dumps s rt).1.1 in
  (Metering.get_current_usage aggregated resource
   == Metering.get_current_usage s resource)%Q
  ∧ Metering.check_limits aggregated resource = Metering.check_limits s resource
  ∧ (Metering.get_current_usage synced resource
     == Metering.get_current_usage s resource)%Q
  ∧ Metering.check_limits synced resource = Metering.check_limits s resource.
Proof.
  intros aggregated synced.
  destruct (aggregate_keeps_rest s) as (Hm & Hs & Hl).
  assert (Ha : (Metering.get_current_usage aggregated resource
                == Metering.get_current_usage s resource)%Q).
  { apply usage_ext; [done|]. intros n.
    unfold aggregated. by rewrite aggregate_keeps_share. }
  split; [exact Ha|].
  split; [apply check_limits_ext; [unfold aggregated; by rewrite Hs|unfold aggregated; by rewrite Hs|done|done]|].
  assert (Hsync : synced = s
                  ∨ synced = MeteringJobs.touch_settings
                               (with_usage_records
                                  (MeteringJobs.mark_synced (now s) (usage_records s)
                                     (MeteringJobs.sync_selection s)) s)).
  { unfold synced, MeteringJobs.sync_usage_to_central.
    destruct (Settings.license_key (settings s)) as [[|c key']|]; [by left| |by left].
    destruct (MeteringJobs.sync_selection s) as [|row rows] eqn:Esel; [by left|].
    destruct (CentralAPI.report_usage _ _ _ _ _) as [[msg|d] trace]; [by left|].
    destruct (Dict.truthy _); [by right|by left]. }
  destruct Hsync as [->| ->]; [done|].
  set (marked := with_usage_records
                   (MeteringJobs.mark_synced (now s) (usage_records s)
                      (MeteringJobs.sync_selection s)) s).
  destruct (touch_settings_keeps marked) as (Hw & Hh & Hlic & Hrec & Hms).
  assert (Hu : (Metering.get_current_usage (MeteringJobs.touch_settings marked) resource
                == Metering.get_current_usage s resource)%Q).
  { apply usage_ext; [by rewrite Hms|]. intros n. rewrite Hrec.
    unfold marked, with_usage_records. cbn [usage_records].
    by rewrite mark_synced_keeps_share. }
  split; [exact Hu|].
  apply check_limits_ext; [by rewrite Hw|by rewrite Hh|by rewrite Hlic|exact Hu].
Qed.

(** ** Retention and the current month *)

(** X13. The retention job never touches this month's figures: when every
    record was created no earlier than its timestamp and the month began
    no more than 30 days before today, the usage of every resource and
    its limit state are the same after [cleanup_old_records] as before. *)
Theorem cleanup_keeps_current_usage (s : Site) (resource : string) :
  (∀ n r, usage_records s !! n = Some r →
          UsageRecord.timestamp r ≤ UsageRecord.creation r) →
  add_days (today s) (- MeteringJobs.retention_days) ≤ month_start s →
  let s' := MeteringJobs.cleanup_old_records s in
  (Metering.get_current_usage s' resource == Metering.get_current_usage s resource)%Q
  ∧ Metering.check_limits s' resource = Metering.check_limits s resource.
Proof.
  intros Hcreated Hmonth s'.
  assert (Hu : (Metering.get_current_usage s' resource
                == Metering.get_current_usage s resource)%Q).
  { apply usage_ext; [done|]. intros n. unfold s'.
    rewrite cleanup_lookup.
    destruct (usage_records s !! n) as [r|] eqn:Hr; [|reflexivity]. simpl.
    destruct (MeteringJobs.expired _ r) eqn:Hex; [|reflexivity].
    unfold MeteringJobs.expired in Hex.
    apply andb_true_iff in Hex as [_ Hlt]. apply Z.ltb_lt in Hlt.
    pose proof (Hcreated _ _ Hr) as Hts.
    pose proof (date_of_le (UsageRecord.timestamp r)) as Hd.
    unfold UsageSum.share, UsageSum.counts.
    assert (Hc : (month_start s <=? date_of (UsageRecord.timestamp r)) = false)
      by (apply Z.leb_gt; lia).
    rewrite Hc, andb_false_r. reflexivity. }
  split; [exact Hu|]. by apply check_limits_ext.
Qed.

(** X13 on day 100 of the retention example, where the month began on day
    90 and the cutoff is day 70: the record of day 65 is deleted and the
    figure for API calls stays what it was. *)
Lemma cleanup_keeps_current_usage_witness :
  (Metering.get_current_usage
     (MeteringJobs.cleanup_old_records RetentionExample.site) "api_calls"
   == Metering.get_current_usage RetentionExample.site "api_calls")%Q.
Proof.
  apply (cleanup_keeps_current_usage RetentionExample.site "api_calls").
  - intros n r Hr.
    unfold RetentionExample.site, Examples.site in Hr. simpl in Hr.
    apply lookup_insert_Some in Hr as [[_ <-]|[_ Hr]]; [vm_compute; discriminate|].
    apply lookup_insert_Some in Hr as [[_ <-]|[_ Hr]]; [vm_compute; discriminate|].
    apply lookup_insert_Some in Hr as [[_ <-]|[_ Hr]]; [vm_compute; discriminate|].
    by rewrite lookup_empty in Hr.
  - vm_compute. discriminate.
Defined.

(** ** The calls to the central service *)

Section Origin.

Variables (rt : CentralAPI.runtime) (req : request) (rc : nat).

(** Where the result of the retry loop comes from: the first attempt that
    is not retried, or, when every attempt is retried, the failure built
    after the loop. *)
Lemma request_loop_origin remaining : ∀ a last result trace,
  CentralAPI.request_loop rt req rc remaining a last = (result, trace) →
  (∃ k, (a ≤ k < a + remaining)%nat
        ∧ CentralAPI.attempt_once (CentralAPI.net rt k) = inl result
        ∧ ∀ i, (a ≤ i < k)%nat → CentralCalls.retried (CentralAPI.net rt i) = true)
  ∨ (∃ last', result = CentralAPI.failure (Dict.of_opt_str last')).
Proof.
  induction remaining as [|rem IH]; intros a last result trace H.
  - simpl in H. injection H as <- _. right. eauto.
  - simpl in H.
    destruct (CentralAPI.attempt_once (CentralAPI.net rt a)) as [r|err] eqn:Ea.
    + injection H as <- _. left. exists a. split; [lia|]. split; [done|].
      intros i Hi. lia.
    + destruct (CentralAPI.request_loop rt req rc rem (S a) (Some err))
        as [r t] eqn:Eloop.
      injection H as <- _.
      destruct (IH _ _ _ _ Eloop) as [(k & Hk & Hres & Hretry)|Hfail].
      * left. exists k. split; [lia|]. split; [done|].
        intros i Hi. destruct (decide (i = a)) as [->|Hne].
        -- unfold CentralCalls.retried. by rewrite Ea.
        -- apply Hretry. lia.
      * by right.
Qed.

End Origin.

Lemma failure_not_success message d :
  CentralAPI.failure message = JDict d →
  Dict.truthy (default JNull (Dict.get "success" d)) = false.
Proof. unfold CentralAPI.failure. by intros [= <-]. Qed.

Lemma attempt_accepted reply d :
  CentralAPI.attempt_once reply = inl (JDict d) →
  Dict.truthy (default JNull (Dict.get "success" d)) = true →
  CentralCalls.accepted reply = true.
Proof.
  destruct reply as [e|status text [e|body]]; simpl; [done| |].
  - destruct (status =? 200); [done|].
    destruct (status =? 401);
      [by intros [= <-]|].
    destruct (status =? 403);
      [by intros [= <-]|].
    destruct (status =? 404);
      [by intros [= <-]|done].
  - destruct (status =? 200).
    + destruct (Dict.get "message" body) as [message|]; simpl.
      * by intros [= ->] ->.
      * by intros [= ->] ->.
    + destruct (status =? 401);
        [by intros [= <-]|].
      destruct (status =? 403);
        [by intros [= <-]|].
      destruct (status =? 404);
        [by intros [= <-]|done].
Qed.

Lemma accepted_attempt reply :
  CentralCalls.accepted reply = true →
  ∃ d, CentralAPI.attempt_once reply = inl (JDict d)
       ∧ Dict.truthy (default JNull (Dict.get "success" d)) = true.
Proof.
  destruct reply as [e|status text [e|body]]; simpl; [done|done|].
  destruct (status =? 200); [|done]. simpl.
  destruct (Dict.get "message" body) as [[| | | | |payload]|]; simpl; try done.
  - intros H. by exists payload.
  - intros H. by exists body.
Qed.

(** The first attempt the central service accepts, every earlier one
    having been retried. *)
Lemma make_request_accepted json_dumps c rt method endpoint data retry_count d trace :
  CentralAPI._make_request json_dumps c rt method endpoint data retry_count
  = (Return (JDict d), trace) →
  Dict.truthy (default JNull (Dict.get "success" d)) = true →
  ∃ k, (k < retry_count)%nat
       ∧ CentralCalls.accepted (CentralAPI.net rt k) = true
       ∧ ∀ i, (i < k)%nat → CentralCalls.retried (CentralAPI.net rt i) = true.
Proof.
  unfold CentralAPI._make_request.
  destruct (CentralAPI.base_url c) as [base|]; [|done].
  destruct (CentralAPI.request_loop _ _ _ _ _ _) as [result t] eqn:Eloop.
  intros [= -> ->] Hs.
  destruct (request_loop_origin _ _ _ _ _ _ _ _ Eloop)
    as [(k & Hk & Hres & Hretry)|[last' Hfail]].
  - exists k. split; [lia|]. split; [by apply (attempt_accepted _ d)|].
    intros i Hi. apply Hretry. lia.
  - symmetry in Hfail. apply failure_not_success in Hfail. congruence.
Qed.

Lemma make_request_accepts json_dumps c rt method endpoint data retry_count k :
  CentralAPI.base_url c ≠ None →
  (k < retry_count)%nat →
  CentralCalls.accepted (CentralAPI.net rt k) = true →
  (∀ i, (i < k)%nat → CentralCalls.retried (CentralAPI.net rt i) = true) →
  ∃ d trace,
    CentralAPI._make_request json_dumps c rt method endpoint data retry_count
    = (Return (JDict d), trace)
    ∧ Dict.truthy (default JNull (Dict.get "success" d)) = true.
Proof.
  intros Hbase Hk Hacc Hretry.
  destruct (accepted_attempt _ Hacc) as (d & Hd & Hs).
  unfold CentralAPI._make_request.
  destruct (CentralAPI.base_url c) as [base|]; [|done].
  rewrite (request_loop_returns rt _ retry_count k retry_count 0%nat None (JDict d));
    [eauto|lia|lia| |done].
  intros i Hi. specialize (Hretry i Hi). unfold CentralCalls.retried in Hretry.
  simpl. destruct (CentralAPI.attempt_once (CentralAPI.net rt i)); [done|eauto].
Qed.

Lemma report_usage_accepted json_dumps c rt license_key usage_data d trace :
  CentralAPI.report_usage json_dumps c rt license_key usage_data = (Return d, trace) →
  Dict.truthy (default JNull (Dict.get "success" d)) = true
  ↔ ∃ k, (k < 3)%nat
         ∧ CentralCalls.accepted (CentralAPI.net rt k) = true
         ∧ ∀ i, (i < k)%nat → CentralCalls.retried (CentralAPI.net rt i) = true.
Proof.
  unfold CentralAPI.report_usage.
  destruct (CentralAPI._make_request _ _ _ _ _ _ _) as [[msg|result] t] eqn:Ereq;
    [done|].
  destruct result as [| | | | |result]; try done.
  intros [= <- <-]. cbn [Dict.get String.eqb Ascii.eqb Bool.eqb default].
  simpl.
  assert (Hconv : (∃ k, (k < 3)%nat
                        ∧ CentralCalls.accepted (CentralAPI.net rt k) = true
                        ∧ ∀ i, (i < k)%nat →
                               CentralCalls.retried (CentralAPI.net rt i) = true) →
                  Dict.truthy (default JNull (Dict.get "success" result)) = true).
  { intros (k & Hk & Hacc & Hretry).
    assert (Hbase : CentralAPI.base_url c ≠ None).
    { unfold CentralAPI._make_request in Ereq.
      by destruct (CentralAPI.base_url c). }
    destruct (make_request_accepts json_dumps c rt "POST"
                "/method/simbotix.api.metering.report_usage"
                (Some [ ("license_key", JStr license_key);
                        ("usage_data",
                         JStr (json_dumps false (JList usage_data))) ])
                CentralAPI.default_retry_count k Hbase Hk Hacc Hretry)
      as (d' & t' & Hreq' & Hs').
    rewrite Ereq in Hreq'. by injection Hreq' as <- _. }
  destruct (Dict.get "success" result) as [v|] eqn:Eget; simpl in *.
  - split; [|done].
    intros Hv. apply (make_request_accepted _ _ _ _ _ _ _ _ _ Ereq).
    by rewrite Eget.
  - split; [done|]. intros H. by apply Hconv in H.
Qed.

Lemma attempt_answered reply d :
  CentralAPI.attempt_once reply = inl (JDict d) →
  Dict.truthy (default (JBool false) (Dict.get "acknowledged" d)) = true →
  CentralCalls.answered reply = true.
Proof.
  destruct reply as [e|status text [e|body]]; simpl; [done| |].
  - destruct (status =? 200); [done|].
    destruct (status =? 401); [by intros [= <-]|].
    destruct (status =? 403); [by intros [= <-]|].
    destruct (status =? 404); [by intros [= <-]|done].
  - destruct (status =? 200); [done|].
    destruct (status =? 401); [by intros [= <-]|].
    destruct (status =? 403); [by intros [= <-]|].
    destruct (status =? 404); [by intros [= <-]|done].
Qed.

Lemma make_request_answered json_dumps c rt method endpoint data retry_count d trace :
  CentralAPI._make_request json_dumps c rt method endpoint data retry_count
  = (Return (JDict d), trace) →
  Dict.truthy (default (JBool false) (Dict.get "acknowledged" d)) = true →
  ∃ k, (k < retry_count)%nat
       ∧ CentralCalls.answered (CentralAPI.net rt k) = true
       ∧ ∀ i, (i < k)%nat → CentralCalls.retried (CentralAPI.net rt i) = true.
Proof.
  unfold CentralAPI._make_request.
  destruct (CentralAPI.base_url c) as [base|]; [|done].
  destruct (CentralAPI.request_loop _ _ _ _ _ _) as [result t] eqn:Eloop.
  intros [= -> ->] Hs.
  destruct (request_loop_origin _ _ _ _ _ _ _ _ Eloop)
    as [(k & Hk & Hres & Hretry)|[last' Hfail]].
  - exists k. split; [lia|]. split; [by apply (attempt_answered _ d)|].
    intros i Hi. apply Hretry. lia.
  - unfold CentralAPI.failure in Hfail. injection Hfail as ->. done.
Qed.

(** X14. The calls built on [_make_request] say yes only when the central
    service did: [validate_license] returns a true [valid], and
    [report_usage] a true [success], exactly when one of the three
    attempts, every earlier one having been retried, was answered with
    HTTP 200 and an object with a true [success]; [get_license_details]
    returns anything but the empty object only then, and [heartbeat] a
    true [acknowledged] only when an attempt was answered with HTTP 200
    and an object. *)
Theorem central_calls_need_acceptance
    (json_dumps : bool → json → string) (c : CentralAPI.client)
    (rt : CentralAPI.runtime) (license_key : string) :
  let first_accepted (k : nat) :=
    (k < 3)%nat
    ∧ CentralCalls.accepted (CentralAPI.net rt k) = true
    ∧ ∀ i, (i < k)%nat → CentralCalls.retried (CentralAPI.net rt i) = true in
  (∀ d trace,
     CentralCalls.validate_license json_dumps c rt license_key = (Return d, trace) →
     Dict.get "valid" d = Some (JBool true) ↔ ∃ k, first_accepted k)
  ∧ (∀ usage_data d trace,
       CentralAPI.report_usage json_dumps c rt license_key usage_data
       = (Return d, trace) →
       Dict.truthy (default JNull (Dict.get "success" d)) = true
       ↔ ∃ k, first_accepted k)
  ∧ (∀ v trace,
       CentralCalls.get_license_details json_dumps c rt license_key
       = (Return v, trace) →
       v ≠ JDict [] → ∃ k, first_accepted k)
  ∧ (∀ site_info d trace,
       CentralCalls.heartbeat json_dumps c rt license_key site_info
       = (Return d, trace) →
       Dict.truthy (default JNull (Dict.get "acknowledged" d)) = true →
       ∃ k, (k < 3)%nat
            ∧ CentralCalls.answered (CentralAPI.net rt k) = true
            ∧ ∀ i, (i < k)%nat →
                   CentralCalls.retried (CentralAPI.net rt i) = true).
Proof.
  intros first_accepted. split; [|split; [|split]].
  - intros d trace. unfold CentralCalls.validate_license.
    destruct (CentralAPI._make_request _ _ _ _ _ _ _) as [[msg|result] t] eqn:Ereq;
      [done|].
    destruct result as [| | | | |result]; try done.
    destruct (Dict.truthy (default JNull (Dict.get "success" result))) eqn:Es.
    + intros [= <- <-]. split; [|done]. intros _.
      by apply (make_request_accepted _ _ _ _ _ _ _ _ _ Ereq).
    + intros [= <- <-]. split; [done|].
      intros (k & Hk & Hacc & Hretry).
      assert (Hbase : CentralAPI.base_url c ≠ None).
      { unfold CentralAPI._make_request in Ereq.
        by destruct (CentralAPI.base_url c). }
      destruct (make_request_accepts json_dumps c rt "POST"
                  "/method/simbotix.api.licensing.validate_license"
                  (Some [("license_key", JStr license_key)])
                  CentralAPI.default_retry_count k Hbase Hk Hacc Hretry)
        as (d' & t' & Hreq' & Hs').
      rewrite Ereq in Hreq'. injection Hreq' as <- _. congruence.
  - intros usage_data d trace. apply report_usage_accepted.
  - intros v trace. unfold CentralCalls.get_license_details.
    destruct (CentralAPI._make_request _ _ _ _ _ _ _) as [[msg|result] t] eqn:Ereq;
      [done|].
    destruct result as [| | | | |result]; try done.
    destruct (Dict.truthy (default JNull (Dict.get "success" result))) eqn:Es.
    + intros _ _. by apply (make_request_accepted _ _ _ _ _ _ _ _ _ Ereq).
    + by intros [= <- <-].
  - intros site_info d trace. unfold CentralCalls.heartbeat.
    destruct (CentralAPI._make_request _ _ _ _ _ _ _) as [[msg|result] t] eqn:Ereq;
      [done|].
    destruct result as [| | | | |result]; try done.
    intros [= <- <-]. cbn [Dict.get String.eqb Ascii.eqb Bool.eqb default].
    simpl. intros Hack.
    by apply (make_request_answered _ _ _ _ _ _ _ _ _ Ereq).
Qed.

(** X14 against a service that accepts at once: the license is reported
    valid, so some attempt was accepted. *)
Lemma central_calls_need_acceptance_witness :
  ∃ k, (k < 3)%nat
       ∧ CentralCalls.accepted (CentralAPI.net SyncExample.accepting k) = true
       ∧ ∀ i, (i < k)%nat →
              CentralCalls.retried (CentralAPI.net SyncExample.accepting i) = true.
Proof.
  destruct (central_calls_need_acceptance SyncExample.json_dumps RetryExample.client
              SyncExample.accepting "LIC-1") as (H & _).
  refine (proj1 (H _ _ _) _); [vm_compute; reflexivity|reflexivity].
Defined.

(** X15. A usage record goes from unsynced to synced only in a run in
    which the central service accepted the report: one of the three
    attempts, every earlier one having been retried, was answered with
    HTTP 200 and an object with a true [success].  The same holds for a
    run that reports a positive [synced_count]. *)
Theorem sync_needs_acceptance
    (json_dumps : bool → json → string) (s : Site) (rt : CentralAPI.runtime) :
  let run := MeteringJobs.sync_usage_to_central json_dumps s rt in
  let first_accepted (k : nat) :=
    (k < 3)%nat
    ∧ CentralCalls.accepted (CentralAPI.net rt k) = true
    ∧ ∀ i, (i < k)%nat → CentralCalls.retried (CentralAPI.net rt i) = true in
  (∀ n r r', usage_records s !! n = Some r → UsageRecord.synced r = false →
             usage_records run.1.1 !! n = Some r' → UsageRecord.synced r' = true →
             ∃ k, first_accepted k)
  ∧ ((0 < MeteringJobs.synced_count run.1.2)%nat → ∃ k, first_accepted k).
Proof.
  intros run first_accepted.
  assert (H : (run.1.1 = s ∧ MeteringJobs.synced_count run.1.2 = 0%nat)
              ∨ ∃ k, first_accepted k).
  { unfold run, MeteringJobs.sync_usage_to_central.
    destruct (Settings.license_key (settings s)) as [[|a key']|]; [by left| |by left].
    destruct (MeteringJobs.sync_selection s) as [|row rows] eqn:Esel; [by left|].
    destruct (CentralAPI.report_usage _ _ _ _ _) as [[msg|d] trace] eqn:Erep;
      [by left|].
    destruct (Dict.truthy _) eqn:Es; [|by left].
    right. by apply (report_usage_accepted _ _ _ _ _ _ _ Erep). }
  destruct H as [[Hs Hc]|H]; [|by split].
  split.
  - intros n r r' Hr Hns Hr' Hsy. rewrite Hs in Hr'. congruence.
  - intros Hpos. lia.
Qed.

(** X15 on the sync example: the run against the accepting service marks
    the first record, so the service accepted an attempt. *)
Lemma sync_needs_acceptance_witness :
  ∃ k, (k < 3)%nat
       ∧ CentralCalls.accepted (CentralAPI.net SyncExample.accepting k) = true
       ∧ ∀ i, (i < k)%nat →
              CentralCalls.retried (CentralAPI.net SyncExample.accepting i) = true.
Proof.
  destruct (sync_needs_acceptance SyncExample.json_dumps SyncExample.site
              SyncExample.accepting) as [_ H].
  apply H. vm_compute. lia.
Defined.

(** ** The license gate *)

Lemma required_listed json_loads license_doc key x :
  LicenseGate.required json_loads license_doc key x
  = LicenseGate.listed json_loads license_doc key x.
Proof.
  unfold LicenseGate.required, LicenseGate.listed.
  destruct (Py.truthy_str x); [|done].
  by destruct (default (JList []) (Dict.get key license_doc)).
Qed.

(** [is_licensed] read off the raising gate. *)
Lemma is_licensed_validate json_loads py_str license_doc feature app :
  LicenseGate.is_licensed json_loads license_doc feature app
  = match LicenseGate._validate_license_requirement json_loads py_str
            license_doc feature app with
    | inr _ => inr true
    | inl (LicenseGate.PermissionError _) => inr false
    | inl LicenseGate.TypeError => inl LicenseGate.TypeError
    end.
Proof.
  unfold LicenseGate.is_licensed, LicenseGate._validate_license_requirement.
  destruct (LicenseGate.present license_doc) as [d|]; [|done].
  destruct (negb _); [done|].
  rewrite !required_listed.
  destruct (LicenseGate.listed json_loads d "enabled_features" feature) as [[|]|];
    [|done|done].
  by destruct (LicenseGate.listed json_loads d "enabled_apps" app) as [[|]|].
Qed.

Lemma listed_none json_loads license_doc key :
  LicenseGate.listed json_loads license_doc key None = Some true.
Proof. reflexivity. Qed.

Lemma is_licensed_both json_loads license_doc feature app :
  LicenseGate.is_licensed json_loads license_doc feature app = inr true
  ↔ LicenseGate.is_licensed json_loads license_doc feature None = inr true
    ∧ LicenseGate.is_licensed json_loads license_doc None app = inr true.
Proof.
  unfold LicenseGate.is_licensed.
  destruct (LicenseGate.present license_doc) as [d|];
    [|split; [done|by intros [? ?]]].
  destruct (negb _); [split; [done|by intros [? ?]]|].
  rewrite !listed_none.
  destruct (LicenseGate.listed json_loads d "enabled_features" feature) as [[|]|];
    destruct (LicenseGate.listed json_loads d "enabled_apps" app) as [[|]|];
    split; try done; by intros [? ?].
Qed.

(** X16. The two license checks agree: [is_licensed] answers True exactly
    when [_validate_license_requirement] returns, False exactly when it
    raises [PermissionError], and both raise the same [TypeError] when an
    enabled list is no container.  A feature and an app are licensed
    together exactly when each is licensed alone, and a function wrapped
    in [requires_license] runs exactly when [is_licensed] answers True; a
    refused call leaves the state as it was. *)
Theorem license_gate_agrees
    (json_loads : string → option json) (py_str : json → string)
    (license_doc : option dict) (feature app : option string) :
  let licensed := LicenseGate.is_licensed json_loads license_doc in
  let validated :=
    LicenseGate._validate_license_requirement json_loads py_str license_doc in
  (licensed feature app = inr true ↔ validated feature app = inr tt)
  ∧ (licensed feature app = inr false
     ↔ ∃ message, validated feature app = inl (LicenseGate.PermissionError message))
  ∧ (licensed feature app = inl LicenseGate.TypeError
     ↔ validated feature app = inl LicenseGate.TypeError)
  ∧ (licensed feature app = inr true
     ↔ licensed feature None = inr true ∧ licensed None app = inr true)
  ∧ (∀ (S R : Type) (get_license : S → option dict) (func : S → S * R) (s : S),
       get_license s = license_doc →
       let run := LicenseGate.requires_license json_loads py_str get_license
                    feature app func s in
       (licensed feature app = inr true → run = ((func s).1, inr (func s).2))
       ∧ (licensed feature app ≠ inr true → ∃ e, run = (s, inl e))).
Proof.
  intros licensed validated.
  assert (Hlv : licensed feature app
                = match validated feature app with
                  | inr _ => inr true
                  | inl (LicenseGate.PermissionError _) => inr false
                  | inl LicenseGate.TypeError => inl LicenseGate.TypeError
                  end) by apply is_licensed_validate.
  split; [|split; [|split; [|split]]].
  - rewrite Hlv. destruct (validated feature app) as [[m|]|[]]; split; done.
  - rewrite Hlv. destruct (validated feature app) as [[m|]|[]];
      (split; [intros H; try done; eauto|intros [? ?]; done]).
  - rewrite Hlv. destruct (validated feature app) as [[m|]|[]]; split; done.
  - apply is_licensed_both.
  - intros S R get_license func s Hget run. unfold run, LicenseGate.requires_license.
    rewrite Hlv, Hget. fold validated.
    destruct (validated feature app) as [[m|]|[]].
    + split; [done|]. eauto.
    + split; [done|]. eauto.
    + split; [|done]. intros _. by destruct (func s).
Qed.

(** X16 on a Builder license: the webhooks feature of the flowz app is
    licensed, so the wrapped function runs. *)
Lemma license_gate_agrees_witness :
  LicenseGate.requires_license LicenseGate.example_loads LicenseGate.example_str
    (λ _ : Z, Some LicenseGate.example_license)
    (Some "webhooks") (Some "flowz") (λ n, (n + 1, n)) 41
  = (42, inr 41).
Proof.
  destruct (license_gate_agrees LicenseGate.example_loads LicenseGate.example_str
              (Some LicenseGate.example_license) (Some "webhooks") (Some "flowz"))
    as (_ & _ & _ & _ & H).
  destruct (H Z Z (λ _ : Z, Some LicenseGate.example_license) (λ n, (n + 1, n)) 41
              eq_refl) as [Hrun _].
  apply Hrun. vm_compute. reflexivity.
Defined.

(** ** Acknowledging alerts *)

Lemma validate_keeps_acknowledgement a :
  UsageAlertDoc.acknowledged_by (UsageAlert.validate a) = UsageAlertDoc.acknowledged_by a
  ∧ UsageAlertDoc.acknowledged_at (UsageAlert.validate a)
    = UsageAlertDoc.acknowledged_at a.
Proof.
  unfold UsageAlert.validate.
  repeat match goal with
         | |- context [if ?b then _ else _] => destruct b
         end; simpl; done.
Qed.

Lemma pending_count s :
  AlertsAPI.count (AlertsAPI.get_pending_alerts s)
  = size (filter (λ kv : string * UsageAlertDoc.t, AlertsAPI.pending kv.2 = true)
                 (usage_alerts s)).
Proof.
  unfold AlertsAPI.get_pending_alerts. cbn [AlertsAPI.count].
  rewrite get_all_unlimited_perm. apply length_map_to_list.
Qed.

(** X17. [get_pending_alerts] lists exactly the unacknowledged alerts,
    each once, and counts them.  [acknowledge_alert] on a name no alert
    has fails and changes nothing; on an existing alert it stamps the
    session user and the time, after which the alert is no longer
    pending, every other alert is pending exactly if it was, and the
    count has dropped by one if the alert was pending. *)
Theorem acknowledge_alert_clears_pending (s : Site) (alert_name : string) :
  let run := AlertsAPI.acknowledge_alert s alert_name in
  let before := AlertsAPI.get_pending_alerts s in
  let after := AlertsAPI.get_pending_alerts run.1 in
  (∀ n a, (n, a) ∈ AlertsAPI.alerts before
          ↔ usage_alerts s !! n = Some a ∧ UsageAlertDoc.acknowledged a = false)
  ∧ NoDup (AlertsAPI.alerts before).*1
  ∧ AlertsAPI.count before = length (AlertsAPI.alerts before)
  ∧ (usage_alerts s !! alert_name = None →
     run = (s, [ ("success", JBool false); ("message", JStr "Alert not found") ]))
  ∧ (∀ a, usage_alerts s !! alert_name = Some a →
       Dict.get "success" (run.2) = Some (JBool true)
       ∧ (∃ a', usage_alerts run.1 !! alert_name = Some a'
                ∧ UsageAlertDoc.acknowledged a' = true
                ∧ UsageAlertDoc.acknowledged_by a' = Some (session_user s)
                ∧ UsageAlertDoc.acknowledged_at a' = Some (now s))
       ∧ (alert_name ∉ (AlertsAPI.alerts after).*1)
       ∧ (∀ n a', n ≠ alert_name →
            (n, a') ∈ AlertsAPI.alerts after ↔ (n, a') ∈ AlertsAPI.alerts before)
       ∧ (UsageAlertDoc.acknowledged a = false →
          S (AlertsAPI.count after) = AlertsAPI.count before)
       ∧ (UsageAlertDoc.acknowledged a = true →
          AlertsAPI.count after = AlertsAPI.count before)).
Proof.
  intros run before after.
  assert (Hlist : ∀ s0 n a,
             (n, a) ∈ AlertsAPI.alerts (AlertsAPI.get_pending_alerts s0)
             ↔ usage_alerts s0 !! n = Some a ∧ UsageAlertDoc.acknowledged a = false).
  { intros s0 n a. unfold AlertsAPI.get_pending_alerts. cbn [AlertsAPI.alerts].
    rewrite get_all_unlimited_elem. unfold AlertsAPI.pending.
    by rewrite negb_true_iff. }
  split; [apply Hlist|].
  split; [apply get_all_NoDup|].
  split; [done|].
  split.
  { intros Hnone. unfold run, AlertsAPI.acknowledge_alert. by rewrite Hnone. }
  intros a Ha.
  set (a0 := UsageAlert.validate
               (UsageAlert.set_acknowledged (session_user s) (now s) a)).
  assert (Hrun : run = (with_usage_alerts (<[alert_name := a0]> (usage_alerts s)) s,
                        [ ("success", JBool true);
                          ("message", JStr "Alert acknowledged") ])).
  { unfold run, AlertsAPI.acknowledge_alert, UsageAlert.acknowledge.
    by rewrite Ha. }
  assert (Hack : UsageAlertDoc.acknowledged a0 = true).
  { unfold a0.
    by destruct (validate_keeps
                   (UsageAlert.set_acknowledged (session_user s) (now s) a))
      as (_ & _ & _ & _ & -> & _). }
  assert (Htable : usage_alerts run.1 = <[alert_name := a0]> (usage_alerts s))
    by (by rewrite Hrun).
  split; [by rewrite Hrun|].
  split.
  { exists a0. rewrite Htable, lookup_insert_eq. split; [done|]. split; [done|].
    unfold a0.
    destruct (validate_keeps_acknowledgement
                (UsageAlert.set_acknowledged (session_user s) (now s) a))
      as [-> ->].
    done. }
  split.
  { intros ([n a'] & Hn & Hin)%list_elem_of_fmap. simpl in Hn. subst n.
    apply Hlist in Hin as [Hl Hf]. rewrite Htable, lookup_insert_eq in Hl.
    congruence. }
  split.
  { intros n a' Hne. unfold after, before. rewrite !Hlist, Htable.
    by rewrite lookup_insert_ne. }
  unfold after, before. rewrite !pending_count, Htable.
  rewrite map_filter_insert_False
    by (simpl; unfold AlertsAPI.pending; rewrite Hack; done).
  rewrite map_filter_delete.
  split.
  - intros Hf. rewrite map_size_delete_Some.
    + assert (size (filter (λ kv : string * UsageAlertDoc.t,
                              AlertsAPI.pending kv.2 = true) (usage_alerts s)) ≠ 0%nat).
      { apply (map_size_ne_0_lookup_2 _ alert_name). exists a.
        apply map_lookup_filter_Some. split; [done|]. simpl.
        unfold AlertsAPI.pending. by rewrite Hf. }
      lia.
    + exists a. apply map_lookup_filter_Some. split; [done|]. simpl.
      unfold AlertsAPI.pending. by rewrite Hf.
  - intros Ht. apply map_size_delete_None.
    apply map_lookup_filter_None. right. intros a' Ha'. simpl.
    rewrite Ha in Ha'. injection Ha' as <-.
    unfold AlertsAPI.pending. by rewrite Ht.
Qed.

(** X17 on the alert example: the warning just raised can be
    acknowledged. *)
Lemma acknowledge_alert_clears_pending_witness :
  Dict.get "success"
    (AlertsAPI.acknowledge_alert AlertExample.warned
       (UsageAlert.new_name AlertExample.site)).2 = Some (JBool true).
Proof.
  destruct (acknowledge_alert_clears_pending AlertExample.warned
              (UsageAlert.new_name AlertExample.site)) as (_ & _ & _ & _ & H).
  refine (proj1 (H _ _)). vm_compute. reflexivity.
Defined.

(** ** The hourly limit check *)

Lemma has_open_frame s m resource k :
  LimitsJob.has_open (with_usage_alerts m s) resource k
  ↔ ∃ n a, m !! n = Some a ∧ UsageAlert.open_today s resource k a = true.
Proof. reflexivity. Qed.

Lemma open_today_set_current_usage s resource k current a :
  UsageAlert.open_today s resource k
    (UsageAlert.validate (UsageAlert.set_current_usage current a))
  = UsageAlert.open_today s resource k a.
Proof. by rewrite open_today_validate. Qed.

(** What one [create_alert] call does to the alerts that are open. *)
Lemma create_alert_open s resource k current limit send_email delivered :
  let s' := (UsageAlert.create_alert s resource k current limit send_email
               delivered).1.1 in
  s' = with_usage_alerts (usage_alerts s') s
  ∧ LimitsJob.has_open s' resource k
  ∧ (∀ resource' k', LimitsJob.has_open s resource' k' →
                     LimitsJob.has_open s' resource' k')
  ∧ (LimitsJob.has_open s resource k →
     dom (usage_alerts s') = dom (usage_alerts s)).
Proof.
  intros s'.
  destruct (UsageAlert.existing s resource k) as [|[n0 a0] rest] eqn:Eex.
  - pose proof (proj1 (existing_nil s resource k) Eex) as Hnone.
    destruct (create_alert_creates s resource k current limit send_email delivered
                Hnone) as (Hname & Hfresh & Hnow & (a' & Ha' & Hr & Hk & _ & Hack & Hcr)
                           & Hothers & _ & _).
    fold s' in Hnow, Ha', Hothers.
    assert (Hframe : s' = with_usage_alerts (usage_alerts s') s).
    { unfold s', UsageAlert.create_alert. rewrite Eex.
      destruct send_email; [|done].
      unfold UsageAlert.send_notification, UsageAlert.save.
      repeat case_match; simplify_eq/=; done. }
    split; [exact Hframe|].
    assert (Hopen : ∀ r0 k0 a, UsageAlert.open_today s' r0 k0 a
                               = UsageAlert.open_today s r0 k0 a).
    { intros. apply open_today_same_day. unfold today. by rewrite Hnow. }
    split.
    { eexists _, a'. split; [exact Ha'|]. rewrite Hopen.
      unfold UsageAlert.open_today. rewrite Hr, Hk, Hack, Hcr.
      rewrite String.eqb_refl, bool_decide_eq_true_2 by done. simpl.
      apply Z.leb_le. apply date_of_le. }
    split.
    { intros r0 k0 (n & a & Hn & Ho). exists n, a. split; [|by rewrite Hopen].
      rewrite Hothers; [done|]. intros Heq. rewrite Heq in Hn. congruence. }
    intros (n & a & Hn & Ho). rewrite (Hnone _ _ Hn) in Ho. discriminate.
  - assert (Hin : (n0, a0) ∈ UsageAlert.existing s resource k)
      by (rewrite Eex; left).
    apply existing_sound in Hin as [Hl Ho].
    assert (Hs' : s' = UsageAlert.save n0 (UsageAlert.set_current_usage current a0) s).
    { unfold s', UsageAlert.create_alert. by rewrite Eex, Hl. }
    rewrite Hs'. unfold UsageAlert.save.
    split; [done|].
    split.
    { apply has_open_frame. eexists n0, _. rewrite lookup_insert_eq.
      split; [done|]. by rewrite open_today_set_current_usage. }
    split.
    { intros r0 k0 (n & a & Hn & Hopen). apply has_open_frame.
      destruct (decide (n = n0)) as [->|Hne].
      - eexists n0, _. rewrite lookup_insert_eq. split; [done|].
        rewrite open_today_set_current_usage. congruence.
      - exists n, a. by rewrite lookup_insert_ne. }
    intros _. cbn [usage_alerts with_usage_alerts].
    rewrite dom_insert_L. apply elem_of_dom_2 in Hl.
    apply subseteq_union_1_L, singleton_subseteq_l, Hl.
Qed.

Lemma check_one_verdict c delivered s counts trace item :
  LimitsJob.check_one c delivered (s, counts, trace) item
  = match LimitsJob.verdict c s item with
    | None =>
        (s, {| LimitsJob.alerts_created := LimitsJob.alerts_created counts;
               LimitsJob.resources_checked := S (LimitsJob.resources_checked counts) |},
         trace)
    | Some k =>
        let run := UsageAlert.create_alert s item.1 k
                     (Metering.get_current_usage s item.1) item.2 true
                     (delivered item.1) in
        (run.1.1,
         {| LimitsJob.alerts_created := S (LimitsJob.alerts_created counts);
            LimitsJob.resources_checked := S (LimitsJob.resources_checked counts) |},
         trace ++ run.2)
    end.
Proof.
  unfold LimitsJob.check_one, LimitsJob.verdict.
  destruct (Qeq_bool item.2 0); [done|]. cbv zeta.
  destruct (Py.geb _ (Settings.hard_limit_threshold c)).
  - by destruct (UsageAlert.create_alert _ _ _ _ _ _ _) as [[? ?] ?].
  - destruct (Py.geb _ (Settings.warning_threshold c)); [|done].
    by destruct (UsageAlert.create_alert _ _ _ _ _ _ _) as [[? ?] ?].
Qed.

Lemma verdict_frame c s m item :
  LimitsJob.verdict c (with_usage_alerts m s) item = LimitsJob.verdict c s item.
Proof. reflexivity. Qed.

Lemma verdict_check_limits s resource limit :
  Licensing.get_resource_limit s resource = limit →
  LimitsJob.verdict (settings s) s (resource, limit)
  = LimitsJob.alert_for (Metering.check_limits s resource).
Proof.
  intros <-. unfold LimitsJob.verdict, Metering.check_limits. simpl.
  destruct (Qeq_bool _ 0); [done|].
  destruct (Py.geb _ (Settings.hard_limit_threshold (settings s))); [done|].
  by destruct (Py.geb _ (Settings.warning_threshold (settings s))).
Qed.

Lemma mails_app t1 t2 :
  LimitsJob.mails (t1 ++ t2) = (LimitsJob.mails t1 + LimitsJob.mails t2)%nat.
Proof. unfold LimitsJob.mails. by rewrite filter_app, length_app. Qed.

(** The loop of [check_all_limits] from any point on: [s0] is the site
    the job started on, [m] the alerts so far. *)
Lemma check_all_fold c delivered s0 items : ∀ m counts trace,
  let start := with_usage_alerts m s0 in
  let out := foldl (LimitsJob.check_one c delivered) (start, counts, trace) items in
  out.1.1 = with_usage_alerts (usage_alerts out.1.1) s0
  ∧ LimitsJob.alerts_created out.1.2
    = (LimitsJob.alerts_created counts
       + length (filter (λ item, is_Some (LimitsJob.verdict c s0 item)) items))%nat
  ∧ LimitsJob.resources_checked out.1.2
    = (LimitsJob.resources_checked counts + length items)%nat
  ∧ (∀ resource k, LimitsJob.has_open start resource k →
                   LimitsJob.has_open out.1.1 resource k)
  ∧ (∀ item k, item ∈ items → LimitsJob.verdict c s0 item = Some k →
               LimitsJob.has_open out.1.1 item.1 k)
  ∧ ((∀ item k, item ∈ items → LimitsJob.verdict c s0 item = Some k →
                LimitsJob.has_open start item.1 k) →
     dom (usage_alerts out.1.1) = dom m)
  ∧ (LimitsJob.mails out.2 + LimitsJob.alerts_created counts
     ≤ LimitsJob.mails trace + LimitsJob.alerts_created out.1.2)%nat.
Proof.
  induction items as [|item items IH]; intros m counts trace start out.
  - unfold out, start. simpl. repeat split; try done; try lia.
    intros item k Hin. by apply elem_of_nil in Hin.
  - unfold out. cbn [foldl]. rewrite check_one_verdict.
    change (LimitsJob.verdict c start item) with (LimitsJob.verdict c s0 item).
    destruct (LimitsJob.verdict c s0 item) as [k|] eqn:Ev.
    + cbv zeta.
      set (run := UsageAlert.create_alert start item.1 k
                    (Metering.get_current_usage start item.1) item.2 true
                    (delivered item.1)).
      destruct (create_alert_open start item.1 k
                  (Metering.get_current_usage start item.1) item.2 true
                  (delivered item.1)) as (Hframe & Hnew & Hkeep & Hdom).
      fold run in Hframe, Hnew, Hkeep, Hdom.
      set (m1 := usage_alerts run.1.1) in *.
      assert (Hs1 : run.1.1 = with_usage_alerts m1 s0) by (by rewrite Hframe).
      rewrite Hs1 in Hnew, Hkeep |- *.
      pose proof (IH m1
                  {| LimitsJob.alerts_created := S (LimitsJob.alerts_created counts);
                     LimitsJob.resources_checked :=
                       S (LimitsJob.resources_checked counts) |}
                  (trace ++ run.2)) as HIH.
      cbv zeta in HIH. destruct HIH as (H1 & H2 & H3 & H4 & H5 & H6 & H7).
      split; [exact H1|].
      split.
      { rewrite H2. cbn [LimitsJob.alerts_created].
        rewrite filter_cons_True by (by rewrite Ev). simpl. lia. }
      split; [rewrite H3; simpl; lia|].
      split; [intros resource k0 Ho; by apply H4, Hkeep|].
      split.
      { intros item0 k0 [->|Hin]%elem_of_cons Hv.
        - apply H4. rewrite Ev in Hv. by injection Hv as <-.
        - by apply H5. }
      split.
      { intros Hall. rewrite H6.
        - rewrite Hdom; [done|]. apply (Hall item k); [left|done].
        - intros item0 k0 Hin Hv. apply Hkeep. apply Hall; [by right|done]. }
      cbn [LimitsJob.alerts_created] in H7. rewrite mails_app in H7.
      pose proof (create_alert_mails start item.1 k
                    (Metering.get_current_usage start item.1) item.2 true
                    (delivered item.1)) as Hmail.
      fold run in Hmail. unfold LimitsJob.mails in *. lia.
    + unfold start.
      pose proof (IH m
                  {| LimitsJob.alerts_created := LimitsJob.alerts_created counts;
                     LimitsJob.resources_checked :=
                       S (LimitsJob.resources_checked counts) |}
                  trace) as HIH.
      cbv zeta in HIH. destruct HIH as (H1 & H2 & H3 & H4 & H5 & H6 & H7).
      split; [exact H1|].
      split.
      { rewrite H2. cbn [LimitsJob.alerts_created].
        rewrite filter_cons_False; [done|]. rewrite Ev. by intros [? ?]. }
      split; [rewrite H3; simpl; lia|].
      split; [exact H4|].
      split.
      { intros item0 k0 [->|Hin]%elem_of_cons Hv; [congruence|by apply H5]. }
      split.
      { intros Hall. apply H6. intros item0 k0 Hin Hv.
        apply Hall; [by right|done]. }
      exact H7.
Qed.

Lemma filter_ext_in {A} (P1 P2 : A → Prop)
    `{!∀ x, Decision (P1 x), !∀ x, Decision (P2 x)} (l : list A) :
  (∀ x, x ∈ l → P1 x ↔ P2 x) → filter P1 l = filter P2 l.
Proof.
  induction l as [|x l IH]; intros Hext; [done|].
  assert (Hl : filter P1 l = filter P2 l).
  { apply IH. intros y Hy. apply Hext. by right. }
  assert (Hx : P1 x ↔ P2 x) by (apply Hext; left).
  destruct (decide (P1 x)) as [H1|H1].
  - rewrite !filter_cons_True; [by rewrite Hl|by apply Hx|done].
  - rewrite !filter_cons_False; [done| |done].
    intros H2. apply H1. by apply Hx.
Qed.

Lemma site_frame s : s = with_usage_alerts (usage_alerts s) s.
Proof. by destruct s. Qed.

Lemma limited_item s resource :
  Metering.check_limits s resource ≠ Metering.ok →
  ∃ license_doc,
    Licensing.get_license s = Some license_doc
    ∧ Licensing.resource_limits license_doc !! resource
      = Some (Licensing.get_resource_limit s resource).
Proof.
  intros Hst.
  assert (Hnz : ¬ (Licensing.get_resource_limit s resource == 0)%Q).
  { intros Hz. by apply check_limits_unlimited in Hz. }
  unfold Licensing.get_resource_limit in *.
  destruct (Licensing.get_license s) as [license_doc|]; [|by destruct Hnz].
  exists license_doc. split; [done|].
  destruct (Licensing.resource_limits license_doc !! resource); [done|].
  by destruct Hnz.
Qed.

(** The items of the loop: the limits of the license. *)
Lemma check_all_limits_spec s delivered :
  let run := LimitsJob.check_all_limits s delivered in
  let items :=
    match Licensing.get_license s with
    | Some license_doc => map_to_list (Licensing.resource_limits license_doc)
    | None => []
    end in
  run.1.1 = with_usage_alerts (usage_alerts run.1.1) s
  ∧ LimitsJob.alerts_created run.1.2
    = length (filter (λ item : string * Q,
                        Metering.check_limits s item.1 ≠ Metering.ok) items)
  ∧ LimitsJob.resources_checked run.1.2 = length items
  ∧ (∀ resource k, LimitsJob.has_open s resource k →
                   LimitsJob.has_open run.1.1 resource k)
  ∧ (∀ resource k,
       LimitsJob.alert_for (Metering.check_limits s resource) = Some k →
       LimitsJob.has_open run.1.1 resource k)
  ∧ ((∀ resource k,
        LimitsJob.alert_for (Metering.check_limits s resource) = Some k →
        LimitsJob.has_open s resource k) →
     dom (usage_alerts run.1.1) = dom (usage_alerts s))
  ∧ (LimitsJob.mails run.2 ≤ LimitsJob.alerts_created run.1.2)%nat.
Proof.
  intros run items.
  destruct (Licensing.get_license s) as [license_doc|] eqn:Elic.
  - assert (Hverdict : ∀ item, item ∈ items →
              LimitsJob.verdict (settings s) s item
              = LimitsJob.alert_for (Metering.check_limits s item.1)).
    { intros [resource limit] Hin. apply elem_of_map_to_list in Hin.
      apply verdict_check_limits. unfold Licensing.get_resource_limit.
      rewrite Elic. cbn [fst snd]. by rewrite Hin. }
    assert (Hrun : run = foldl (LimitsJob.check_one (settings s) delivered)
                           (with_usage_alerts (usage_alerts s) s,
                            {| LimitsJob.alerts_created := 0;
                               LimitsJob.resources_checked := 0 |}, [])
                           items).
    { unfold run, LimitsJob.check_all_limits. rewrite Elic.
      by rewrite <- site_frame. }
    pose proof (check_all_fold (settings s) delivered s items (usage_alerts s)
                  {| LimitsJob.alerts_created := 0;
                     LimitsJob.resources_checked := 0 |} []) as Hfold.
    cbv zeta in Hfold. rewrite <- Hrun in Hfold.
    destruct Hfold as (H1 & H2 & H3 & H4 & H5 & H6 & H7).
    rewrite <- site_frame in H4, H6.
    split; [exact H1|].
    split.
    { rewrite H2. simpl. f_equal. apply filter_ext_in.
      intros item Hin. rewrite (Hverdict item Hin).
      destruct (Metering.check_limits s item.1); simpl; split;
        try done; by intros [? ?]. }
    split; [by rewrite H3|].
    split; [exact H4|].
    split.
    { intros resource k Hk.
      assert (Hst : Metering.check_limits s resource ≠ Metering.ok).
      { intros Hok. rewrite Hok in Hk. discriminate. }
      destruct (limited_item s resource Hst) as (lic & Hlic & Hlim).
      rewrite Elic in Hlic. injection Hlic as <-.
      assert (Hin : (resource, Licensing.get_resource_limit s resource) ∈ items)
        by (by apply elem_of_map_to_list).
      apply (H5 _ k Hin). by rewrite (Hverdict _ Hin). }
    split.
    { intros Hall. apply H6. intros item k Hin Hv.
      apply Hall. by rewrite <- (Hverdict item Hin). }
    cbn [LimitsJob.alerts_created LimitsJob.mails] in H7.
    unfold LimitsJob.mails in *. simpl in H7. lia.
  - assert (Hrun : run = (s, {| LimitsJob.alerts_created := 0;
                                LimitsJob.resources_checked := 0 |}, [])).
    { unfold run, LimitsJob.check_all_limits. by rewrite Elic. }
    rewrite Hrun. simpl.
    split; [apply site_frame|].
    split; [done|]. split; [done|]. split; [done|].
    split.
    { intros resource k Hk. exfalso.
      rewrite check_limits_unlimited in Hk; [discriminate|].
      unfold Licensing.get_resource_limit. by rewrite Elic. }
    split; [done|]. unfold LimitsJob.mails. simpl. lia.
Qed.

(** X18. The hourly limit check goes through every limit of the license
    and calls [create_alert] once for each resource whose state is
    warning or exceeded: [alerts_created] is their number.  After the
    run each of them has an unacknowledged alert of its kind from today,
    alerts that were open stay open, and at most one mail per call went
    out; usage, settings and limit states are untouched.  [alerts_created]
    counts calls, not documents: a second run right after reports the same
    number and adds no alert. *)
Theorem check_all_limits_alerts (s : Site) (delivered delivered' : string → bool) :
  let run := LimitsJob.check_all_limits s delivered in
  let s' := run.1.1 in
  let again := LimitsJob.check_all_limits s' delivered' in
  (Licensing.get_license s = None →
   run = (s, {| LimitsJob.alerts_created := 0;
                LimitsJob.resources_checked := 0 |}, []))
  ∧ (∀ license_doc, Licensing.get_license s = Some license_doc →
       LimitsJob.resources_checked run.1.2
       = size (Licensing.resource_limits license_doc)
       ∧ LimitsJob.alerts_created run.1.2
         = length (filter (λ item : string * Q,
                             Metering.check_limits s item.1 ≠ Metering.ok)
                          (map_to_list (Licensing.resource_limits license_doc))))
  ∧ (∀ resource k,
       LimitsJob.alert_for (Metering.check_limits s resource) = Some k →
       LimitsJob.has_open s' resource k)
  ∧ (∀ resource k, LimitsJob.has_open s resource k → LimitsJob.has_open s' resource k)
  ∧ (LimitsJob.mails run.2 ≤ LimitsJob.alerts_created run.1.2)%nat
  ∧ usage_records s' = usage_records s
  ∧ settings s' = settings s
  ∧ (∀ resource, Metering.check_limits s' resource = Metering.check_limits s resource)
  ∧ LimitsJob.alerts_created again.1.2 = LimitsJob.alerts_created run.1.2
  ∧ dom (usage_alerts again.1.1) = dom (usage_alerts s').
Proof.
  intros run s' again.
  pose proof (check_all_limits_spec s delivered) as Hspec.
  cbv zeta in Hspec. fold run in Hspec. fold s' in Hspec.
  destruct Hspec as (Hframe & Hcount & Hchecked & Hkeep & Hopen & _ & Hmail).
  assert (Hlic : Licensing.get_license s' = Licensing.get_license s)
    by (by rewrite Hframe).
  assert (Hst : ∀ resource, Metering.check_limits s' resource
                            = Metering.check_limits s resource)
    by (intros resource; by rewrite Hframe).
  split.
  { intros Hnone. unfold run, LimitsJob.check_all_limits. by rewrite Hnone. }
  split.
  { intros license_doc Hl. rewrite Hl in Hcount, Hchecked.
    split; [|exact Hcount]. rewrite Hchecked. apply length_map_to_list. }
  split; [exact Hopen|]. split; [exact Hkeep|]. split; [exact Hmail|].
  split; [by rewrite Hframe|]. split; [by rewrite Hframe|].
  split; [exact Hst|].
  pose proof (check_all_limits_spec s' delivered') as Hspec'.
  cbv zeta in Hspec'. fold again in Hspec'.
  destruct Hspec' as (_ & Hcount' & _ & _ & _ & Hdom' & _).
  split.
  - rewrite Hcount', Hcount, Hlic. f_equal. apply filter_ext_in.
    intros item _. by rewrite Hst.
  - apply Hdom'. intros resource k Hk. apply Hopen. by rewrite <- Hst.
Qed.

(** X18 on a site at 90% of its API calls and 120% of its emails: after
    the check there is an open Exceeded alert for emails. *)
Lemma check_all_limits_alerts_witness :
  LimitsJob.has_open
    (LimitsJob.check_all_limits LimitsExample.site (λ _, true)).1.1
    "emails" UsageAlertDoc.Exceeded.
Proof.
  destruct (check_all_limits_alerts LimitsExample.site (λ _, true) (λ _, true))
    as (_ & _ & H & _).
  apply H. vm_compute. reflexivity.
Defined.

(** ** Document events *)



(** ** The usage endpoints *)


Lemma get_all_usage_known s resource :
  resource ∈ Metering.all_resources →
  Recording.get_all_usage s !! resource = Some (Metering.get_current_usage s resource).
Proof.
  intros H. rewrite get_all_usage_lookup. by rewrite decide_True.
Qed.



Lemma add_estimates_spec s (usage : gmap string Q) :
  let result :=
    map_fold (λ resource (_ : Q) acc, UsageAPI.add_estimate s resource acc)
             (∅, 0%Q) usage in
  (∀ resource o,
     result.1 !! resource = Some o
     ↔ is_Some (usage !! resource)
       ∧ o = Metering.calculate_overage s resource
       ∧ (0 < Metering.exceeded_by o)%Q)
  ∧ (0 <= result.2)%Q
  ∧ (result.1 = ∅ → (result.2 == 0)%Q).
Proof.
  cbv zeta.
  apply (map_fold_weak_ind
           (λ (acc : gmap string Metering.overage * Q) (m : gmap string Q),
              (∀ resource o,
                 acc.1 !! resource = Some o
                 ↔ is_Some (m !! resource)
                   ∧ o = Metering.calculate_overage s resource
                   ∧ (0 < Metering.exceeded_by o)%Q)
              ∧ (0 <= acc.2)%Q
              ∧ (acc.1 = ∅ → (acc.2 == 0)%Q))).
  - simpl. split; [|split; [discriminate|reflexivity]].
    intros resource o. rewrite !lookup_empty. split; [done|].
    by intros [[? ?] _].
  - intros i x m [estimates total] Hi (IH1 & IH2 & IH3). simpl in *.
    unfold UsageAPI.add_estimate. cbn [fst snd].
    destruct (Py.ltb 0 (Metering.exceeded_by (Metering.calculate_overage s i)))
      eqn:Elt; cbn [fst snd].
    + apply ltb_true in Elt.
      split; [|split].
      * intros resource o. destruct (decide (resource = i)) as [->|Hne].
        -- rewrite !lookup_insert_eq. split.
           ++ intros [= <-]. eauto.
           ++ by intros (_ & -> & _).
        -- rewrite !lookup_insert_ne by done. apply IH1.
      * pose proof (calculate_overage_cost_nonneg s i) as Hc. lra.
      * intros He. exfalso. apply (insert_non_empty _ _ _ He).
    + split; [|split; [exact IH2|exact IH3]].
      intros resource o. destruct (decide (resource = i)) as [->|Hne].
      * rewrite lookup_insert_eq. split.
        -- intros Ho. apply IH1 in Ho as [[? Hm] _]. congruence.
        -- intros (_ & -> & Hpos). apply ltb_true in Hpos. congruence.
      * rewrite lookup_insert_ne by done. apply IH1.
Qed.

(** X21. The overage estimate lists exactly the reported resources that
    are used beyond their limit, each with the figures of
    [calculate_overage]; the total is never negative, and 0 when nothing
    is listed. *)
Theorem overage_estimate_lists_overages (s : Site) (est : UsageAPI.estimate) :
  UsageAPI.get_overage_estimate s = Some est →
  (∀ resource o,
     UsageAPI.overages est !! resource = Some o
     ↔ is_Some (Recording.get_all_usage s !! resource)
       ∧ o = Metering.calculate_overage s resource
       ∧ (0 < Metering.exceeded_by o)%Q)
  ∧ (∀ resource, resource ∈ Metering.all_resources →
       (UsageAPI.overages est !! resource = None
        ↔ (Licensing.get_resource_limit s resource == 0)%Q
          ∨ (Metering.get_current_usage s resource
             <= Licensing.get_resource_limit s resource)%Q))
  ∧ (0 <= UsageAPI.total_estimated_cost est)%Q
  ∧ (UsageAPI.overages est = ∅ → (UsageAPI.total_estimated_cost est == 0)%Q).
Proof.
  unfold UsageAPI.get_overage_estimate.
  destruct (Licensing.get_license s) as [license_doc|] eqn:Elic; [|done].
  cbv zeta. intros [= <-]. cbn [UsageAPI.overages UsageAPI.total_estimated_cost].
  destruct (add_estimates_spec s (Recording.get_all_usage s)) as (H1 & H2 & H3).
  cbv zeta in H1, H2, H3.
  split; [exact H1|]. split.
  { intros resource Hin.
    pose proof (calculate_overage_positive s resource) as Hpos. split.
    - intros Hnone.
      destruct (Qeq_bool (Licensing.get_resource_limit s resource) 0) eqn:Ez;
        [left; by apply Qeq_bool_iff|].
      right. apply Qeq_bool_false in Ez.
      destruct (Qlt_le_dec (Licensing.get_resource_limit s resource)
                  (Metering.get_current_usage s resource)) as [Hlt|Hle]; [|done].
      exfalso.
      assert (Hsome : fst (map_fold
                             (λ resource (_ : Q) acc,
                                UsageAPI.add_estimate s resource acc)
                             (∅, 0%Q) (Recording.get_all_usage s)) !! resource
                      = Some (Metering.calculate_overage s resource)).
      { apply H1. split; [rewrite get_all_usage_known by done; eauto|].
        split; [done|]. by apply Hpos. }
      congruence.
    - intros Hor.
      destruct (fst _ !! resource) as [o|] eqn:Eo; [|done].
      apply H1 in Eo as (_ & -> & Ho). apply Hpos in Ho as [Hnz Hlt].
      destruct Hor as [Hz|Hle]; [by destruct Hnz|lra]. }
  split; [by apply round_nonneg|].
  intros He. apply round_zero. by apply H3.
Qed.

(** X21 on the demonstration site with 24000 of 10000 API calls used: the
    estimate is not negative. *)
Lemma overage_estimate_lists_overages_witness :
  ∃ est, UsageAPI.get_overage_estimate (Examples.api_usage 24000) = Some est
         ∧ (0 <= UsageAPI.total_estimated_cost est)%Q.
Proof.
  assert (E : ∃ est,
             UsageAPI.get_overage_estimate (Examples.api_usage 24000) = Some est).
  { unfold UsageAPI.get_overage_estimate.
    destruct (Licensing.get_license (Examples.api_usage 24000)) eqn:El; [eauto|].
    vm_compute in El. discriminate El. }
  destruct E as [est E]. exists est. split; [exact E|].
  by destruct (overage_estimate_lists_overages (Examples.api_usage 24000) est E)
    as (_ & _ & H & _).
Defined.

(** ** Tier defaults *)

Lemma tier_cases (tier : string) :
  tier ∈ Tiers.founding
  ∨ (tier = "Starter" ∨ tier = "Growth" ∨ tier = "Scale" ∨ tier = "Enterprise")
  ∨ (Tiers.tier_mapping !! tier = None ∧ Tiers.tier_limits !! tier = None).
Proof.
  destruct (decide (tier ∈ Tiers.founding)) as [?|Hf]; [by left|].
  destruct (decide (tier = "Starter")) as [?|H1]; [right; left; tauto|].
  destruct (decide (tier = "Growth")) as [?|H2]; [right; left; tauto|].
  destruct (decide (tier = "Scale")) as [?|H3]; [right; left; tauto|].
  destruct (decide (tier = "Enterprise")) as [?|H4]; [right; left; tauto|].
  right. right. unfold Tiers.founding in Hf.
  rewrite !elem_of_cons, elem_of_nil in Hf.
  split.
  - apply not_elem_of_list_to_map_1. simpl.
    rewrite !elem_of_cons, elem_of_nil. tauto.
  - apply not_elem_of_list_to_map_1. simpl.
    rewrite !elem_of_cons, elem_of_nil. tauto.
Qed.

(** X22. [get_tier_limits] answers with a table for every tier name, never
    with None: the table has a limit, not negative, for each of the nine
    resource kinds and for nothing else.  The regular tier names give the
    table of their founding equivalents and an unknown name gives the
    Trial table. *)
Theorem tier_limits_complete (tier : string) :
  (∃ limits,
     Tiers.get_tier_limits tier = Some limits
     ∧ dom limits = list_to_set Metering.all_resources
     ∧ ∀ resource limit, limits !! resource = Some limit → (0 <= limit)%Q)
  ∧ Tiers.get_tier_limits "Starter" = Tiers.get_tier_limits "Pioneer"
  ∧ Tiers.get_tier_limits "Growth" = Tiers.get_tier_limits "Builder"
  ∧ Tiers.get_tier_limits "Scale" = Tiers.get_tier_limits "Visionary"
  ∧ Tiers.get_tier_limits "Enterprise" = Tiers.get_tier_limits "Legend"
  ∧ (tier ∉ Tiers.founding →
     tier ∉ [ "Starter"; "Growth"; "Scale"; "Enterprise" ] →
     Tiers.get_tier_limits tier = Tiers.get_tier_limits "Trial").
Proof.
  assert (Hknown : ∀ t, t ∈ Tiers.founding →
            ∃ limits, Tiers.get_tier_limits t = Some limits
                      ∧ dom limits = list_to_set Metering.all_resources
                      ∧ ∀ resource limit, limits !! resource = Some limit →
                                          (0 <= limit)%Q).
  { intros t Ht. unfold Tiers.founding in Ht.
    rewrite !elem_of_cons, elem_of_nil in Ht.
    destruct Ht as [-> | [-> | [-> | [-> | [-> | [] ] ] ] ] ];
      (eexists; split; [reflexivity|]; split;
       [unfold Tiers.limits_of, Metering.all_resources; simpl;
        rewrite !dom_insert_L, dom_empty_L; reflexivity|];
       intros resource limit; unfold Tiers.limits_of; simpl;
       rewrite !lookup_insert_Some, lookup_empty;
       intros H; repeat destruct H as [[_ <-]|[_ H]]; try discriminate;
       done). }
  split; [|repeat split; try reflexivity].
  - destruct (tier_cases tier) as [Hf|[Hr|[Hm Hl]]].
    + by apply Hknown.
    + destruct Hr as [-> | [-> | [-> | ->] ] ];
        [apply (Hknown "Pioneer")|apply (Hknown "Builder")
        |apply (Hknown "Visionary")|apply (Hknown "Legend")];
        unfold Tiers.founding; rewrite !elem_of_cons; tauto.
    + unfold Tiers.get_tier_limits. rewrite Hm. simpl. rewrite Hl.
      apply (Hknown "Trial"). left.
  - intros Hf Hr. rewrite !elem_of_cons, elem_of_nil in Hr.
    destruct (tier_cases tier) as [?|[?|[Hm Hl]]]; [done|tauto|].
    unfold Tiers.get_tier_limits. rewrite Hm. simpl. by rewrite Hl.
Qed.

(** X22 for a name that is no tier. *)
Lemma tier_limits_complete_witness :
  Tiers.get_tier_limits "Free" = Tiers.get_tier_limits "Trial".
Proof.
  destruct (tier_limits_complete "Free") as (_ & _ & _ & _ & _ & H).
  apply H.
  - unfold Tiers.founding. rewrite !elem_of_cons, elem_of_nil.
    intros [H1 | [H1 | [H1 | [H1 | [H1 | [] ] ] ] ] ]; discriminate H1.
  - rewrite !elem_of_cons, elem_of_nil.
    intros [H1 | [H1 | [H1 | [H1 | [] ] ] ] ]; discriminate H1.
Defined.

(** ** The stored license and the gate *)

Lemma listed_validated json_loads (x : json) (d : dict) (key : string)
    (f : option string) (not_array invalid : LicenseDoc.validation_error) :
  json_loads "" = None →
  LicenseDoc.check_array json_loads x not_array invalid = None →
  Dict.get key d = Some (LicenseGate._parse_json json_loads x (JList [])) →
  LicenseGate.listed json_loads d key f
  = Some (LicenseDoc.wants f (LicenseDoc.has json_loads x)).
Proof.
  intros Hempty Hcheck Hget.
  unfold LicenseGate.listed, LicenseDoc.wants.
  destruct (Py.truthy_str f); [|done].
  rewrite Hget. cbn [from_option id].
  unfold LicenseDoc.check_array, LicenseDoc.has in *.
  destruct x as [|b|q|text|l|d0]; cbn [Dict.truthy] in *.
  - done.
  - destruct b; [discriminate Hcheck|done].
  - destruct (Py.truthy q); [discriminate Hcheck|done].
  - destruct (String.eqb text "") eqn:Et; cbn [negb] in *.
    + apply String.eqb_eq in Et. subst text. simpl. by rewrite Hempty.
    + simpl in *. destruct (json_loads text) as [[| | | |l|]|]; try discriminate Hcheck.
      done.
  - destruct l; [done|]. done.
  - destruct d0; [done|discriminate Hcheck].
Qed.

Lemma validate_keeps_fields json_loads json_dumps doc doc' :
  LicenseDoc.validate json_loads json_dumps doc = inr doc' →
  LicenseDoc.status doc' = LicenseDoc.status doc
  ∧ LicenseDoc.tier doc' = LicenseDoc.tier doc
  ∧ LicenseDoc.expiry_date doc' = LicenseDoc.expiry_date doc
  ∧ LicenseDoc.enabled_features doc' = LicenseDoc.enabled_features doc
  ∧ LicenseDoc.enabled_apps doc' = LicenseDoc.enabled_apps doc
  ∧ LicenseDoc.check_array json_loads (LicenseDoc.enabled_features doc')
      LicenseDoc.FeaturesNotArray LicenseDoc.InvalidFeatures = None
  ∧ LicenseDoc.check_array json_loads (LicenseDoc.enabled_apps doc')
      LicenseDoc.AppsNotArray LicenseDoc.InvalidApps = None.
Proof.
  unfold LicenseDoc.validate.
  destruct (Dict.truthy (LicenseDoc.resource_limits doc)).
  - destruct (foldl LicenseDoc.fill_key _ _) as [limits|]; [|done].
    destruct (LicenseDoc.check_array _ _ _ _) eqn:E1; [done|].
    destruct (LicenseDoc.check_array _ (LicenseDoc.enabled_apps _) _ _) eqn:E2;
      [done|].
    intros [= <-]. done.
  - destruct (LicenseDoc.check_array _ _ _ _) eqn:E1; [done|].
    destruct (LicenseDoc.check_array _ (LicenseDoc.enabled_apps _) _ _) eqn:E2;
      [done|].
    intros [= <-]. done.
Qed.

(** X23. For a license document that passed [validate], the gate answers
    from the document: [is_licensed] on the dict [get_license] builds
    never raises, and is True exactly when the document is valid today,
    has the feature asked for, if any, and has the app asked for, if
    any, as [is_valid], [has_feature] and [has_app] tell.  [validate]
    changes neither the status, the expiry date nor the two lists. *)
Theorem validated_license_gate
    (json_loads : string → option json) (json_dumps : bool → json → string)
    (doc doc' : LicenseDoc.t) :
  json_loads "" = None →
  LicenseDoc.validate json_loads json_dumps doc = inr doc' →
  (LicenseDoc.status doc' = LicenseDoc.status doc
   ∧ LicenseDoc.expiry_date doc' = LicenseDoc.expiry_date doc
   ∧ LicenseDoc.enabled_features doc' = LicenseDoc.enabled_features doc
   ∧ LicenseDoc.enabled_apps doc' = LicenseDoc.enabled_apps doc)
  ∧ ∀ today feature app,
      LicenseGate.is_licensed json_loads
        (Some (LicenseDoc.license_data json_loads today doc')) feature app
      = inr (LicenseDoc.is_valid today doc'
             && LicenseDoc.wants feature (LicenseDoc.has_feature json_loads doc')
             && LicenseDoc.wants app (LicenseDoc.has_app json_loads doc')).
Proof.
  intros Hempty Hv.
  destruct (validate_keeps_fields _ _ _ _ Hv) as (Hs & _ & He & Hf & Ha & Hcf & Hca).
  split; [done|].
  intros today feature app.
  unfold LicenseGate.is_licensed.
  change (LicenseGate.present (Some (LicenseDoc.license_data json_loads today doc')))
    with (Some (LicenseDoc.license_data json_loads today doc')).
  cbv beta iota.
  change (Dict.get "is_valid" (LicenseDoc.license_data json_loads today doc'))
    with (Some (JBool (LicenseDoc.is_valid today doc'))).
  cbn [from_option id Dict.truthy].
  destruct (LicenseDoc.is_valid today doc'); cbn [negb andb]; [|reflexivity].
  rewrite (listed_validated json_loads (LicenseDoc.enabled_features doc')
             (LicenseDoc.license_data json_loads today doc')
             "enabled_features" feature _ _ Hempty Hcf eq_refl).
  rewrite (listed_validated json_loads (LicenseDoc.enabled_apps doc')
             (LicenseDoc.license_data json_loads today doc')
             "enabled_apps" app _ _ Hempty Hca eq_refl).
  unfold LicenseDoc.has_feature, LicenseDoc.has_app.
  destruct (LicenseDoc.wants feature _); [|done].
  by destruct (LicenseDoc.wants app _).
Qed.

(** X23 on an active Builder license with the webhooks feature. *)
Lemma validated_license_gate_witness :
  ∃ doc',
    LicenseDoc.validate LicenseGate.example_loads SyncExample.json_dumps
      LicenseDoc.example = inr doc'
    ∧ LicenseGate.is_licensed LicenseGate.example_loads
        (Some (LicenseDoc.license_data LicenseGate.example_loads (100 * day_us) doc'))
        (Some "webhooks") None = inr true.
Proof.
  eexists. split; [vm_compute; reflexivity|].
  destruct (validated_license_gate LicenseGate.example_loads SyncExample.json_dumps
              LicenseDoc.example _ eq_refl eq_refl) as [_ H].
  rewrite H. vm_compute. reflexivity.
Defined.

(** ** The limits a license document stores *)

Lemma contains_key_get key d :
  existsb (λ item : string * json, String.eqb item.1 key) d = true
  ↔ is_Some (Dict.get key d).
Proof.
  induction d as [|[k v] d IH]; simpl.
  - split; [done|by intros [? ?]].
  - destruct (String.eqb k key); simpl; [split; eauto|exact IH].
Qed.

Lemma get_snoc r d k v :
  Dict.get r (d ++ [(k, v)])
  = match Dict.get r d with
    | Some x => Some x
    | None => if String.eqb k r then Some v else None
    end.
Proof.
  induction d as [|[k0 v0] d IH]; simpl; [done|].
  by destruct (String.eqb k0 r).
Qed.

(** The loop of [validate] over the expected keys, on a JSON object. *)
Lemma fill_keys_dict (keys : list string) : ∀ d,
  ∃ d', foldl LicenseDoc.fill_key (Some (JDict d)) keys = Some (JDict d')
        ∧ (∀ r v, Dict.get r d = Some v → Dict.get r d' = Some v)
        ∧ (∀ r, Dict.get r d = None →
                Dict.get r d' = if bool_decide (r ∈ keys) then Some (JNum 0) else None).
Proof.
  induction keys as [|key keys IH]; intros d.
  - exists d. split; [done|]. split; [done|]. intros r Hr.
    rewrite bool_decide_eq_false_2; [done|]. apply not_elem_of_nil.
  - cbn [foldl]. unfold LicenseDoc.fill_key at 2. cbn [LicenseGate.contains].
    destruct (existsb _ d) eqn:Ex.
    + apply contains_key_get in Ex as [v0 Hv0].
      destruct (IH d) as (d' & Hfold & Hkeep & Hnew).
      exists d'. split; [done|]. split; [done|].
      intros r Hr. rewrite (Hnew r Hr).
      assert (Hne : r ≠ key) by congruence.
      destruct (decide (r ∈ keys)) as [Hin|Hin].
      * rewrite !bool_decide_eq_true_2; [done|by right|done].
      * rewrite !bool_decide_eq_false_2; [done| |done].
        intros [?|?]%elem_of_cons; done.
    + assert (Hnone : Dict.get key d = None).
      { destruct (Dict.get key d) eqn:E; [|done].
        assert (Hs : is_Some (Dict.get key d)) by eauto.
        apply contains_key_get in Hs. congruence. }
      destruct (IH (d ++ [(key, JNum 0)])) as (d' & Hfold & Hkeep & Hnew).
      exists d'. split; [done|]. split.
      * intros r v Hr. apply Hkeep. by rewrite get_snoc, Hr.
      * intros r Hr. destruct (decide (r = key)) as [->|Hne].
        -- rewrite bool_decide_eq_true_2 by left.
           apply Hkeep. by rewrite get_snoc, Hnone, String.eqb_refl.
        -- rewrite (Hnew r).
           ++ destruct (decide (r ∈ keys)) as [Hin|Hin].
              ** rewrite !bool_decide_eq_true_2; [done|by right|done].
              ** rewrite !bool_decide_eq_false_2; [done| |done].
                 intros [?|?]%elem_of_cons; done.
           ++ rewrite get_snoc, Hr.
              assert (He : String.eqb key r = false)
                by (apply String.eqb_neq; congruence).
              by rewrite He.
Qed.

(** X24. [validate] completes the limits of a license: when the stored
    limits are a JSON object, the document is saved with an object that
    has every entry of the old one, and an entry of 0 for each of the nine
    expected keys the old one lacked, and nothing else.  If the text
    written parses back to the object, [get_resource_limit] returns for
    every resource what it returned before, and validating the saved
    document again changes nothing. *)
Theorem validate_fills_limits
    (json_loads : string → option json) (json_dumps : bool → json → string)
    (doc doc' : LicenseDoc.t) (d : dict) :
  LicenseDoc.validate json_loads json_dumps doc = inr doc' →
  Dict.truthy (LicenseDoc.resource_limits doc) = true →
  LicenseDoc.load_field json_loads (LicenseDoc.resource_limits doc) = Some (JDict d) →
  ∃ d',
    LicenseDoc.resource_limits doc' = JStr (json_dumps false (JDict d'))
    ∧ (∀ r v, Dict.get r d = Some v → Dict.get r d' = Some v)
    ∧ (∀ r, Dict.get r d = None →
            Dict.get r d'
            = if bool_decide (r ∈ LicenseDoc.expected_keys) then Some (JNum 0)
              else None)
    ∧ (∀ r, r ∈ LicenseDoc.expected_keys → is_Some (Dict.get r d'))
    ∧ (json_loads (json_dumps false (JDict d')) = Some (JDict d') →
       json_dumps false (JDict d') ≠ "" →
       (∀ r, LicenseDoc.get_resource_limit json_loads doc' r
             = LicenseDoc.get_resource_limit json_loads doc r)
       ∧ LicenseDoc.validate json_loads json_dumps doc' = inr doc').
Proof.
  intros Hv Ht Hload.
  destruct (fill_keys_dict LicenseDoc.expected_keys d) as (d' & Hfold & Hkeep & Hnew).
  assert (Hdoc : doc' = LicenseDoc.set_resource_limits
                          (JStr (json_dumps false (JDict d'))) doc
                 ∧ LicenseDoc.check_array json_loads (LicenseDoc.enabled_features doc)
                     LicenseDoc.FeaturesNotArray LicenseDoc.InvalidFeatures = None
                 ∧ LicenseDoc.check_array json_loads (LicenseDoc.enabled_apps doc)
                     LicenseDoc.AppsNotArray LicenseDoc.InvalidApps = None).
  { revert Hv. unfold LicenseDoc.validate. rewrite Ht, Hload, Hfold.
    cbn [LicenseDoc.enabled_features LicenseDoc.enabled_apps
         LicenseDoc.set_resource_limits].
    destruct (LicenseDoc.check_array _ _ _ _); [done|].
    destruct (LicenseDoc.check_array _ _ _ _); [done|].
    by intros [= <-]. }
  destruct Hdoc as (-> & Hcf & Hca).
  assert (Hall : ∀ r, r ∈ LicenseDoc.expected_keys → is_Some (Dict.get r d')).
  { intros r Hin. destruct (Dict.get r d) as [v|] eqn:Er.
    - rewrite (Hkeep r v Er). eauto.
    - rewrite (Hnew r Er), bool_decide_eq_true_2 by done. eauto. }
  exists d'. split; [done|]. split; [exact Hkeep|]. split; [exact Hnew|].
  split; [exact Hall|].
  intros Hround Hnonempty.
  assert (Htext : Dict.truthy (JStr (json_dumps false (JDict d'))) = true).
  { simpl. apply negb_true_iff, String.eqb_neq. exact Hnonempty. }
  split.
  - intros r. unfold LicenseDoc.get_resource_limit.
    cbn [LicenseDoc.resource_limits LicenseDoc.set_resource_limits].
    rewrite Htext, Ht, Hload. cbn [negb LicenseDoc.load_field]. rewrite Hround.
    f_equal. destruct (Dict.get r d) as [v|] eqn:Er.
    + by rewrite (Hkeep r v Er).
    + rewrite (Hnew r Er). by destruct (bool_decide _).
  - unfold LicenseDoc.validate.
    cbn [LicenseDoc.resource_limits LicenseDoc.set_resource_limits].
    rewrite Htext. cbn [LicenseDoc.load_field]. rewrite Hround.
    destruct (fill_keys_dict LicenseDoc.expected_keys d') as (d'' & Hfold' & Hkeep' & _).
    assert (Hsame : foldl LicenseDoc.fill_key (Some (JDict d')) LicenseDoc.expected_keys
                    = Some (JDict d')).
    { clear -Hall. revert Hall. generalize LicenseDoc.expected_keys.
      intros keys. induction keys as [|key keys IH]; intros Hall; [done|].
      cbn [foldl]. unfold LicenseDoc.fill_key at 2. cbn [LicenseGate.contains].
      rewrite (proj2 (contains_key_get key d')) by (apply Hall; left).
      apply IH. intros r Hr. apply Hall. by right. }
    rewrite Hsame.
    cbn [LicenseDoc.enabled_features LicenseDoc.enabled_apps
         LicenseDoc.set_resource_limits].
    by rewrite Hcf, Hca.
Qed.

(** X24 on the stored Builder license, whose limits name API calls only:
    the saved limits have an entry of 0 for emails. *)
Lemma validate_fills_limits_witness :
  ∃ doc' d',
    LicenseDoc.validate LicenseGate.example_loads SyncExample.json_dumps
      LicenseDoc.example = inr doc'
    ∧ LicenseDoc.resource_limits doc' = JStr (SyncExample.json_dumps false (JDict d'))
    ∧ Dict.get "emails" d' = Some (JNum 0)
    ∧ Dict.get "api_calls" d' = Some (JNum 10000).
Proof.
  destruct (validate_fills_limits LicenseGate.example_loads SyncExample.json_dumps
              LicenseDoc.example _ [ ("api_calls", JNum 10000) ] eq_refl eq_refl eq_refl)
    as (d' & H1 & H2 & H3 & _).
  eexists _, d'. split; [reflexivity|]. split; [exact H1|]. split.
  - rewrite H3; reflexivity.
  - apply H2. reflexivity.
Defined.

(** ** How far a gated call can overshoot *)



(** ** The cached license *)

Lemma hooks_keep_license_data (hooks : list LicenseCache.hook) : ∀ cache,
  foldl LicenseCache.run_hook cache hooks !! "simbotix_license_data"
  = cache !! "simbotix_license_data".
Proof.
  induction hooks as [|h hooks IH]; intros cache; [done|].
  cbn [foldl]. rewrite IH.
  destruct h; unfold LicenseCache.run_hook;
    rewrite !lookup_delete_ne; done.
Qed.

(** X26. The license dict cached by [get_license] is cleared by nothing:
    the update hooks of the license and of the settings and the license
    sync delete other keys.  So with the Redis cache in use, once
    [get_license] has built the dict from the stored document, it keeps
    answering with that dict for as long as the entry lives, whatever
    hooks have run, whatever the document holds now and whatever the day
    is; with the cache switched off it answers from the document as it
    is. *)
Theorem cached_license_outlives_update
    (json_loads : string → option json) (today : Z) (cache : LicenseCache.store)
    (doc : LicenseDoc.t) (hooks : list LicenseCache.hook) :
  LicenseCache._get_cached_license true cache = Return None →
  let first := LicenseCache.get_license json_loads true today cache (Some doc) in
  let later := foldl LicenseCache.run_hook first.1 hooks in
  first.2 = Return (Some (LicenseDoc.license_data json_loads today doc))
  ∧ (∀ today' active,
       LicenseCache.get_license json_loads true today' later active
       = (later, Return (Some (LicenseDoc.license_data json_loads today doc))))
  ∧ (∀ today' doc',
       LicenseCache.get_license json_loads false today' later (Some doc')
       = (later, Return (Some (LicenseDoc.license_data json_loads today' doc')))).
Proof.
  intros Hmiss first later.
  assert (Hfirst : first
                   = (<["simbotix_license_data" :=
                          JDict (LicenseDoc.license_data json_loads today doc)]> cache,
                      Return (Some (LicenseDoc.license_data json_loads today doc)))).
  { unfold first, LicenseCache.get_license. by rewrite Hmiss. }
  split; [by rewrite Hfirst|]. split.
  - intros today' active. unfold LicenseCache.get_license.
    assert (Hhit : LicenseCache._get_cached_license true later
                   = Return (Some (LicenseDoc.license_data json_loads today doc))).
    { unfold LicenseCache._get_cached_license, later. cbn [negb].
      rewrite hooks_keep_license_data, Hfirst. cbn [fst].
      by rewrite lookup_insert_eq. }
    by rewrite Hhit.
  - intros today' doc'. reflexivity.
Qed.

(** X26 on the stored Builder license: after it is suspended and its
    update hook has run, [get_license] still answers with the dict of the
    active license. *)
Lemma cached_license_outlives_update_witness :
  (LicenseCache.get_license LicenseGate.example_loads true (101 * day_us)
     (foldl LicenseCache.run_hook
        (LicenseCache.get_license LicenseGate.example_loads true (100 * day_us) ∅
           (Some LicenseDoc.example)).1
        [LicenseCache.AppLicenseUpdated])
     (Some LicenseCache.suspended)).2
  = Return (Some (LicenseDoc.license_data LicenseGate.example_loads (100 * day_us)
                    LicenseDoc.example)).
Proof.
  assert (Hmiss : LicenseCache._get_cached_license true ∅ = Return None)
    by (vm_compute; reflexivity).
  destruct (cached_license_outlives_update LicenseGate.example_loads (100 * day_us) ∅
              LicenseDoc.example [LicenseCache.AppLicenseUpdated] Hmiss)
    as (_ & H & _).
  by rewrite H.
Defined.
